(** * awsipranges: prefix records, prefix collections and their lookups

    A shallow embedding of [awsipranges/utils.py],
    [awsipranges/models/awsipprefix.py] and
    [awsipranges/models/awsipprefixes.py], together with the parts of
    Python's [ipaddress], [bisect] and built-in sorting those modules
    call.  Definitions come first, then the supporting lemmas, then the
    properties of the package. *)

From Stdlib Require Import ZArith String List Lia Permutation Sorted.
From stdpp Require Import base decidable list sorting strings gmap.

Open Scope Z_scope.

(* ================================================================== *)
(** * Exceptions *)
(* ================================================================== *)

(** The Python exceptions the modelled code can raise.  [FuelExhausted]
    is not a Python exception: it marks a loop model that ran out of
    fuel, and the lemmas below show it is never produced. *)
Inductive exn : Set :=
| TypeError
| ValueError
| KeyError
| AssertionError
| IndexError
| FuelExhausted.

Inductive result (A : Type) : Type :=
| Ok (a : A)
| Raise (e : exn).

Arguments Ok {A} a.
Arguments Raise {A} e.

#[global] Instance exn_eq_dec : EqDecision exn.
Proof. solve_decision. Defined.

#[global] Instance result_ret : MRet result := fun _ a => Ok a.

#[global] Instance result_bind : MBind result := fun _ _ k m =>
  match m with
  | Ok a => k a
  | Raise e => Raise e
  end.

(* ================================================================== *)
(** * Python built-ins: comparisons and sorting *)
(* ================================================================== *)

Module builtins.

(** [str.__lt__]: lexicographic on code points. *)
Definition str_lt (a b : string) : bool := String.ltb a b.

(** [tuple.__lt__] on tuples of strings: the first position where the
    two tuples differ decides; a proper prefix is smaller. *)
Fixpoint tuple_lt (a b : list string) : bool :=
  match a, b with
  | [], [] => false
  | [], _ :: _ => true
  | _ :: _, [] => false
  | x :: a', y :: b' =>
      if bool_decide (x = y) then tuple_lt a' b' else str_lt x y
  end.

(** One step of a stable insertion that only ever asks [y < x], as
    [list.sort] and [sorted] do. *)
Fixpoint insort {A : Type} (lt : A -> A -> bool) (x : A) (l : list A) : list A :=
  match l with
  | [] => [x]
  | y :: l' => if lt y x then y :: insort lt x l' else x :: y :: l'
  end.

(** [sorted(l)] / [l.sort()]: the stable ascending arrangement of [l]
    under [lt]. *)
Definition sorted {A : Type} (lt : A -> A -> bool) (l : list A) : list A :=
  foldr (insort lt) [] l.

(** [range(start, 0, -1)]: start, start-1, ..., 1. *)
Definition range_down_to_1 (start : Z) : list Z :=
  (fun k : nat => start - Z.of_nat k) <$> seq 0 (Z.to_nat start).

End builtins.

(** A cascade step of a comparison method:
    [if f a != f b: return f a < f b], else continue with [rest]. *)
Definition cascade {A K : Type} `{EqDecision K}
    (f : A -> K) (ltK : K -> K -> bool) (rest : A -> A -> bool) (a b : A) : bool :=
  if bool_decide (f a <> f b) then ltK (f a) (f b) else rest a b.

(** Strict orders presented as boolean functions. *)
Class StrictB {A : Type} (lt : A -> A -> bool) : Prop := {
  ltb_irrefl : forall x, lt x x = false;
  ltb_trans : forall x y z, lt x y = true -> lt y z = true -> lt x z = true
}.

Class TotalB {A : Type} (lt : A -> A -> bool) : Prop :=
  ltb_total : forall x y, lt x y = false -> lt y x = false -> x = y.

(* ================================================================== *)
(** * The [ipaddress] standard module, as far as the package uses it *)
(* ================================================================== *)

Module ipaddress.

Inductive IPVersion : Set := IPv4 | IPv6.

#[global] Instance IPVersion_eq_dec : EqDecision IPVersion.
Proof. solve_decision. Defined.

(** The [version] attribute: 4 or 6. *)
Definition version_number (v : IPVersion) : Z :=
  match v with IPv4 => 4 | IPv6 => 6 end.

(** [IPV4LENGTH] and [IPV6LENGTH]. *)
Definition max_prefixlen (v : IPVersion) : Z :=
  match v with IPv4 => 32 | IPv6 => 128 end.

(** [_ALL_ONES = 2**max_prefixlen - 1]. *)
Definition ALL_ONES (v : IPVersion) : Z := 2 ^ max_prefixlen v - 1.

(** An [IPv4Network] or [IPv6Network] object: the integer of its network
    address and its prefix length.  The class of the object is its
    [version]. *)
Record IPNetwork : Set := mkNetwork {
  version : IPVersion;
  network_address : Z;
  prefixlen : Z
}.

#[global] Instance IPNetwork_eq_dec : EqDecision IPNetwork.
Proof. solve_decision. Defined.

(** [_ip_int_from_prefix]: [_ALL_ONES ^ (_ALL_ONES >> prefixlen)]. *)
Definition ip_int_from_prefix (v : IPVersion) (plen : Z) : Z :=
  Z.lxor (ALL_ONES v) (Z.shiftr (ALL_ONES v) plen).

Definition netmask (n : IPNetwork) : Z :=
  ip_int_from_prefix (version n) (prefixlen n).

(** [hostmask = netmask ^ _ALL_ONES]. *)
Definition hostmask (n : IPNetwork) : Z :=
  Z.lxor (netmask n) (ALL_ONES (version n)).

(** [broadcast_address = network_address | hostmask]. *)
Definition broadcast_address (n : IPNetwork) : Z :=
  Z.lor (network_address n) (hostmask n).

(** What every network object built by [ipaddress] satisfies: the prefix
    length and the address are in range and no host bit is set. *)
Definition network_ok (n : IPNetwork) : bool :=
  (0 <=? prefixlen n) && (prefixlen n <=? max_prefixlen (version n))
  && (0 <=? network_address n) && (network_address n <=? ALL_ONES (version n))
  && (Z.land (network_address n) (netmask n) =? network_address n).

(** [_BaseNetwork.__eq__]: same version, same network address, same
    netmask. *)
Definition network_eq (a b : IPNetwork) : bool :=
  bool_decide (version a = version b)
  && (network_address a =? network_address b)
  && (netmask a =? netmask b).

(** [_BaseNetwork.__lt__]: comparing networks of different versions
    raises [TypeError]; otherwise the network address decides, then the
    netmask. *)
Definition network_lt (a b : IPNetwork) : result bool :=
  if bool_decide (version a <> version b) then Raise TypeError
  else if negb (network_address a =? network_address b)
       then Ok (network_address a <? network_address b)
  else if negb (netmask a =? netmask b)
       then Ok (netmask a <? netmask b)
  else Ok false.

(** [_BaseNetwork.supernet(new_prefix=...)]. *)
Definition supernet (n : IPNetwork) (new_prefix : Z) : result IPNetwork :=
  if prefixlen n =? 0 then Ok n
  else if prefixlen n <? new_prefix then Raise ValueError
  else
    let prefixlen_diff := prefixlen n - new_prefix in
    let new_prefixlen := prefixlen n - prefixlen_diff in
    if new_prefixlen <? 0 then Raise ValueError
    else Ok (mkNetwork (version n)
               (Z.land (network_address n) (Z.shiftl (netmask n) prefixlen_diff))
               new_prefixlen).

(** [a.subnet_of(b)]. *)
Definition subnet_of (a b : IPNetwork) : result bool :=
  if bool_decide (version a <> version b) then Raise TypeError
  else Ok ((network_address b <=? network_address a)
           && (broadcast_address a <=? broadcast_address b)).

(** [ip_network(address)] for an address object: the host network
    (/32 or /128). *)
Definition ip_network_of_address (v : IPVersion) (ip : Z) : IPNetwork :=
  mkNetwork v ip (max_prefixlen v).

(** [ip_network(interface, strict=False)]: host bits are masked out. *)
Definition ip_network_nonstrict (v : IPVersion) (ip plen : Z) : IPNetwork :=
  mkNetwork v (Z.land ip (ip_int_from_prefix v plen)) plen.

End ipaddress.

Export ipaddress.

(* ================================================================== *)
(** * [bisect.bisect_left] *)
(* ================================================================== *)

Module bisect.

(** The [while lo < hi] loop; [fuel] bounds the number of iterations. *)
Fixpoint bisect_loop {A X : Type} (lt : A -> X -> result bool)
    (fuel : nat) (a : list A) (x : X) (lo hi : nat) : result nat :=
  if bool_decide (lo < hi)%nat then
    match fuel with
    | O => Raise FuelExhausted
    | S fuel' =>
        let mid := ((lo + hi) / 2)%nat in
        match a !! mid with
        | None => Raise IndexError
        | Some y =>
            b ← lt y x;
            if b : bool then bisect_loop lt fuel' a x (mid + 1)%nat hi
            else bisect_loop lt fuel' a x lo mid
        end
    end
  else Ok lo.

Definition bisect_left {A X : Type} (lt : A -> X -> result bool)
    (a : list A) (x : X) : result nat :=
  bisect_loop lt (length a) a x 0%nat (length a).

End bisect.

(* ================================================================== *)
(** * [awsipranges/utils.py] *)
(* ================================================================== *)

Module utils.

(** An optional argument that is [None], one value (a [str] or an
    [int]), or an iterable of values. *)
Inductive arg (K : Type) : Type :=
| ArgNone
| ArgOne (value : K)
| ArgMany (values : list K).

Arguments ArgNone {K}.
Arguments ArgOne {K} value.
Arguments ArgMany {K} values.

(** [check_type] on an object that is [None] or an instance of one of
    the acceptable types: an instance passes, [None] passes only when
    [optional], and [TypeError] is raised otherwise. *)
Definition check_type {A : Type} (obj : option A) (optional : bool) : result unit :=
  match obj with
  | Some _ => Ok tt
  | None => if optional then Ok tt else Raise TypeError
  end.

(** [normalize_to_set]. *)
Definition normalize_to_set {K : Type} `{Countable K} (value : arg K) : gset K :=
  match value with
  | ArgNone => ∅
  | ArgOne v => {[ v ]}
  | ArgMany vs => list_to_set vs
  end.

(** Python's [a or b] on sets: an empty set is falsy. *)
Definition set_or {K : Type} `{Countable K} (a b : gset K) : gset K :=
  if bool_decide (a = ∅) then b else a.

(** [validate_values]: [ValueError] unless [values] is a subset of
    [valid_values]. *)
Definition validate_values {K : Type} `{Countable K}
    (values valid_values : gset K) : result unit :=
  if bool_decide (values ⊆ valid_values) then Ok tt else Raise ValueError.

(** [supernets]: the generator yields
    [subnet.supernet(new_prefix=prefix_length)] for [prefix_length] in
    [range(subnet.prefixlen, 0, -1)].  The list holds the prefix lengths
    in the order the generator visits them; each consumer computes the
    supernet when it asks for the next element. *)
Definition supernets (subnet : IPNetwork) : list Z :=
  builtins.range_down_to_1 (prefixlen subnet).

End utils.

Export utils.

(* ================================================================== *)
(** * [awsipranges/models/awsipprefix.py] *)
(* ================================================================== *)

Module awsipprefix.

(** An [AWSIPv4Prefix] or [AWSIPv6Prefix] object.  Its class follows
    the version of [prefix]: the two constructors below refuse a
    network of the other version. *)
Record AWSIPPrefix : Set := mkPrefix {
  prefix : IPNetwork;
  region : string;
  network_border_group : string;
  services : list string
}.

#[global] Instance AWSIPPrefix_eq_dec : EqDecision AWSIPPrefix.
Proof. solve_decision. Defined.

(** The [services] argument of the constructor: a string, a tuple of
    strings, or some other iterable of strings (a list, a set). *)
Inductive services_arg : Set :=
| ServicesStr (s : string)
| ServicesTuple (t : list string)
| ServicesOther (l : list string).

(** [AWSIPPrefix.__init__] on a network object.
    [check_type("services", services, (str, tuple))] rejects every other
    iterable. *)
Definition AWSIPPrefix_init (prefix : IPNetwork) (region network_border_group : string)
    (services : services_arg) : result AWSIPPrefix :=
  match services with
  | ServicesStr s => Ok (mkPrefix prefix region network_border_group [s])
  | ServicesTuple t =>
      Ok (mkPrefix prefix region network_border_group
            (builtins.sorted builtins.str_lt t))
  | ServicesOther _ => Raise TypeError
  end.

(** The constructor of the class for version [cls]:
    [AWSIPv4Prefix(...)] or [AWSIPv6Prefix(...)], which ends with
    [check_type("prefix", self._prefix, IPv4Network)] (or
    [IPv6Network]). *)
Definition new_prefix (cls : IPVersion) (prefix : IPNetwork)
    (region network_border_group : string) (services : services_arg)
    : result AWSIPPrefix :=
  p ← AWSIPPrefix_init prefix region network_border_group services;
  if bool_decide (version prefix = cls) then Ok p else Raise TypeError.

Definition AWSIPv4Prefix := new_prefix IPv4.
Definition AWSIPv6Prefix := new_prefix IPv6.

(** [AWSIPPrefix.__eq__] against another record: equality of the tuples
    [(prefix, region, network_border_group, services)]. *)
Definition __eq__ (self other : AWSIPPrefix) : bool :=
  network_eq (prefix self) (prefix other)
  && bool_decide (region self = region other)
  && bool_decide (network_border_group self = network_border_group other)
  && bool_decide (services self = services other).

(** [AWSIPPrefix.__lt__] against a network object. *)
Definition lt_network (self : AWSIPPrefix) (other : IPNetwork) : result bool :=
  if negb (network_eq (prefix self) other) then network_lt (prefix self) other
  else Ok false.

(** [AWSIPPrefix.__lt__] against another record. *)
Definition __lt__ (self other : AWSIPPrefix) : bool :=
  if bool_decide (version_number (version (prefix self))
                  <> version_number (version (prefix other)))
  then version_number (version (prefix self))
       <? version_number (version (prefix other))
  else if bool_decide (network_address (prefix self)
                       <> network_address (prefix other))
  then network_address (prefix self) <? network_address (prefix other)
  else if bool_decide (prefixlen (prefix self) <> prefixlen (prefix other))
  then prefixlen (prefix self) <? prefixlen (prefix other)
  else if bool_decide (region self <> region other)
  then builtins.str_lt (region self) (region other)
  else if bool_decide (network_border_group self <> network_border_group other)
  then builtins.str_lt (network_border_group self) (network_border_group other)
  else if bool_decide (services self <> services other)
  then builtins.tuple_lt (services self) (services other)
  else false.

(** [AWSIPPrefix.__contains__] on a network (an address, interface or
    string is first turned into a network with [strict=False]). *)
Definition __contains__ (self : AWSIPPrefix) (item_network : IPNetwork) : result bool :=
  if bool_decide (version item_network <> version (prefix self)) then Ok false
  else subnet_of item_network (prefix self).

(** The comparison inside [combine_prefixes]:
    [(prefix, region, network_border_group)] of both records are equal. *)
Definition same_block (p first : AWSIPPrefix) : bool :=
  network_eq (prefix p) (prefix first)
  && bool_decide (region p = region first)
  && bool_decide (network_border_group p = network_border_group first).

(** [combine_prefixes]. *)
Definition combine_prefixes (prefixes : list AWSIPPrefix) : result AWSIPPrefix :=
  if bool_decide (1 < length prefixes)%nat then
    match prefixes with
    | [] => Raise AssertionError
    | first :: rest =>
        (* check_type("prefixes", prefix, type(first)) for prefix in prefixes[1:] *)
        if forallb (fun p => bool_decide (version (prefix p) = version (prefix first))) rest
        then
          if forallb (fun p => same_block p first) rest then
            let services : gset string :=
              list_to_set (concat (services <$> prefixes)) in
            let services := builtins.sorted builtins.str_lt (elements services) in
            new_prefix (version (prefix first)) (prefix first) (region first)
              (network_border_group first) (ServicesTuple services)
          else Raise ValueError
        else Raise TypeError
    end
  else Raise AssertionError.

(** The comparisons [functools.total_ordering] derives for the class
    from [__lt__] and [__eq__], against another record:
    [not (self < other) and self != other], [self < other or self == other]
    and [not (self < other)]. *)
Definition __gt__ (self other : AWSIPPrefix) : bool :=
  negb (__lt__ self other) && negb (__eq__ self other).

Definition __le__ (self other : AWSIPPrefix) : bool :=
  __lt__ self other || __eq__ self other.

Definition __ge__ (self other : AWSIPPrefix) : bool :=
  negb (__lt__ self other).

End awsipprefix.

Export awsipprefix.

(* ================================================================== *)
(** * [awsipranges/models/awsipprefixes.py] *)
(* ================================================================== *)

Module awsipprefixes.

(** A [datetime] in UTC, as seconds since the epoch. *)
Definition datetime : Set := Z.

(** An [AWSIPPrefixes] object. *)
Record AWSIPPrefixes : Set := mkPrefixes {
  sync_token : option string;
  create_date : option datetime;
  ipv4_prefixes : list AWSIPPrefix;
  ipv6_prefixes : list AWSIPPrefix;
  md5 : option string
}.

(** [collect_duplicates[key].append(p)] on a [defaultdict(list)]: the
    dictionary keeps its keys in insertion order and finds a key with
    the networks' [__eq__]. *)
Fixpoint dict_append (key : IPNetwork) (p : AWSIPPrefix)
    (d : list (IPNetwork * list AWSIPPrefix)) : list (IPNetwork * list AWSIPPrefix) :=
  match d with
  | [] => [(key, [p])]
  | (k, ps) :: d' =>
      if network_eq k key then (k, ps ++ [p]) :: d'
      else (k, ps) :: dict_append key p d'
  end.

(** The first loop of [_process_prefixes]. *)
Definition collect_duplicates (prefixes : list AWSIPPrefix)
    : list (IPNetwork * list AWSIPPrefix) :=
  fold_left (fun d p => dict_append (prefix p) p d) prefixes [].

(** The body of the second loop of [_process_prefixes]. *)
Definition deduplicate (prefixes : list AWSIPPrefix) : result AWSIPPrefix :=
  match prefixes with
  | [p] => Ok p
  | _ => combine_prefixes prefixes
  end.

(** [AWSIPPrefixes._process_prefixes]. *)
Definition _process_prefixes (prefixes : list AWSIPPrefix) : result (list AWSIPPrefix) :=
  deduplicated_prefixes ← mapM deduplicate (snd <$> collect_duplicates prefixes);
  Ok (builtins.sorted __lt__ deduplicated_prefixes).

(** What [for prefix in prefixes] iterates over: [None] is not
    iterable. *)
Definition iterate (prefixes : option (list AWSIPPrefix)) : result (list AWSIPPrefix) :=
  match prefixes with
  | Some l => Ok l
  | None => Raise TypeError
  end.

(** [AWSIPPrefixes.__init__].  Every parameter defaults to [None]; an
    argument is [None] or a value of the declared type ([ipv4_prefixes]
    and [ipv6_prefixes]: an iterable of records). *)
Definition __init__ (sync_token : option string) (create_date : option datetime)
    (ipv4_prefixes ipv6_prefixes : option (list AWSIPPrefix)) (md5 : option string)
    : result AWSIPPrefixes :=
  _ ← check_type sync_token true;
  _ ← check_type create_date true;
  _ ← check_type ipv4_prefixes false;
  _ ← check_type ipv6_prefixes false;
  _ ← check_type md5 true;
  v4 ← (prefixes ← iterate ipv4_prefixes; _process_prefixes prefixes);
  v6 ← (prefixes ← iterate ipv6_prefixes; _process_prefixes prefixes);
  Ok (mkPrefixes sync_token create_date v4 v6 md5).

(** [AWSIPPrefixes._get_prefix] on a network object. *)
Definition _get_prefix (self : AWSIPPrefixes) (prefix : IPNetwork)
    : result (option AWSIPPrefix) :=
  let prefixes_collection :=
    match version prefix with
    | IPv4 => ipv4_prefixes self
    | IPv6 => ipv6_prefixes self
    end in
  index ← bisect.bisect_left lt_network prefixes_collection prefix;
  if bool_decide (index <> length prefixes_collection) then
    match prefixes_collection !! index with
    | None => Raise IndexError
    | Some found =>
        if network_eq (awsipprefix.prefix found) prefix then Ok (Some found)
        else Ok None
    end
  else Ok None.

(** What [__getitem__], [get] and [get_prefix_and_supernets] accept: an
    address, an interface, a network or a prefix record.  (A string is
    parsed by [ipaddress] into one of the first three.) *)
Inductive item : Set :=
| ItemAddress (v : IPVersion) (ip : Z)
| ItemInterface (v : IPVersion) (ip : Z) (plen : Z)
| ItemNetwork (n : IPNetwork)
| ItemPrefix (p : AWSIPPrefix).

(** The network both lookups start from: [item.prefix] for a record,
    [ip_network(item, strict=False)] otherwise. *)
Definition item_network (i : item) : IPNetwork :=
  match i with
  | ItemAddress v ip => ip_network_of_address v ip
  | ItemInterface v ip plen => ip_network_nonstrict v ip plen
  | ItemNetwork n => n
  | ItemPrefix p => prefix p
  end.

(** The [for supernet in supernets(network)] loop of [__getitem__]. *)
Fixpoint getitem_loop (self : AWSIPPrefixes) (network : IPNetwork)
    (prefix_lengths : list Z) : result AWSIPPrefix :=
  match prefix_lengths with
  | [] => Raise KeyError
  | prefix_length :: rest =>
      supernet ← supernet network prefix_length;
      supernet_prefix ← _get_prefix self supernet;
      match supernet_prefix with
      | Some p => Ok p
      | None => getitem_loop self network rest
      end
  end.

(** [AWSIPPrefixes.__getitem__]. *)
Definition __getitem__ (self : AWSIPPrefixes) (i : item) : result AWSIPPrefix :=
  let network := item_network i in
  getitem_loop self network (supernets network).

(** [AWSIPPrefixes.get]; the [default] argument is [None] when the
    caller leaves it out. *)
Definition get {D : Type} (self : AWSIPPrefixes) (key : item) (default : option D)
    : result (AWSIPPrefix + option D) :=
  match __getitem__ self key with
  | Ok p => Ok (inl p)
  | Raise KeyError => Ok (inr default)
  | Raise e => Raise e
  end.

(** [AWSIPPrefixes.__contains__]. *)
Definition __contains__ (self : AWSIPPrefixes) (i : item) : result bool :=
  match __getitem__ self i with
  | Ok _ => Ok true
  | Raise KeyError => Ok false
  | Raise e => Raise e
  end.

(** The [for supernet in supernets(network)] loop of
    [get_prefix_and_supernets]; [prefixes] is the list built so far. *)
Fixpoint collect_loop (self : AWSIPPrefixes) (network : IPNetwork)
    (prefix_lengths : list Z) (prefixes : list AWSIPPrefix) : result (list AWSIPPrefix) :=
  match prefix_lengths with
  | [] => Ok prefixes
  | prefix_length :: rest =>
      supernet ← supernet network prefix_length;
      found ← _get_prefix self supernet;
      collect_loop self network rest
        (match found with
         | Some p => prefixes ++ [p]
         | None => prefixes
         end)
  end.

(** [AWSIPPrefixes.get_prefix_and_supernets]; the [default] argument is
    [None] when the caller leaves it out. *)
Definition get_prefix_and_supernets {D : Type} (self : AWSIPPrefixes) (key : item)
    (default : option D) : result (list AWSIPPrefix + option D) :=
  let network := item_network key in
  prefixes ← collect_loop self network (supernets network) [];
  if bool_decide (prefixes <> []) then Ok (inl (builtins.sorted __lt__ prefixes))
  else Ok (inr default).

(** [AWSIPPrefixes.__iter__]. *)
Definition __iter__ (self : AWSIPPrefixes) : list AWSIPPrefix :=
  ipv4_prefixes self ++ ipv6_prefixes self.

(** [AWSIPPrefixes.__len__]. *)
Definition __len__ (self : AWSIPPrefixes) : nat :=
  (length (ipv4_prefixes self) + length (ipv6_prefixes self))%nat.

(** The [regions], [network_border_groups] and [services] properties. *)
Definition regions (self : AWSIPPrefixes) : gset string :=
  list_to_set (region <$> __iter__ self).

Definition network_border_groups (self : AWSIPPrefixes) : gset string :=
  list_to_set (network_border_group <$> __iter__ self).

Definition services (self : AWSIPPrefixes) : gset string :=
  list_to_set (concat (awsipprefix.services <$> __iter__ self)).

(** The three [if] clauses of the generator expressions in [filter]. *)
Definition selected (regions network_border_groups services : gset string)
    (p : AWSIPPrefix) : bool :=
  bool_decide (region p ∈ regions)
  && bool_decide (network_border_group p ∈ network_border_groups)
  && bool_decide (list_to_set (awsipprefix.services p) ∩ services <> ∅).

(** [AWSIPPrefixes.filter]. *)
Definition filter (self : AWSIPPrefixes)
    (regions_arg network_border_groups_arg services_arg : arg string)
    (versions_arg : arg Z) : result AWSIPPrefixes :=
  let regions := set_or (normalize_to_set regions_arg) (regions self) in
  _ ← validate_values regions (awsipprefixes.regions self);
  let network_border_groups :=
    set_or (normalize_to_set network_border_groups_arg) (network_border_groups self) in
  _ ← validate_values network_border_groups (awsipprefixes.network_border_groups self);
  let services := set_or (normalize_to_set services_arg) (services self) in
  _ ← validate_values services (awsipprefixes.services self);
  let versions := set_or (normalize_to_set versions_arg) {[ 4; 6 ]} in
  _ ← validate_values versions {[ 4; 6 ]};
  __init__ (sync_token self) (create_date self)
    (Some (if bool_decide (4 ∉ versions) then []
           else List.filter (selected regions network_border_groups services)
                  (ipv4_prefixes self)))
    (Some (if bool_decide (6 ∉ versions) then []
           else List.filter (selected regions network_border_groups services)
                  (ipv6_prefixes self)))
    None.

End awsipprefixes.

Export awsipprefixes.

(* ================================================================== *)
(** * Vocabulary of the properties *)
(* ================================================================== *)

(** [a <= b] as a sort that only asks [<] sees it: [not (b < a)]. *)
Definition not_gt {A : Type} (lt : A -> A -> bool) (a b : A) : Prop :=
  lt b a = false.

(** Every element is strictly below all later ones. *)
Definition ascending {A : Type} (lt : A -> A -> bool) (l : list A) : Prop :=
  StronglySorted (fun a b => lt a b = true) l.

(** What the networks' [__eq__] and [__hash__] look at. *)
Definition network_key (n : IPNetwork) : IPVersion * Z * Z :=
  (version n, network_address n, netmask n).

(** The network key of a record. *)
Definition prefix_key (p : AWSIPPrefix) : IPVersion * Z * Z :=
  network_key (prefix p).

(** A record of class [cls] as the constructors build it: its network
    has that version and is a well-formed network object. *)
Definition record_ok (cls : IPVersion) (p : AWSIPPrefix) : bool :=
  bool_decide (version (prefix p) = cls) && network_ok (prefix p).

(** A collection: what [AWSIPPrefixes(...)] returns when it is given
    IPv4 records for [ipv4_prefixes] and IPv6 records for
    [ipv6_prefixes]. *)
Definition collection (c : AWSIPPrefixes) : Prop :=
  exists sync_token create_date v4 v6 md5,
    forallb (record_ok IPv4) v4 = true /\
    forallb (record_ok IPv6) v6 = true /\
    __init__ sync_token create_date (Some v4) (Some v6) md5 = Ok c.

(** The sequence [_get_prefix] searches for a network of version [v]. *)
Definition sequence_of (c : AWSIPPrefixes) (v : IPVersion) : list AWSIPPrefix :=
  match v with IPv4 => ipv4_prefixes c | IPv6 => ipv6_prefixes c end.

(** The keys of the dictionary [_process_prefixes] builds. *)
Definition dict_keys (d : list (IPNetwork * list AWSIPPrefix)) : list (IPVersion * Z * Z) :=
  (fun kps => network_key (fst kps)) <$> d.

(** A group of that dictionary, built from records of [l]: it is not
    empty and every record in it has the group's key. *)
Definition group_ok (l : list AWSIPPrefix) (kps : IPNetwork * list AWSIPPrefix) : Prop :=
  snd kps <> [] /\
  Forall (fun p => prefix_key p = network_key (fst kps) /\ p ∈ l) (snd kps).

(** The invariant of a stored sequence: strictly ascending in the
    records' order, and no two records with the same network key. *)
Definition sequence_inv (l : list AWSIPPrefix) : Prop :=
  ascending __lt__ l /\ NoDup (prefix_key <$> l).

(** The set a parameter of [filter] stands for: its values, or all of
    [observed] when it is left out or empty. *)
Definition requested {K : Type} `{Countable K} (value : arg K) (observed : gset K)
    : gset K :=
  set_or (normalize_to_set value) observed.

(** [a] comes before [b] in the records' order and has the shorter
    prefix. *)
Definition shorter_before (a b : AWSIPPrefix) : Prop :=
  __lt__ a b = true /\ prefixlen (prefix a) < prefixlen (prefix b).

(** The records the exact lookup returns along the prefix lengths
    [prefix_lengths], in the order of the walk. *)
Fixpoint walk_hits (c : AWSIPPrefixes) (network : IPNetwork)
    (prefix_lengths : list Z) : result (list AWSIPPrefix) :=
  match prefix_lengths with
  | [] => Ok []
  | prefix_length :: rest =>
      supernet ← supernet network prefix_length;
      found ← _get_prefix c supernet;
      hits ← walk_hits c network rest;
      Ok (match found with
          | Some p => p :: hits
          | None => hits
          end)
  end.

(** The order of well-formed networks of one version: by network
    address, then by prefix length. *)
Definition network_before (a b : IPNetwork) : bool :=
  (network_address a <? network_address b)
  || ((network_address a =? network_address b) && (prefixlen a <? prefixlen b)).

(** The records of [l] whose network is [==] to [k], in the order of
    [l]. *)
Definition group_of (l : list AWSIPPrefix) (k : IPNetwork) : list AWSIPPrefix :=
  List.filter (fun p => network_eq k (prefix p)) l.

(** Two records of [l] share a network key and differ in region or in
    network border group. *)
Definition conflicting (l : list AWSIPPrefix) : Prop :=
  exists p q, p ∈ l /\ q ∈ l /\ prefix_key p = prefix_key q
              /\ (region p <> region q
                  \/ network_border_group p <> network_border_group q).

(** [p] has the region and the border group of [first]. *)
Definition same_origin (first p : AWSIPPrefix) : bool :=
  bool_decide (region p = region first)
  && bool_decide (network_border_group p = network_border_group first).

(** The record [deduplicate] builds from a group that starts with
    [first]: [first] itself when it is alone, else the record with the
    services of the whole group. *)
Definition merged (first : AWSIPPrefix) (rest : list AWSIPPrefix) : AWSIPPrefix :=
  match rest with
  | [] => first
  | _ =>
      mkPrefix (prefix first) (region first) (network_border_group first)
        (builtins.sorted builtins.str_lt
           (elements
              (list_to_set (concat (awsipprefix.services <$> first :: rest))
               : gset string)))
  end.

(** [out] holds the records of [l] merged by network: every network key
    of [l] has its record in [out], with the region and border group of
    the records of [l]; every record of [out] carries the network of a
    record of [l] and exactly the services of the records of [l] with
    its network key. *)
Definition merges (l out : list AWSIPPrefix) : Prop :=
  (forall p, p ∈ l ->
     exists r, r ∈ out /\ prefix_key r = prefix_key p
               /\ region r = region p
               /\ network_border_group r = network_border_group p)
  /\
  (forall r, r ∈ out ->
     (exists p, p ∈ l /\ prefix r = prefix p)
     /\ forall s, s ∈ awsipprefix.services r <->
                  exists p, p ∈ l /\ prefix_key p = prefix_key r
                            /\ s ∈ awsipprefix.services p).

(** A query item as [ipaddress] builds it. *)
Definition item_ok (i : item) : bool :=
  match i with
  | ItemAddress v ip => (0 <=? ip) && (ip <=? ALL_ONES v)
  | ItemInterface v ip plen =>
      (0 <=? ip) && (ip <=? ALL_ONES v) && (0 <=? plen) && (plen <=? max_prefixlen v)
  | ItemNetwork n => network_ok n
  | ItemPrefix p => network_ok (prefix p)
  end.

(** The supernet of [n] of prefix length [q], written with the netmask
    of [q]. *)
Definition supernet_at (n : IPNetwork) (q : Z) : IPNetwork :=
  mkNetwork (version n)
    (Z.land (network_address n) (ip_int_from_prefix (version n) q)) q.

(** [p] is a record of [c] that the walks over the supernets of [n] can
    meet: it is stored in [c], its prefix length is at least 1, and
    [n in p] holds for the records' own [__contains__]. *)
Definition reachable (c : AWSIPPrefixes) (n : IPNetwork) (p : AWSIPPrefix) : Prop :=
  p ∈ __iter__ c /\ 1 <= prefixlen (prefix p)
  /\ awsipprefix.__contains__ p n = Ok true.

(** The collection [filter] hands to the constructor once its four
    parameters have passed [validate_values]. *)
Definition filtered (c : AWSIPPrefixes) (r n s : arg string) (v : arg Z)
    : AWSIPPrefixes :=
  let sel := selected (requested r (regions c))
               (requested n (network_border_groups c))
               (requested s (services c)) in
  mkPrefixes (sync_token c) (create_date c)
    (if bool_decide (4 ∉ requested v {[ 4; 6 ]}) then []
     else List.filter sel (ipv4_prefixes c))
    (if bool_decide (6 ∉ requested v {[ 4; 6 ]}) then []
     else List.filter sel (ipv6_prefixes c))
    None.

(** The four checks of [filter]. *)
Definition filter_accepts (c : AWSIPPrefixes) (r n s : arg string) (v : arg Z) : Prop :=
  requested r (regions c) ⊆ regions c
  /\ requested n (network_border_groups c) ⊆ network_border_groups c
  /\ requested s (services c) ⊆ services c
  /\ requested v {[ 4; 6 ]} ⊆ ({[ 4; 6 ]} : gset Z).

(* ================================================================== *)
(** * A small feed, used to run the definitions *)
(* ================================================================== *)

(** The integer of the dotted quad [a.b.c.d]. *)
Definition ip4 (a b c d : Z) : Z := ((a * 256 + b) * 256 + c) * 256 + d.

(** 10.0.0.0/8, 10.0.0.0/16, 3.5.140.0/22, 0.0.0.0/0 and
    2a05:d070:e000::/40. *)
Definition net_10_8 : IPNetwork := mkNetwork IPv4 (ip4 10 0 0 0) 8.
Definition net_10_16 : IPNetwork := mkNetwork IPv4 (ip4 10 0 0 0) 16.
Definition net_3_5_140_22 : IPNetwork := mkNetwork IPv4 (ip4 3 5 140 0) 22.
Definition net_default : IPNetwork := mkNetwork IPv4 0 0.
Definition net6_2a05 : IPNetwork := mkNetwork IPv6 (Z.shiftl 0x2a05d070e000 80) 40.

Definition rec_10_8 : AWSIPPrefix := mkPrefix net_10_8 "R1" "G1" ["AMAZON"].
Definition rec_10_16 : AWSIPPrefix := mkPrefix net_10_16 "R1" "G1" ["EC2"].
Definition rec_3_5_ec2 : AWSIPPrefix :=
  mkPrefix net_3_5_140_22 "ap-northeast-2" "ap-northeast-2" ["EC2"].
Definition rec_3_5_s3 : AWSIPPrefix :=
  mkPrefix net_3_5_140_22 "ap-northeast-2" "ap-northeast-2" ["S3"].
Definition rec_3_5 : AWSIPPrefix :=
  mkPrefix net_3_5_140_22 "ap-northeast-2" "ap-northeast-2" ["EC2"; "S3"].
Definition rec_default : AWSIPPrefix := mkPrefix net_default "GLOBAL" "GLOBAL" ["AMAZON"].
Definition rec6_2a05 : AWSIPPrefix :=
  mkPrefix net6_2a05 "me-south-1" "me-south-1" ["AMAZON"; "EC2"].

Definition feed_v4 : list AWSIPPrefix := [rec_10_16; rec_3_5_ec2; rec_10_8; rec_3_5_s3].
Definition feed_v6 : list AWSIPPrefix := [rec6_2a05].
Definition feed_md5 : string := "0f343b0931126a20f133d67c2b018a3b".

(** The collection [AWSIPPrefixes("1604000000", ..., feed_v4, feed_v6,
    feed_md5)] builds. *)
Definition example_collection : AWSIPPrefixes :=
  mkPrefixes (Some "1604000000") (Some 1604000000)
    [rec_3_5; rec_10_8; rec_10_16] [rec6_2a05] (Some feed_md5).

(** What [example_collection.filter()] returns. *)
Definition example_filtered : AWSIPPrefixes :=
  mkPrefixes (Some "1604000000") (Some 1604000000)
    [rec_3_5; rec_10_8; rec_10_16] [rec6_2a05] None.

(** A collection with IPv4 records only, and what its
    [filter(versions=6)] returns. *)
Definition ipv4_only_collection : AWSIPPrefixes :=
  mkPrefixes (Some "1604000000") (Some 1604000000) [rec_10_8; rec_10_16] [] None.

Definition ipv4_only_filtered : AWSIPPrefixes :=
  mkPrefixes (Some "1604000000") (Some 1604000000) [] [] None.

(** A collection that stores 0.0.0.0/0. *)
Definition default_route_collection : AWSIPPrefixes :=
  mkPrefixes None None [rec_default; rec_10_8] [] None.

(** Runs the constructor on the records given. *)
Ltac built_from st cd v4 v6 h :=
  exists st, cd, v4, v6, h; repeat split; vm_compute; reflexivity.

(** Decides a closed proposition about the small feed by evaluation. *)
Ltac by_evaluation :=
  match goal with
  | |- ?P => apply (bool_decide_unpack P); vm_compute; exact I
  end.

(* ================================================================== *)
(** * Lemmas: the orders *)
(* ================================================================== *)

Section orders.

Import builtins.

Lemma ascii_compare_refl (a : Ascii.ascii) : Ascii.compare a a = Eq.
Proof. unfold Ascii.compare. apply N.compare_refl. Qed.

Lemma ascii_compare_lt_trans (a b c : Ascii.ascii) :
  Ascii.compare a b = Lt -> Ascii.compare b c = Lt -> Ascii.compare a c = Lt.
Proof. unfold Ascii.compare. rewrite !N.compare_lt_iff. lia. Qed.

Lemma string_compare_refl (s : string) : String.compare s s = Eq.
Proof.
  induction s as [|a s IH]; simpl; [reflexivity|].
  now rewrite ascii_compare_refl.
Qed.

Lemma string_compare_lt_trans (a b c : string) :
  String.compare a b = Lt -> String.compare b c = Lt -> String.compare a c = Lt.
Proof.
  revert b c.
  induction a as [|x a IH]; intros [|y b] [|z c]; simpl; try congruence.
  destruct (Ascii.compare x y) eqn:Exy; try congruence;
    destruct (Ascii.compare y z) eqn:Eyz; try congruence; intros Hab Hbc.
  - apply Ascii.compare_eq_iff in Exy, Eyz. subst.
    rewrite ascii_compare_refl. eauto.
  - apply Ascii.compare_eq_iff in Exy. subst. now rewrite Eyz.
  - apply Ascii.compare_eq_iff in Eyz. subst. now rewrite Exy.
  - now rewrite (ascii_compare_lt_trans x y z).
Qed.

#[global] Instance Z_ltb_strict : StrictB Z.ltb.
Proof. split; intros; lia. Qed.

#[global] Instance Z_ltb_total : TotalB Z.ltb.
Proof. intros x y; lia. Qed.

#[global] Instance str_lt_strict : StrictB str_lt.
Proof.
  split; unfold str_lt, String.ltb.
  - intros x. now rewrite string_compare_refl.
  - intros x y z.
    destruct (String.compare x y) eqn:Exy; try discriminate.
    destruct (String.compare y z) eqn:Eyz; try discriminate.
    now rewrite (string_compare_lt_trans x y z).
Qed.

#[global] Instance str_lt_total : TotalB str_lt.
Proof.
  intros x y. unfold str_lt, String.ltb.
  rewrite (String.compare_antisym y x).
  destruct (String.compare x y) eqn:E; simpl; try discriminate.
  intros _ _. now apply String.compare_eq_iff.
Qed.

Lemma ltb_asym {A : Type} (lt : A -> A -> bool) `{!StrictB lt} (x y : A) :
  lt x y = true -> lt y x = false.
Proof.
  intros Hxy. destruct (lt y x) eqn:Hyx; [|reflexivity].
  pose proof (ltb_trans x y x Hxy Hyx) as H.
  rewrite ltb_irrefl in H. discriminate.
Qed.

#[global] Instance tuple_lt_strict : StrictB tuple_lt.
Proof.
  split.
  - intros x. induction x as [|a x IH]; simpl; [reflexivity|].
    now rewrite bool_decide_eq_true_2.
  - intros x. induction x as [|a x IH]; intros [|b y] [|c z]; simpl; try congruence.
    repeat case_bool_decide; subst; try congruence; eauto.
    + intros H1 H2. rewrite (ltb_asym str_lt _ _ H1) in H2. discriminate.
    + apply ltb_trans.
Qed.

#[global] Instance tuple_lt_total : TotalB tuple_lt.
Proof.
  intros x. induction x as [|a x IH]; intros [|b y]; simpl; try congruence.
  case_bool_decide as E1; case_bool_decide as E2; subst; try congruence.
  - intros H1 H2. f_equal. eauto.
  - intros H1 H2. destruct E1. now apply (ltb_total (lt := str_lt)).
Qed.

(** A cascade over a strict total key order is a strict order as soon
    as the rest is. *)
Lemma cascade_strict {A K : Type} `{EqDecision K} (f : A -> K)
    (ltK : K -> K -> bool) (rest : A -> A -> bool)
    `{!StrictB ltK, !StrictB rest} : StrictB (cascade f ltK rest).
Proof.
  split; unfold cascade.
  - intros x. rewrite bool_decide_eq_false_2 by (intros H'; now apply H').
    apply ltb_irrefl.
  - intros x y z.
    destruct (decide (f x = f y)) as [Exy|Exy];
      destruct (decide (f y = f z)) as [Eyz|Eyz].
    + rewrite !bool_decide_eq_false_2 by (intros Hne; apply Hne; congruence).
      apply ltb_trans.
    + rewrite (bool_decide_eq_false_2 (f x <> f y)) by (intros Hne; now apply Hne).
      rewrite !bool_decide_eq_true_2 by congruence.
      intros _. now rewrite Exy.
    + rewrite (bool_decide_eq_false_2 (f y <> f z)) by (intros Hne; now apply Hne).
      rewrite !bool_decide_eq_true_2 by congruence.
      intros Hxy _. now rewrite <- Eyz.
    + rewrite (bool_decide_eq_true_2 (f x <> f y)) by assumption.
      rewrite (bool_decide_eq_true_2 (f y <> f z)) by assumption.
      intros Hxy Hyz. case_bool_decide as Exz.
      * now apply (ltb_trans _ (f y)).
      * assert (f x = f z) as E by (destruct (decide (f x = f z)); tauto).
        rewrite <- E in Hyz.
        rewrite (ltb_asym ltK _ _ Hxy) in Hyz. discriminate.
Qed.

#[global] Instance never_lt_strict {A : Type} : StrictB (fun _ _ : A => false).
Proof. split; intros; congruence. Qed.

Lemma lt_as_cascade :
  __lt__ =
  cascade (fun p => version_number (version (prefix p))) Z.ltb
    (cascade (fun p => network_address (prefix p)) Z.ltb
       (cascade (fun p => prefixlen (prefix p)) Z.ltb
          (cascade region str_lt
             (cascade network_border_group str_lt
                (cascade awsipprefix.services tuple_lt (fun _ _ => false)))))).
Proof. reflexivity. Qed.

#[global] Instance prefix_lt_strict : StrictB __lt__.
Proof. rewrite lt_as_cascade. repeat apply cascade_strict; apply _. Qed.

#[global] Instance prefix_lt_total : TotalB __lt__.
Proof.
  intros [[v a l] r g s] [[v' a' l'] r' g' s']. unfold __lt__. simpl.
  intros Hxy Hyx.
  destruct (decide (v = v')) as [->|Hv].
  2:{ destruct v, v'; try congruence;
        rewrite !bool_decide_eq_true_2 in Hxy, Hyx by (simpl; lia);
        simpl in Hxy, Hyx; lia. }
  rewrite !bool_decide_eq_false_2 in Hxy, Hyx by (intros Hne; now apply Hne).
  destruct (decide (a = a')) as [->|Ha].
  2:{ rewrite !bool_decide_eq_true_2 in Hxy, Hyx by congruence. lia. }
  rewrite !bool_decide_eq_false_2 in Hxy, Hyx by (intros Hne; now apply Hne).
  destruct (decide (l = l')) as [->|Hl].
  2:{ rewrite !bool_decide_eq_true_2 in Hxy, Hyx by congruence. lia. }
  rewrite !bool_decide_eq_false_2 in Hxy, Hyx by (intros Hne; now apply Hne).
  destruct (decide (r = r')) as [->|Hr].
  2:{ rewrite !bool_decide_eq_true_2 in Hxy, Hyx by congruence.
      destruct Hr. now apply (ltb_total (lt := str_lt)). }
  rewrite !bool_decide_eq_false_2 in Hxy, Hyx by (intros Hne; now apply Hne).
  destruct (decide (g = g')) as [->|Hg].
  2:{ rewrite !bool_decide_eq_true_2 in Hxy, Hyx by congruence.
      destruct Hg. now apply (ltb_total (lt := str_lt)). }
  rewrite !bool_decide_eq_false_2 in Hxy, Hyx by (intros Hne; now apply Hne).
  destruct (decide (s = s')) as [->|Hs]; [reflexivity|].
  rewrite !bool_decide_eq_true_2 in Hxy, Hyx by congruence.
  destruct Hs. now apply (ltb_total (lt := tuple_lt)).
Qed.

End orders.

(* ================================================================== *)
(** * Lemmas: sorting *)
(* ================================================================== *)

Section sorting.

Import builtins.

Context {A : Type} (lt : A -> A -> bool).

Lemma insort_Permutation (x : A) (l : list A) : insort lt x l ≡ₚ x :: l.
Proof.
  induction l as [|y l IH]; simpl; [reflexivity|].
  destruct (lt y x); [|reflexivity].
  rewrite IH. apply perm_swap.
Qed.

Lemma sorted_Permutation (l : list A) : sorted lt l ≡ₚ l.
Proof.
  induction l as [|x l IH]; simpl; [reflexivity|].
  fold (sorted lt l). rewrite insort_Permutation. now rewrite IH.
Qed.

Lemma insort_Sorted `{!StrictB lt} (x : A) (l : list A) :
  Sorted (not_gt lt) l -> Sorted (not_gt lt) (insort lt x l).
Proof.
  induction l as [|y l IH]; simpl; intros Hs.
  - repeat constructor.
  - destruct (lt y x) eqn:Hyx.
    + apply Sorted_inv in Hs as [Hs Hhd].
      constructor; [now apply IH|].
      destruct l as [|z l]; simpl.
      * constructor. unfold not_gt. now apply ltb_asym.
      * destruct (lt z x); constructor.
        -- now apply HdRel_inv in Hhd.
        -- unfold not_gt. now apply ltb_asym.
    + constructor; [assumption|]. now constructor.
Qed.

Lemma sorted_Sorted `{!StrictB lt} (l : list A) : Sorted (not_gt lt) (sorted lt l).
Proof.
  induction l as [|x l IH]; simpl; [constructor|].
  now apply insort_Sorted.
Qed.

(** Sorting a sorted list changes nothing. *)
Lemma sorted_fixpoint (l : list A) : Sorted (not_gt lt) l -> sorted lt l = l.
Proof.
  induction l as [|x l IH]; simpl; intros Hs; [reflexivity|].
  apply Sorted_inv in Hs as [Hs Hhd].
  fold (sorted lt l). rewrite IH by assumption.
  destruct l as [|y l]; simpl; [reflexivity|].
  apply HdRel_inv in Hhd. unfold not_gt in Hhd. now rewrite Hhd.
Qed.

Lemma sorted_idem `{!StrictB lt} (l : list A) :
  sorted lt (sorted lt l) = sorted lt l.
Proof. apply sorted_fixpoint. now apply sorted_Sorted. Qed.

Lemma insort_snoc (x : A) (l : list A) :
  Forall (fun y => lt y x = true) l -> insort lt x l = l ++ [x].
Proof.
  induction 1 as [|y l Hy _ IH]; simpl; [reflexivity|].
  now rewrite Hy, IH.
Qed.

(** Sorting a strictly descending list reverses it. *)
Lemma sorted_descending (l : list A) :
  StronglySorted (fun a b => lt b a = true) l -> sorted lt l = rev l.
Proof.
  induction 1 as [|x l _ IH Hx]; simpl; [reflexivity|].
  fold (sorted lt l). rewrite IH. apply insort_snoc.
  apply Forall_forall. intros y Hy.
  apply list_elem_of_In, in_rev, list_elem_of_In in Hy.
  rewrite Forall_forall in Hx. now apply Hx.
Qed.

Lemma not_gt_trans `{!StrictB lt, !TotalB lt} : Transitive (not_gt lt).
Proof.
  intros a b c Hab Hbc. unfold not_gt in *.
  destruct (lt c a) eqn:Hca; [|reflexivity].
  destruct (lt a b) eqn:Hlt.
  - rewrite (ltb_trans c a b Hca Hlt) in Hbc. discriminate.
  - assert (a = b) by now apply (ltb_total (lt := lt)). subst. congruence.
Qed.

(** A sorted list without repetitions is strictly ascending. *)
Lemma Sorted_NoDup_ascending `{!StrictB lt, !TotalB lt} (l : list A) :
  Sorted (not_gt lt) l -> NoDup l -> ascending lt l.
Proof.
  intros Hs Hnd. apply Sorted_StronglySorted in Hs; [|apply not_gt_trans].
  unfold ascending.
  induction Hs as [|x l Hs IH Hx]; [constructor|].
  apply NoDup_cons in Hnd as [Hnotin Hnd].
  constructor; [now apply IH|].
  apply Forall_forall. intros y Hy.
  rewrite Forall_forall in Hx. specialize (Hx y Hy). unfold not_gt in Hx.
  destruct (lt x y) eqn:Hxy; [reflexivity|].
  assert (x = y) by now apply (ltb_total (lt := lt)). subst. contradiction.
Qed.

Lemma ascending_Sorted `{!StrictB lt} (l : list A) :
  ascending lt l -> Sorted (not_gt lt) l.
Proof.
  intros Hs. apply StronglySorted_Sorted.
  eapply StronglySorted_ind with (P := StronglySorted (not_gt lt));
    [constructor| |exact Hs].
  intros a l' _ IH Ha. constructor; [assumption|].
  eapply Forall_impl; [exact Ha|]. intros y Hy. unfold not_gt. now apply ltb_asym.
Qed.

End sorting.

(* ================================================================== *)
(** * Lemmas: netmasks and supernets *)
(* ================================================================== *)

Section networks.

Lemma max_prefixlen_pos (v : IPVersion) : 0 < max_prefixlen v.
Proof. destruct v; simpl; lia. Qed.

Lemma ALL_ONES_ones (v : IPVersion) : ALL_ONES v = Z.ones (max_prefixlen v).
Proof. unfold ALL_ONES. rewrite Z.ones_equiv. lia. Qed.

Lemma testbit_ALL_ONES (v : IPVersion) (i : Z) :
  0 <= i -> Z.testbit (ALL_ONES v) i = (i <? max_prefixlen v).
Proof.
  intros Hi. rewrite ALL_ONES_ones.
  pose proof (max_prefixlen_pos v).
  destruct (Z.ltb_spec i (max_prefixlen v)).
  - apply Z.ones_spec_low. lia.
  - apply Z.ones_spec_high. lia.
Qed.

(** The netmask of prefix length [p] has exactly the top [p] bits of
    the address width set. *)
Lemma testbit_mask (v : IPVersion) (p i : Z) :
  0 <= p -> 0 <= i ->
  Z.testbit (ip_int_from_prefix v p) i
  = (max_prefixlen v - p <=? i) && (i <? max_prefixlen v).
Proof.
  intros Hp Hi. unfold ip_int_from_prefix.
  rewrite Z.lxor_spec, Z.shiftr_spec by lia.
  rewrite !testbit_ALL_ONES by lia.
  destruct (Z.ltb_spec i (max_prefixlen v)),
    (Z.ltb_spec (i + p) (max_prefixlen v)),
    (Z.leb_spec (max_prefixlen v - p) i); simpl; try reflexivity; lia.
Qed.

Lemma mask_nonneg (v : IPVersion) (p : Z) : 0 <= p -> 0 <= ip_int_from_prefix v p.
Proof.
  intros Hp. unfold ip_int_from_prefix. apply Z.lxor_nonneg.
  pose proof (max_prefixlen_pos v).
  assert (0 <= ALL_ONES v) by (unfold ALL_ONES; destruct v; simpl; lia).
  split; intros _; [now apply Z.shiftr_nonneg | assumption].
Qed.

Lemma mask_inj (v : IPVersion) (p q : Z) :
  0 <= p <= max_prefixlen v -> 0 <= q <= max_prefixlen v ->
  ip_int_from_prefix v p = ip_int_from_prefix v q -> p = q.
Proof.
  intros Hp Hq E.
  destruct (Z.lt_trichotomy p q) as [Hlt|[->|Hlt]]; [|reflexivity|]; exfalso.
  - pose proof (testbit_mask v p (max_prefixlen v - q) ltac:(lia) ltac:(lia)) as Bp.
    pose proof (testbit_mask v q (max_prefixlen v - q) ltac:(lia) ltac:(lia)) as Bq.
    rewrite E in Bp. rewrite Bp in Bq.
    destruct (Z.leb_spec (max_prefixlen v - p) (max_prefixlen v - q)),
      (Z.leb_spec (max_prefixlen v - q) (max_prefixlen v - q)),
      (Z.ltb_spec (max_prefixlen v - q) (max_prefixlen v));
      simpl in Bq; try discriminate; lia.
  - pose proof (testbit_mask v p (max_prefixlen v - p) ltac:(lia) ltac:(lia)) as Bp.
    pose proof (testbit_mask v q (max_prefixlen v - p) ltac:(lia) ltac:(lia)) as Bq.
    rewrite E in Bp. rewrite Bp in Bq.
    destruct (Z.leb_spec (max_prefixlen v - p) (max_prefixlen v - p)),
      (Z.leb_spec (max_prefixlen v - q) (max_prefixlen v - p)),
      (Z.ltb_spec (max_prefixlen v - p) (max_prefixlen v));
      simpl in Bq; try discriminate; lia.
Qed.

Lemma testbit_address_high (v : IPVersion) (a i : Z) :
  0 <= a <= ALL_ONES v -> max_prefixlen v <= i -> Z.testbit a i = false.
Proof.
  intros Ha Hi. pose proof (max_prefixlen_pos v).
  unfold ALL_ONES in Ha.
  rewrite <- (Z.mod_small a (2 ^ max_prefixlen v)) by lia.
  apply Z.mod_pow2_bits_high. lia.
Qed.

(** What [supernet] computes, [address & (netmask << diff)], is the
    address under the netmask of the shorter prefix. *)
Lemma land_shifted_mask (v : IPVersion) (a p d : Z) :
  0 <= a <= ALL_ONES v -> 0 <= d <= p -> p <= max_prefixlen v ->
  Z.land a (Z.shiftl (ip_int_from_prefix v p) d)
  = Z.land a (ip_int_from_prefix v (p - d)).
Proof.
  intros Ha Hd Hp. apply Z.bits_inj'. intros i Hi.
  rewrite !Z.land_spec, Z.shiftl_spec by lia.
  rewrite (testbit_mask v (p - d)) by lia.
  destruct (Z.ltb_spec i (max_prefixlen v)) as [Hlt|Hge].
  2:{ rewrite (testbit_address_high v a i) by lia. reflexivity. }
  destruct (Z.ltb_spec i d).
  - rewrite (Z.testbit_neg_r _ (i - d)) by lia.
    destruct (Z.leb_spec (max_prefixlen v - (p - d)) i); [lia|].
    now rewrite !andb_false_r.
  - rewrite testbit_mask by lia.
    destruct (Z.leb_spec (max_prefixlen v - p) (i - d)),
      (Z.leb_spec (max_prefixlen v - (p - d)) i),
      (Z.ltb_spec (i - d) (max_prefixlen v)); simpl; try reflexivity; lia.
Qed.

Lemma land_mask_mask (v : IPVersion) (a p q : Z) :
  0 <= q <= p ->
  Z.land (Z.land a (ip_int_from_prefix v p)) (ip_int_from_prefix v q)
  = Z.land a (ip_int_from_prefix v q).
Proof.
  intros Hq. apply Z.bits_inj'. intros i Hi.
  rewrite !Z.land_spec, !testbit_mask by lia.
  destruct (Z.testbit a i),
    (Z.leb_spec (max_prefixlen v - p) i),
    (Z.leb_spec (max_prefixlen v - q) i),
    (Z.ltb_spec i (max_prefixlen v)); simpl; try reflexivity; lia.
Qed.

Lemma land_le (a m : Z) : 0 <= a -> 0 <= Z.land a m <= a.
Proof.
  intros Ha. apply Z.ldiff_le; [assumption|].
  apply Z.bits_inj'. intros i Hi.
  rewrite Z.ldiff_spec, Z.land_spec, Z.bits_0.
  destruct (Z.testbit a i), (Z.testbit m i); reflexivity.
Qed.

Lemma land_mask_full (v : IPVersion) (a : Z) :
  0 <= a <= ALL_ONES v -> Z.land a (ip_int_from_prefix v (max_prefixlen v)) = a.
Proof.
  intros Ha. pose proof (max_prefixlen_pos v).
  apply Z.bits_inj'. intros i Hi.
  rewrite Z.land_spec, testbit_mask by lia.
  destruct (Z.ltb_spec i (max_prefixlen v)).
  - destruct (Z.leb_spec (max_prefixlen v - max_prefixlen v) i); [|lia].
    now rewrite andb_true_r.
  - rewrite (testbit_address_high v a i) by lia. reflexivity.
Qed.

Lemma network_ok_spec (n : IPNetwork) :
  network_ok n = true <->
  0 <= prefixlen n <= max_prefixlen (version n) /\
  0 <= network_address n <= ALL_ONES (version n) /\
  Z.land (network_address n) (netmask n) = network_address n.
Proof.
  unfold network_ok. rewrite !andb_true_iff, !Z.leb_le, Z.eqb_eq. tauto.
Qed.

Lemma network_eq_key (a b : IPNetwork) :
  network_eq a b = true <-> network_key a = network_key b.
Proof.
  unfold network_eq, network_key.
  rewrite !andb_true_iff, bool_decide_eq_true, !Z.eqb_eq.
  split; [intros [[-> ->] ->]; reflexivity | intros [= -> -> ->]; auto].
Qed.

Lemma network_eq_refl (a : IPNetwork) : network_eq a a = true.
Proof. now apply network_eq_key. Qed.

Lemma network_key_inj (a b : IPNetwork) :
  network_ok a = true -> network_ok b = true ->
  network_key a = network_key b -> a = b.
Proof.
  rewrite !network_ok_spec. intros (Ha & _) (Hb & _).
  destruct a as [v x p], b as [w y q]. unfold network_key, netmask. simpl in *.
  intros [= -> -> E]. f_equal. now apply (mask_inj w).
Qed.

Lemma network_eq_eq (a b : IPNetwork) :
  network_ok a = true -> network_ok b = true ->
  network_eq a b = true -> a = b.
Proof. intros Ha Hb E. apply network_key_inj; try assumption. now apply network_eq_key. Qed.

Lemma supernet_ok (n : IPNetwork) (q : Z) :
  network_ok n = true -> 1 <= q <= prefixlen n ->
  supernet n q = Ok (supernet_at n q).
Proof.
  rewrite network_ok_spec. intros (Hp & Ha & _) Hq.
  unfold supernet, supernet_at.
  destruct (Z.eqb_spec (prefixlen n) 0); [lia|].
  destruct (Z.ltb_spec (prefixlen n) q); [lia|].
  replace (prefixlen n - (prefixlen n - q)) with q by lia.
  destruct (Z.ltb_spec q 0); [lia|].
  unfold netmask. rewrite land_shifted_mask by lia.
  now replace (prefixlen n - (prefixlen n - q)) with q by lia.
Qed.

Lemma supernet_at_ok (n : IPNetwork) (q : Z) :
  network_ok n = true -> 0 <= q <= prefixlen n ->
  network_ok (supernet_at n q) = true.
Proof.
  rewrite !network_ok_spec. intros (Hp & Ha & _) Hq. simpl.
  pose proof (land_le (network_address n) (ip_int_from_prefix (version n) q)
                ltac:(lia)) as Hle.
  repeat split; try lia.
  unfold netmask. simpl. apply land_mask_mask. lia.
Qed.

Lemma supernet_at_self (n : IPNetwork) :
  network_ok n = true -> supernet_at n (prefixlen n) = n.
Proof.
  rewrite network_ok_spec. intros (_ & _ & Hc).
  destruct n as [v a p]. unfold supernet_at, netmask in *. simpl in *.
  now rewrite Hc.
Qed.

Lemma supernet_at_mono (n : IPNetwork) (q1 q2 : Z) :
  network_ok n = true -> 0 <= q1 <= q2 ->
  network_address (supernet_at n q1) <= network_address (supernet_at n q2).
Proof.
  rewrite network_ok_spec. intros (_ & Ha & _) Hq. simpl.
  rewrite <- (land_mask_mask (version n) (network_address n) q2 q1) by lia.
  apply land_le. apply land_le. lia.
Qed.

Lemma item_network_ok (i : item) :
  item_ok i = true -> network_ok (item_network i) = true.
Proof.
  destruct i as [v ip|v ip plen|n|p]; simpl; try tauto.
  - rewrite !andb_true_iff, !Z.leb_le. intros [H0 H1].
    apply network_ok_spec. simpl. pose proof (max_prefixlen_pos v).
    repeat split; try lia. unfold netmask. simpl. apply land_mask_full. lia.
  - rewrite !andb_true_iff, !Z.leb_le. intros [[[H0 H1] H2] H3].
    apply network_ok_spec. simpl.
    pose proof (land_le ip (ip_int_from_prefix v plen) ltac:(lia)).
    repeat split; try lia. unfold netmask. simpl. apply land_mask_mask. lia.
Qed.

End networks.

(* ================================================================== *)
(** * Lemmas: binary search and the exact lookup *)
(* ================================================================== *)

Section lookup.

Import bisect.

Lemma bisect_loop_unfold {A X : Type} (lt : A -> X -> result bool)
    (fuel : nat) (a : list A) (x : X) (lo hi : nat) :
  bisect_loop lt fuel a x lo hi =
  if bool_decide (lo < hi)%nat then
    match fuel with
    | O => Raise FuelExhausted
    | S fuel' =>
        match a !! ((lo + hi) / 2)%nat with
        | None => Raise IndexError
        | Some y =>
            b ← lt y x;
            if b : bool then bisect_loop lt fuel' a x ((lo + hi) / 2 + 1)%nat hi
            else bisect_loop lt fuel' a x lo ((lo + hi) / 2)%nat
        end
    end
  else Ok lo.
Proof. destruct fuel; reflexivity. Qed.

Lemma bisect_loop_total {A X : Type} (lt : A -> X -> result bool)
    (a : list A) (x : X) (fuel lo hi : nat) :
  (forall y, y ∈ a -> exists b, lt y x = Ok b) ->
  (lo <= hi <= length a)%nat -> (hi - lo <= fuel)%nat ->
  exists i, bisect_loop lt fuel a x lo hi = Ok i /\ (lo <= i <= hi)%nat.
Proof.
  intros Hlt. revert lo hi.
  induction fuel as [|fuel IH]; intros lo hi Hb Hf; rewrite bisect_loop_unfold.
  - rewrite bool_decide_eq_false_2 by lia. exists lo. split; [reflexivity|lia].
  - case_bool_decide as Hlo; [|exists lo; split; [reflexivity|lia]].
    assert (lo <= (lo + hi) / 2 < hi)%nat as Hmid.
    { split; [apply Nat.div_le_lower_bound; lia
             |apply Nat.Div0.div_lt_upper_bound; lia]. }
    destruct (lookup_lt_is_Some_2 a ((lo + hi) / 2)%nat ltac:(lia)) as [y Hy].
    rewrite Hy.
    destruct (Hlt y (list_elem_of_lookup_2 _ _ _ Hy)) as [b Hb'].
    rewrite Hb'. simpl.
    destruct b.
    + destruct (IH ((lo + hi) / 2 + 1)%nat hi ltac:(lia) ltac:(lia)) as (i & Hi & Hr).
      exists i. split; [assumption|lia].
    + destruct (IH lo ((lo + hi) / 2)%nat ltac:(lia) ltac:(lia)) as (i & Hi & Hr).
      exists i. split; [assumption|lia].
Qed.

Lemma lt_network_total (p : AWSIPPrefix) (x : IPNetwork) :
  version (prefix p) = version x -> exists b, lt_network p x = Ok b.
Proof.
  intros Hv. unfold lt_network, network_lt.
  rewrite bool_decide_eq_false_2 by (intros Hne; now apply Hne).
  destruct (negb _); [|eauto].
  destruct (negb _); [eauto|].
  destruct (negb _); eauto.
Qed.

(** A record [_get_prefix] returns is stored in the sequence of the
    query's version and its network is [==] to the query. *)
Lemma get_prefix_sound (c : AWSIPPrefixes) (n : IPNetwork) (p : AWSIPPrefix) :
  _get_prefix c n = Ok (Some p) ->
  p ∈ sequence_of c (version n) /\ network_eq (prefix p) n = true.
Proof.
  unfold _get_prefix. fold (sequence_of c (version n)).
  destruct (bisect_left _ _ _) as [i|e]; simpl; [|discriminate].
  case_bool_decide; [|discriminate].
  destruct (sequence_of c (version n) !! i) as [found|] eqn:Hi; [|discriminate].
  destruct (network_eq (prefix found) n) eqn:E; [|discriminate].
  intros [= <-]. split; [|assumption]. now apply list_elem_of_lookup_2 in Hi.
Qed.

(** On a sequence whose records all have the query's version,
    [_get_prefix] raises nothing. *)
Lemma get_prefix_total (c : AWSIPPrefixes) (n : IPNetwork) :
  Forall (fun p => version (prefix p) = version n) (sequence_of c (version n)) ->
  exists r, _get_prefix c n = Ok r.
Proof.
  intros Hty. unfold _get_prefix. fold (sequence_of c (version n)).
  unfold bisect_left.
  destruct (bisect_loop_total lt_network (sequence_of c (version n)) n
              (length (sequence_of c (version n))) 0
              (length (sequence_of c (version n)))) as (i & Hi & Hr).
  - intros y Hy. apply lt_network_total.
    rewrite Forall_forall in Hty. now apply Hty.
  - lia.
  - lia.
  - rewrite Hi. simpl. case_bool_decide as Hne; [|eauto].
    destruct (lookup_lt_is_Some_2 (sequence_of c (version n)) i ltac:(lia)) as [y Hy].
    rewrite Hy. destruct (network_eq _ _); eauto.
Qed.

(** The netmask in closed form. *)
Lemma mask_closed (v : IPVersion) (p : Z) :
  0 <= p <= max_prefixlen v ->
  ip_int_from_prefix v p = 2 ^ max_prefixlen v - 2 ^ (max_prefixlen v - p).
Proof.
  intros Hp.
  assert (forallb (fun k : nat =>
                     ip_int_from_prefix v (Z.of_nat k)
                     =? 2 ^ max_prefixlen v - 2 ^ (max_prefixlen v - Z.of_nat k))
            (seq 0 (S (Z.to_nat (max_prefixlen v)))) = true) as Hall
    by (destruct v; vm_compute; reflexivity).
  rewrite forallb_forall in Hall.
  specialize (Hall (Z.to_nat p)). rewrite in_seq, Z2Nat.id in Hall by lia.
  apply Z.eqb_eq, Hall. lia.
Qed.

Lemma mask_lt_mono (v : IPVersion) (p q : Z) :
  0 <= p < q -> q <= max_prefixlen v ->
  ip_int_from_prefix v p < ip_int_from_prefix v q.
Proof.
  intros Hp Hq. rewrite !mask_closed by lia.
  assert (2 ^ (max_prefixlen v - q) < 2 ^ (max_prefixlen v - p))
    by (apply Z.pow_lt_mono_r; lia).
  lia.
Qed.

(** On well-formed networks of one version, the comparison [bisect_left]
    makes is the order by network address, then prefix length. *)
Lemma lt_network_spec (p : AWSIPPrefix) (x : IPNetwork) :
  version (prefix p) = version x ->
  network_ok (prefix p) = true -> network_ok x = true ->
  lt_network p x = Ok (network_before (prefix p) x).
Proof.
  intros Hv Hp Hx. unfold lt_network, network_lt, network_eq, network_before, netmask.
  apply network_ok_spec in Hp as (Hp & _). apply network_ok_spec in Hx as (Hx & _).
  rewrite Hv in *.
  rewrite bool_decide_eq_true_2 by reflexivity.
  rewrite bool_decide_eq_false_2 by (intros Hne; now apply Hne).
  destruct (Z.eqb_spec (network_address (prefix p)) (network_address x)) as [Ea|Ea];
    simpl.
  - rewrite Ea, Z.ltb_irrefl. simpl.
    destruct (Z.eqb_spec (ip_int_from_prefix (version x) (prefixlen (prefix p)))
                (ip_int_from_prefix (version x) (prefixlen x))) as [Em|Em]; simpl.
    + apply mask_inj in Em; try lia. rewrite Em, Z.ltb_irrefl. reflexivity.
    + f_equal.
      destruct (Z.ltb_spec (prefixlen (prefix p)) (prefixlen x)) as [Hl|Hl].
      * apply Z.ltb_lt. apply mask_lt_mono; lia.
      * apply Z.ltb_ge.
        destruct (Z.eq_dec (prefixlen (prefix p)) (prefixlen x)) as [E|E];
          [congruence|].
        apply Z.lt_le_incl. apply mask_lt_mono; lia.
  - destruct (Z.ltb_spec (network_address (prefix p)) (network_address x));
      reflexivity.
Qed.

(** [bisect_left] on a list split by [f] into a prefix where it holds
    and a suffix where it does not: the index of the split. *)
Lemma bisect_loop_split {A X : Type} (lt : A -> X -> result bool)
    (a : list A) (x : X) (f : A -> bool) (fuel lo hi : nat) :
  (forall y, y ∈ a -> lt y x = Ok (f y)) ->
  (lo <= hi <= length a)%nat -> (hi - lo <= fuel)%nat ->
  (forall j y, (j < lo)%nat -> a !! j = Some y -> f y = true) ->
  (forall j y, (hi <= j)%nat -> a !! j = Some y -> f y = false) ->
  (forall i j y z, (i <= j)%nat -> a !! i = Some y -> a !! j = Some z ->
                   f z = true -> f y = true) ->
  exists i, bisect_loop lt fuel a x lo hi = Ok i
            /\ (i <= length a)%nat
            /\ (forall j y, (j < i)%nat -> a !! j = Some y -> f y = true)
            /\ (forall j y, (i <= j)%nat -> a !! j = Some y -> f y = false).
Proof.
  intros Hlt. revert lo hi.
  induction fuel as [|fuel IH]; intros lo hi Hb Hf Hlo Hhi Hmono;
    rewrite bisect_loop_unfold.
  - rewrite bool_decide_eq_false_2 by lia. exists lo.
    split; [reflexivity|]. split; [lia|]. split; [assumption|].
    intros j y Hj. apply Hhi. lia.
  - case_bool_decide as Hlt'.
    2:{ exists lo. split; [reflexivity|]. split; [lia|]. split; [assumption|].
        intros j y Hj. apply Hhi. lia. }
    assert (lo <= (lo + hi) / 2 < hi)%nat as Hmid.
    { split; [apply Nat.div_le_lower_bound; lia
             |apply Nat.Div0.div_lt_upper_bound; lia]. }
    destruct (lookup_lt_is_Some_2 a ((lo + hi) / 2)%nat ltac:(lia)) as [y Hy].
    rewrite Hy, (Hlt y (list_elem_of_lookup_2 _ _ _ Hy)). simpl.
    destruct (f y) eqn:Efy.
    + apply (IH ((lo + hi) / 2 + 1)%nat hi ltac:(lia) ltac:(lia));
        [|assumption|assumption].
      intros j z Hj Hz.
      apply (Hmono j ((lo + hi) / 2)%nat z y ltac:(lia) Hz Hy Efy).
    + apply (IH lo ((lo + hi) / 2)%nat ltac:(lia) ltac:(lia));
        [assumption| |assumption].
      intros j z Hj Hz. destruct (f z) eqn:Efz; [|reflexivity].
      rewrite (Hmono ((lo + hi) / 2)%nat j y z ltac:(lia) Hy Hz Efz) in Efy.
      discriminate.
Qed.

(** Between two records of one version, [__lt__] follows the order of
    their networks. *)
Lemma lt_network_before (a b : AWSIPPrefix) :
  version (prefix a) = version (prefix b) -> __lt__ a b = true ->
  network_before (prefix a) (prefix b) = true \/ prefix a = prefix b.
Proof.
  intros Hv. unfold __lt__, network_before. rewrite Hv.
  rewrite bool_decide_eq_false_2 by (intros Hne; now apply Hne).
  destruct (prefix a) as [va aa la], (prefix b) as [vb ab lb]. simpl in *. subst vb.
  case_bool_decide as Ea.
  - intros H. left. rewrite H. reflexivity.
  - assert (aa = ab) as -> by (destruct (Z.eq_dec aa ab); tauto).
    case_bool_decide as El.
    + intros H. left. rewrite H, Z.eqb_refl, Z.ltb_irrefl. reflexivity.
    + assert (la = lb) as -> by (destruct (Z.eq_dec la lb); tauto).
      intros _. now right.
Qed.

Lemma network_before_trans (a b c : IPNetwork) :
  network_before a b = true -> network_before b c = true ->
  network_before a c = true.
Proof.
  unfold network_before.
  rewrite !orb_true_iff, !andb_true_iff, !Z.ltb_lt, !Z.eqb_eq. lia.
Qed.

Lemma network_before_irrefl (a : IPNetwork) : network_before a a = false.
Proof. unfold network_before. now rewrite !Z.ltb_irrefl, andb_false_r. Qed.

End lookup.

(* ================================================================== *)
(** * Lemmas: building a collection *)
(* ================================================================== *)

Section construction.

Import builtins.

(** The constructor on two iterables of records: the five type checks
    pass. *)
Lemma init_given (st : option string) (cd : option datetime)
    (v4 v6 : list AWSIPPrefix) (h : option string) :
  __init__ st cd (Some v4) (Some v6) h
  = (o4 ← _process_prefixes v4;
     o6 ← _process_prefixes v6;
     Ok (mkPrefixes st cd o4 o6 h)).
Proof. destruct st, cd, h; reflexivity. Qed.

Lemma mapM_Ok_Forall2 {A B : Type} (f : A -> result B) (l : list A) (out : list B) :
  mapM f l = Ok out <-> Forall2 (fun x y => f x = Ok y) l out.
Proof.
  revert out. induction l as [|x l IH]; intros out; simpl.
  - split; [intros [= <-]; constructor | intros H; inversion H; reflexivity].
  - split.
    + destruct (f x) as [y|e] eqn:Ex; simpl; [|discriminate].
      destruct (mapM f l) as [k|e] eqn:El; simpl; [|discriminate].
      intros [= <-]. constructor; [assumption|]. now apply IH.
    + intros H. inversion H as [|? y ? k Hy Hk]; subst.
      rewrite Hy. simpl. apply IH in Hk. rewrite Hk. reflexivity.
Qed.

Lemma dict_append_keys (key : IPNetwork) (p : AWSIPPrefix)
    (d : list (IPNetwork * list AWSIPPrefix)) (x : IPVersion * Z * Z) :
  x ∈ dict_keys (dict_append key p d) -> x ∈ dict_keys d \/ x = network_key key.
Proof.
  unfold dict_keys. induction d as [|[k ps] d IH]; simpl.
  - intros Hx. apply list_elem_of_singleton in Hx. now right.
  - destruct (network_eq k key); simpl; [now left|].
    intros Hx. apply elem_of_cons in Hx as [->|Hx].
    + left. apply elem_of_cons. now left.
    + destruct (IH Hx) as [H'|H']; [|now right].
      left. apply elem_of_cons. now right.
Qed.

Lemma dict_append_NoDup (key : IPNetwork) (p : AWSIPPrefix)
    (d : list (IPNetwork * list AWSIPPrefix)) :
  NoDup (dict_keys d) -> NoDup (dict_keys (dict_append key p d)).
Proof.
  induction d as [|[k ps] d IH]; simpl; intros Hnd.
  - apply NoDup_singleton.
  - destruct (network_eq k key) eqn:E; [exact Hnd|].
    unfold dict_keys in *. simpl in *.
    apply NoDup_cons in Hnd as [Hk Hnd]. apply NoDup_cons. split; [|now apply IH].
    intros Hin. apply dict_append_keys in Hin as [Hin| Hin]; [contradiction|].
    apply network_eq_key in Hin. congruence.
Qed.

Lemma dict_append_groups (l : list AWSIPPrefix) (p : AWSIPPrefix)
    (d : list (IPNetwork * list AWSIPPrefix)) :
  p ∈ l -> Forall (group_ok l) d -> Forall (group_ok l) (dict_append (prefix p) p d).
Proof.
  intros Hp. induction d as [|[k ps] d IH]; simpl; intros Hd.
  - constructor; [|constructor]. split; simpl; [discriminate|].
    constructor; [|constructor]. now split.
  - apply Forall_cons in Hd as [[Hne Hps] Hd].
    destruct (network_eq k (prefix p)) eqn:E.
    + constructor; [|assumption]. split; simpl in *.
      * destruct ps; discriminate.
      * apply Forall_app. split; [assumption|].
        repeat constructor; [|assumption].
        symmetry. now apply network_eq_key.
    + constructor; [now split|now apply IH].
Qed.

Lemma collect_duplicates_inv (l : list AWSIPPrefix) :
  NoDup (dict_keys (collect_duplicates l)) /\
  Forall (group_ok l) (collect_duplicates l).
Proof.
  unfold collect_duplicates.
  assert (forall l' d, (forall p, p ∈ l' -> p ∈ l) ->
            NoDup (dict_keys d) -> Forall (group_ok l) d ->
            NoDup (dict_keys (fold_left (fun d p => dict_append (prefix p) p d) l' d)) /\
            Forall (group_ok l) (fold_left (fun d p => dict_append (prefix p) p d) l' d))
    as Hgen.
  { induction l' as [|p l' IH]; intros d Hsub Hnd Hg; simpl; [now split|].
    apply IH.
    - intros q Hq. apply Hsub. now apply elem_of_cons; right.
    - now apply dict_append_NoDup.
    - apply dict_append_groups; [|assumption]. apply Hsub. now apply elem_of_cons; left. }
  apply Hgen; [tauto|constructor|constructor].
Qed.

(** What a successful [combine_prefixes] returns. *)
Lemma combine_prefixes_Ok (ps : list AWSIPPrefix) (r : AWSIPPrefix) :
  combine_prefixes ps = Ok r ->
  exists first rest,
    ps = first :: rest /\ rest <> [] /\
    Forall (fun p => version (prefix p) = version (prefix first)) rest /\
    Forall (fun p => same_block p first = true) rest /\
    r = mkPrefix (prefix first) (region first) (network_border_group first)
          (sorted str_lt
             (elements (list_to_set (concat (awsipprefix.services <$> ps)) : gset string))).
Proof.
  unfold combine_prefixes. case_bool_decide as Hlen; [|discriminate].
  destruct ps as [|first rest]; [discriminate|].
  destruct (forallb _ rest) eqn:Hv; [|discriminate].
  destruct (forallb (fun p => same_block p first) rest) eqn:Hb; [|discriminate].
  unfold new_prefix, AWSIPPrefix_init, mbind, result_bind.
  rewrite bool_decide_eq_true_2 by reflexivity.
  intros [= <-]. exists first, rest.
  split; [reflexivity|].
  split; [|split; [|split; [|now rewrite (sorted_idem str_lt)]]].
  - destruct rest; [simpl in Hlen; lia|discriminate].
  - apply Forall_forall. intros p Hp. rewrite forallb_forall in Hv.
    apply list_elem_of_In in Hp. specialize (Hv p Hp).
    now apply bool_decide_eq_true in Hv.
  - apply Forall_forall. intros p Hp. rewrite forallb_forall in Hb.
    apply list_elem_of_In in Hp. now apply Hb.
Qed.

Lemma deduplicate_prefix (ps : list AWSIPPrefix) (r : AWSIPPrefix) :
  deduplicate ps = Ok r -> exists p, p ∈ ps /\ prefix r = prefix p.
Proof.
  intros H.
  assert (combine_prefixes ps = Ok r -> exists p, p ∈ ps /\ prefix r = prefix p) as Hc.
  { intros Hc. apply combine_prefixes_Ok in Hc as (first & rest & -> & _ & _ & _ & ->).
    exists first. split; [apply elem_of_cons; now left|reflexivity]. }
  destruct ps as [|p [|q ps]]; simpl in H; [now apply Hc| |now apply Hc].
  injection H as <-. exists p. split; [apply elem_of_cons; now left|reflexivity].
Qed.

Lemma deduplicated_keys (l : list AWSIPPrefix)
    (d : list (IPNetwork * list AWSIPPrefix)) (out : list AWSIPPrefix) :
  Forall (group_ok l) d ->
  Forall2 (fun ps r => deduplicate ps = Ok r) (snd <$> d) out ->
  prefix_key <$> out = dict_keys d /\
  Forall (fun r => exists p, p ∈ l /\ prefix r = prefix p) out.
Proof.
  revert out. induction d as [|[k ps] d IH]; intros out Hg H; simpl in *.
  - inversion H. split; [reflexivity|constructor].
  - inversion H as [|? r ? out' Hr Hout]; subst.
    apply Forall_cons in Hg as [[_ Hps] Hg].
    destruct (IH out' Hg Hout) as [Hk Hf].
    apply deduplicate_prefix in Hr as (p & Hp & Er).
    rewrite Forall_forall in Hps. destruct (Hps p Hp) as [Hkey Hl]. simpl in *.
    split.
    + unfold dict_keys in *. simpl. f_equal; [|assumption].
      unfold prefix_key in *. now rewrite Er.
    + constructor; [|assumption]. now exists p.
Qed.

(** What [_process_prefixes] returns is strictly ascending, has no two
    records with the same network key, and every record in it carries
    the network of one of the given records. *)
Lemma process_prefixes_inv (l out : list AWSIPPrefix) :
  _process_prefixes l = Ok out ->
  sequence_inv out /\
  Forall (fun r => exists p, p ∈ l /\ prefix r = prefix p) out.
Proof.
  unfold _process_prefixes.
  destruct (mapM deduplicate _) as [dd|e] eqn:Hm; simpl; [|discriminate].
  intros [= <-].
  apply mapM_Ok_Forall2 in Hm.
  destruct (collect_duplicates_inv l) as [Hnd Hg].
  destruct (deduplicated_keys l _ dd Hg Hm) as [Hk Hf].
  assert (NoDup (prefix_key <$> sorted __lt__ dd)) as Hnd'.
  { rewrite sorted_Permutation, Hk. exact Hnd. }
  split; [split|].
  - apply Sorted_NoDup_ascending; try apply _.
    + apply sorted_Sorted. apply _.
    + now apply NoDup_fmap_1 in Hnd'.
  - exact Hnd'.
  - rewrite sorted_Permutation. exact Hf.
Qed.

Lemma dict_append_fresh (key : IPNetwork) (p : AWSIPPrefix)
    (d : list (IPNetwork * list AWSIPPrefix)) :
  network_key key ∉ dict_keys d -> dict_append key p d = d ++ [(key, [p])].
Proof.
  unfold dict_keys. induction d as [|[k ps] d IH]; simpl; intros Hk; [reflexivity|].
  apply not_elem_of_cons in Hk as [Hne Hk].
  destruct (network_eq k key) eqn:E.
  - apply network_eq_key in E. congruence.
  - now rewrite IH.
Qed.

Lemma collect_fresh (l : list AWSIPPrefix) (d : list (IPNetwork * list AWSIPPrefix)) :
  NoDup (dict_keys d ++ (prefix_key <$> l)) ->
  fold_left (fun d p => dict_append (prefix p) p d) l d
  = d ++ ((fun p => (prefix p, [p])) <$> l).
Proof.
  revert d. induction l as [|p l IH]; intros d Hnd; simpl.
  - now rewrite app_nil_r.
  - rewrite dict_append_fresh.
    + rewrite IH.
      * now rewrite <- app_assoc.
      * unfold dict_keys in *. rewrite fmap_app, <- app_assoc. exact Hnd.
    + apply NoDup_app in Hnd as (_ & Hdis & _).
      intros Hin. apply (Hdis _ Hin). apply elem_of_cons. now left.
Qed.

Lemma mapM_deduplicate_singletons (l : list AWSIPPrefix) :
  mapM deduplicate (snd <$> ((fun p => (prefix p, [p])) <$> l)) = Ok l.
Proof.
  apply mapM_Ok_Forall2.
  induction l as [|p l IH]; simpl; constructor; [reflexivity|exact IH].
Qed.

(** [_process_prefixes] gives back a sequence that already satisfies
    the invariant. *)
Lemma process_prefixes_id (l : list AWSIPPrefix) :
  sequence_inv l -> _process_prefixes l = Ok l.
Proof.
  intros [Hasc Hnd]. unfold _process_prefixes, collect_duplicates.
  rewrite collect_fresh by exact Hnd.
  rewrite app_nil_l, mapM_deduplicate_singletons. simpl.
  f_equal. apply sorted_fixpoint. apply ascending_Sorted; [apply _|assumption].
Qed.

Lemma filter_elem_of {A : Type} (P : A -> bool) (l : list A) (x : A) :
  x ∈ List.filter P l <-> x ∈ l /\ P x = true.
Proof. rewrite !list_elem_of_In. apply filter_In. Qed.

Lemma sequence_inv_filter (P : AWSIPPrefix -> bool) (l : list AWSIPPrefix) :
  sequence_inv l -> sequence_inv (List.filter P l).
Proof.
  intros [Hasc Hnd]. unfold sequence_inv, ascending in *.
  induction l as [|x l IH]; simpl; [split; constructor|].
  apply StronglySorted_inv in Hasc as [Hasc Hx].
  simpl in Hnd. apply NoDup_cons in Hnd as [Hnotin Hnd].
  destruct (IH Hasc Hnd) as [IH1 IH2].
  destruct (P x); [|now split].
  split.
  - constructor; [assumption|].
    apply Forall_forall. intros y Hy. apply filter_elem_of in Hy as [Hy _].
    rewrite Forall_forall in Hx. now apply Hx.
  - simpl. apply NoDup_cons. split; [|assumption].
    intros Hin. apply Hnotin.
    apply list_elem_of_fmap in Hin as (y & -> & Hy).
    apply filter_elem_of in Hy as [Hy _].
    apply list_elem_of_fmap. now exists y.
Qed.

Lemma process_prefixes_records (cls : IPVersion) (l out : list AWSIPPrefix) :
  forallb (record_ok cls) l = true -> _process_prefixes l = Ok out ->
  Forall (fun p => record_ok cls p = true) out.
Proof.
  intros Hl Hout. apply process_prefixes_inv in Hout as [_ Hf].
  eapply Forall_impl; [exact Hf|]. simpl. intros r (p & Hp & E).
  rewrite forallb_forall in Hl. apply list_elem_of_In in Hp.
  specialize (Hl p Hp). unfold record_ok in *. now rewrite E.
Qed.

(** The invariant of every collection. *)
Lemma collection_inv (c : AWSIPPrefixes) :
  collection c ->
  sequence_inv (ipv4_prefixes c) /\ sequence_inv (ipv6_prefixes c) /\
  Forall (fun p => record_ok IPv4 p = true) (ipv4_prefixes c) /\
  Forall (fun p => record_ok IPv6 p = true) (ipv6_prefixes c).
Proof.
  intros (st & cd & v4 & v6 & h & H4 & H6 & Hc).
  rewrite init_given in Hc.
  destruct (_process_prefixes v4) as [o4|e] eqn:E4; simpl in Hc; [|discriminate].
  destruct (_process_prefixes v6) as [o6|e] eqn:E6; simpl in Hc; [|discriminate].
  injection Hc as <-. simpl.
  split; [apply (process_prefixes_inv v4 o4 E4)|].
  split; [apply (process_prefixes_inv v6 o6 E6)|].
  split; eapply process_prefixes_records; eassumption.
Qed.

Lemma collection_sequence (c : AWSIPPrefixes) (v : IPVersion) :
  collection c ->
  sequence_inv (sequence_of c v) /\
  Forall (fun p => record_ok v p = true) (sequence_of c v).
Proof.
  intros Hc. apply collection_inv in Hc as (H4 & H6 & T4 & T6).
  destruct v; simpl; now split.
Qed.

End construction.

Lemma StronglySorted_impl {A : Type} (R R' : A -> A -> Prop) (l : list A) :
  (forall a b, R a b -> R' a b) -> StronglySorted R l -> StronglySorted R' l.
Proof.
  intros HR. induction 1 as [|x l _ IH Hx]; constructor; [assumption|].
  eapply Forall_impl; [exact Hx|]. intros y. apply HR.
Qed.

Lemma collection_records_ok (c : AWSIPPrefixes) (v : IPVersion) :
  collection c ->
  Forall (fun p => network_ok (prefix p) = true) (sequence_of c v)
  /\ Forall (fun p => version (prefix p) = v) (sequence_of c v).
Proof.
  intros Hc. destruct (collection_sequence c v Hc) as [_ Hok].
  split; (eapply Forall_impl; [exact Hok|]); simpl; intros p Hp;
    unfold record_ok in Hp; apply andb_true_iff in Hp as [Hv Hn];
    [assumption|now apply bool_decide_eq_true in Hv].
Qed.

(* ================================================================== *)
(** * Lemmas: the walks over the supernets *)
(* ================================================================== *)

Section walks.

Import builtins bisect.

(** The exact lookup is exact: on a collection, [_get_prefix] returns a
    record if and only if that record is stored in the sequence of the
    query's version and carries the queried network. *)
Lemma get_prefix_exact (c : AWSIPPrefixes) (x : IPNetwork) (p : AWSIPPrefix) :
  collection c -> network_ok x = true ->
  (_get_prefix c x = Ok (Some p) <-> p ∈ sequence_of c (version x) /\ prefix p = x).
Proof.
  intros Hc Hx.
  destruct (collection_sequence c (version x) Hc) as [[Hasc Hnd] Hrec].
  assert (forall y, y ∈ sequence_of c (version x) ->
            version (prefix y) = version x /\ network_ok (prefix y) = true) as Hy.
  { intros y Hin. rewrite Forall_forall in Hrec. specialize (Hrec y Hin).
    unfold record_ok in Hrec. apply andb_true_iff in Hrec as [Hv Hn].
    apply bool_decide_eq_true in Hv. now split. }
  split.
  { intros Hg. apply get_prefix_sound in Hg as [Hin Heq]. split; [assumption|].
    apply network_eq_eq; try assumption. now apply Hy. }
  intros [Hin <-].
  set (a := sequence_of c (version (prefix p))) in *.
  assert (forall i j y z, (i < j)%nat -> a !! i = Some y -> a !! j = Some z ->
            network_before (prefix y) (prefix z) = true) as Hord.
  { intros i j y z Hij Hi Hj.
    assert (__lt__ y z = true) as Hlt.
    { rewrite <- (take_drop j a) in Hasc. unfold ascending in Hasc.
      apply (StronglySorted_app_1_elem_of _ _ _ y z) in Hasc; [assumption| |].
      - apply list_elem_of_lookup. exists i. rewrite lookup_take_lt by lia. assumption.
      - apply list_elem_of_lookup. exists 0%nat. rewrite lookup_drop.
        now replace (j + 0)%nat with j by lia. }
    destruct (Hy y (list_elem_of_lookup_2 _ _ _ Hi)) as [Hvy _].
    destruct (Hy z (list_elem_of_lookup_2 _ _ _ Hj)) as [Hvz _].
    destruct (lt_network_before y z ltac:(congruence) Hlt) as [H|H]; [assumption|].
    exfalso. pose proof (proj1 (NoDup_alt _) Hnd) as Hnd'.
    assert (i = j); [|lia].
    apply (Hnd' i j (prefix_key y)); rewrite list_lookup_fmap.
    - now rewrite Hi.
    - rewrite Hj. simpl. unfold prefix_key. now rewrite H. }
  apply list_elem_of_lookup in Hin as [m Hm].
  unfold _get_prefix. fold (sequence_of c (version (prefix p))). fold a.
  unfold bisect_left.
  destruct (bisect_loop_split lt_network a (prefix p)
              (fun y => network_before (prefix y) (prefix p))
              (length a) 0 (length a)) as (i & Hi & Hlen & Hlow & Hhigh).
  - intros y Hyin. destruct (Hy y Hyin) as [Hv Hn].
    apply lt_network_spec; try assumption.
  - lia.
  - lia.
  - intros j y Hj. lia.
  - intros j y Hj Hl. apply lookup_lt_Some in Hl. lia.
  - intros i j y z Hij Hi Hj Hz.
    destruct (decide (i = j)) as [->|Hne]; [congruence|].
    apply (network_before_trans _ (prefix z)); [|assumption].
    apply (Hord i j); try assumption. lia.
  - rewrite Hi. simpl.
    assert (i = m) as ->.
    { destruct (Nat.lt_trichotomy i m) as [Hlt|[E|Hgt]]; [|assumption|].
      - destruct (lookup_lt_is_Some_2 a i) as [y Hyi];
          [apply lookup_lt_Some in Hm; lia|].
        pose proof (Hhigh i y ltac:(lia) Hyi) as Hf.
        rewrite (Hord i m y p Hlt Hyi Hm) in Hf. discriminate.
      - pose proof (Hlow m p Hgt Hm) as Hf.
        rewrite network_before_irrefl in Hf. discriminate. }
    rewrite bool_decide_eq_true_2 by (apply lookup_lt_Some in Hm; lia).
    rewrite Hm, network_eq_refl. reflexivity.
Qed.

Lemma range_down_spec (start : Z) :
  StronglySorted Z.gt (range_down_to_1 start)
  /\ Forall (fun q => 1 <= q <= start) (range_down_to_1 start).
Proof.
  unfold range_down_to_1.
  assert (forall len a,
            StronglySorted Z.gt ((fun k : nat => start - Z.of_nat k) <$> seq a len)
            /\ Forall (fun q => start - Z.of_nat (a + len) < q <= start - Z.of_nat a)
                 ((fun k : nat => start - Z.of_nat k) <$> seq a len)) as Hgen.
  { induction len as [|len IH]; intros a; simpl; [split; constructor|].
    destruct (IH (S a)) as [IH1 IH2]. split.
    - constructor; [assumption|].
      eapply Forall_impl; [exact IH2|]. simpl. intros q Hq. lia.
    - constructor; [lia|].
      eapply Forall_impl; [exact IH2|]. simpl. intros q Hq. lia. }
  destruct (Hgen (Z.to_nat start) 0%nat) as [H1 H2]. split; [assumption|].
  eapply Forall_impl; [exact H2|]. simpl. intros q Hq. lia.
Qed.

Lemma range_down_head (start : Z) :
  1 <= start -> exists rest, range_down_to_1 start = start :: rest.
Proof.
  intros Hs. unfold range_down_to_1.
  destruct (Z.to_nat start) as [|m] eqn:E; [lia|].
  simpl. eexists. f_equal. lia.
Qed.

Lemma StronglySorted_reverse {A : Type} (R : A -> A -> Prop) (l : list A) :
  StronglySorted R l -> StronglySorted (flip R) (reverse l).
Proof.
  induction 1 as [|x l _ IH Hx]; [constructor|].
  rewrite reverse_cons. apply StronglySorted_app_2.
  - intros a b Ha Hb. apply list_elem_of_singleton in Hb as ->.
    rewrite elem_of_reverse in Ha. rewrite Forall_forall in Hx.
    unfold flip. now apply Hx.
  - assumption.
  - repeat constructor.
Qed.

(** The loop of [get_prefix_and_supernets] appends the hits of the walk
    to its list. *)
Lemma collect_loop_hits (c : AWSIPPrefixes) (n : IPNetwork) (lens : list Z)
    (acc : list AWSIPPrefix) :
  collect_loop c n lens acc = (hits ← walk_hits c n lens; Ok (acc ++ hits)).
Proof.
  revert acc. induction lens as [|q lens IH]; intros acc; simpl.
  - now rewrite app_nil_r.
  - destruct (supernet n q) as [m|e]; simpl; [|reflexivity].
    destruct (_get_prefix c m) as [[p|]|e]; simpl; try reflexivity.
    + rewrite IH. destruct (walk_hits c n lens); simpl; [|reflexivity].
      now rewrite <- app_assoc.
    + rewrite IH. now destruct (walk_hits c n lens).
Qed.

(** The loop of [__getitem__] returns the first hit of the walk. *)
Lemma getitem_loop_hits (c : AWSIPPrefixes) (n : IPNetwork) (lens : list Z)
    (hits : list AWSIPPrefix) :
  walk_hits c n lens = Ok hits ->
  getitem_loop c n lens = match hits with [] => Raise KeyError | p :: _ => Ok p end.
Proof.
  revert hits. induction lens as [|q lens IH]; intros hits; simpl.
  - now intros [= <-].
  - destruct (supernet n q) as [m|e]; simpl; [|discriminate].
    destruct (_get_prefix c m) as [[p|]|e]; simpl; try discriminate.
    + destruct (walk_hits c n lens); simpl; [|discriminate]. now intros [= <-].
    + destruct (walk_hits c n lens) as [tl|]; simpl; [|discriminate].
      intros [= <-]. now apply IH.
Qed.

(** A record the loop of [__getitem__] returns was returned by the exact
    lookup of the supernet of one of the prefix lengths. *)
Lemma getitem_loop_Ok (c : AWSIPPrefixes) (n : IPNetwork) (lens : list Z)
    (r : AWSIPPrefix) :
  getitem_loop c n lens = Ok r ->
  exists q m, q ∈ lens /\ supernet n q = Ok m /\ _get_prefix c m = Ok (Some r).
Proof.
  induction lens as [|q lens IH]; simpl; [discriminate|].
  destruct (supernet n q) as [m|e] eqn:Em; simpl; [|discriminate].
  destruct (_get_prefix c m) as [[p|]|e] eqn:Eg; simpl; try discriminate.
  - intros [= <-]. exists q, m. split; [apply elem_of_cons; now left|now split].
  - intros H. destruct (IH H) as (q' & m' & Hq & Hm & Hg).
    exists q', m'. split; [apply elem_of_cons; now right|now split].
Qed.

(** Two records that carry supernets of one network: the one with the
    shorter prefix comes first in the records' order. *)
Lemma supernets_ordered (n : IPNetwork) (a b : AWSIPPrefix) (qa qb : Z) :
  network_ok n = true -> 0 <= qa < qb ->
  prefix a = supernet_at n qa -> prefix b = supernet_at n qb ->
  shorter_before a b.
Proof.
  intros Hn Hq Ea Eb. unfold shorter_before, __lt__. rewrite Ea, Eb.
  pose proof (supernet_at_mono n qa qb Hn ltac:(lia)) as Hmono.
  simpl in *. split; [|lia].
  rewrite bool_decide_eq_false_2 by (intros Hne; now apply Hne).
  case_bool_decide as Haddr; [lia|].
  rewrite bool_decide_eq_true_2 by lia. lia.
Qed.

(** On a sequence of well-formed records, the hits of a walk down the
    prefix lengths are the supernets found, most specific first. *)
Lemma walk_hits_descending (c : AWSIPPrefixes) (n : IPNetwork) (lens : list Z)
    (hits : list AWSIPPrefix) :
  network_ok n = true ->
  Forall (fun p => network_ok (prefix p) = true) (sequence_of c (version n)) ->
  StronglySorted Z.gt lens -> Forall (fun q => 1 <= q <= prefixlen n) lens ->
  walk_hits c n lens = Ok hits ->
  StronglySorted (flip shorter_before) hits
  /\ Forall (fun p => exists q, q ∈ lens /\ prefix p = supernet_at n q) hits.
Proof.
  intros Hn Hseq Hsorted Hrange. revert hits.
  induction lens as [|q lens IH]; intros hits; simpl.
  - intros [= <-]. split; constructor.
  - apply StronglySorted_inv in Hsorted as [Hsorted Hq].
    apply Forall_cons in Hrange as [Hq1 Hrange].
    rewrite (supernet_ok n q Hn Hq1). simpl.
    destruct (_get_prefix c (supernet_at n q)) as [found|e] eqn:Eg; simpl; [|discriminate].
    destruct (walk_hits c n lens) as [tl|e]; simpl; [|discriminate].
    destruct (IH Hsorted Hrange tl eq_refl) as [IH1 IH2].
    assert (Forall (fun p => exists q0, q0 ∈ q :: lens /\ prefix p = supernet_at n q0) tl)
      as IH2'.
    { eapply Forall_impl; [exact IH2|]. simpl. intros p (q0 & Hq0 & E).
      exists q0. split; [apply elem_of_cons; now right|assumption]. }
    intros [= <-]. destruct found as [p|]; [|now split].
    apply get_prefix_sound in Eg as [Hp Heq]. simpl in Hp.
    assert (prefix p = supernet_at n q) as Ep.
    { apply network_eq_eq; [|apply supernet_at_ok; [assumption|lia]|assumption].
      rewrite Forall_forall in Hseq. now apply Hseq. }
    split.
    + constructor; [assumption|].
      apply Forall_forall. intros p' Hp'.
      rewrite Forall_forall in IH2. destruct (IH2 p' Hp') as (q' & Hq' & Ep').
      rewrite Forall_forall in Hq, Hrange.
      specialize (Hq q' Hq'). specialize (Hrange q' Hq').
      apply (supernets_ordered n p' p q' q); try assumption. lia.
    + constructor; [|assumption]. exists q. split; [apply elem_of_cons; now left|assumption].
Qed.

Lemma sorted_descending_reverse {A : Type} (lt : A -> A -> bool) (l : list A) :
  StronglySorted (fun a b => lt b a = true) l -> sorted lt l = reverse l.
Proof.
  intros H. rewrite (sorted_descending lt l H). unfold reverse.
  now rewrite rev_alt.
Qed.

Lemma elem_of_range_down (start q : Z) :
  q ∈ range_down_to_1 start <-> 1 <= q <= start.
Proof.
  split.
  - intros Hq. destruct (range_down_spec start) as [_ H].
    rewrite Forall_forall in H. now apply H.
  - intros Hq. unfold range_down_to_1. apply list_elem_of_fmap.
    exists (Z.to_nat (start - q)). split; [lia|].
    apply elem_of_seq. lia.
Qed.

(** What the loop of [__getitem__] computes on a collection, along
    strictly decreasing prefix lengths: the stored record that carries
    the supernet of the greatest of these lengths for which there is
    one, and [KeyError] when there is none. *)
Lemma getitem_loop_longest (c : AWSIPPrefixes) (n : IPNetwork) (lens : list Z) :
  collection c -> network_ok n = true ->
  StronglySorted Z.gt lens -> Forall (fun q => 1 <= q <= prefixlen n) lens ->
  match getitem_loop c n lens with
  | Ok r =>
      exists q, q ∈ lens
        /\ r ∈ sequence_of c (version n) /\ prefix r = supernet_at n q
        /\ forall q' p, q' ∈ lens -> q < q' -> p ∈ sequence_of c (version n) ->
                        prefix p <> supernet_at n q'
  | Raise e =>
      e = KeyError
      /\ forall q p, q ∈ lens -> p ∈ sequence_of c (version n) ->
                     prefix p <> supernet_at n q
  end.
Proof.
  intros Hc Hn Hsorted Hrange.
  induction lens as [|q lens IH]; simpl.
  - split; [reflexivity|]. intros q p Hq. now apply elem_of_nil in Hq.
  - apply StronglySorted_inv in Hsorted as [Hsorted Hq].
    apply Forall_cons in Hrange as [Hq1 Hrange].
    rewrite (supernet_ok n q Hn Hq1). simpl.
    pose proof (supernet_at_ok n q Hn ltac:(lia)) as Hmok.
    destruct (collection_records_ok c (version (supernet_at n q)) Hc) as [_ Hty].
    destruct (get_prefix_total c (supernet_at n q) Hty) as [found Hg].
    rewrite Hg. simpl.
    assert (forall p, p ∈ sequence_of c (version n) -> prefix p = supernet_at n q ->
              found = Some p) as Hexact.
    { intros p Hp Ep.
      assert (_get_prefix c (supernet_at n q) = Ok (Some p)) as Hg'
        by (apply get_prefix_exact; auto).
      congruence. }
    destruct found as [p|].
    + apply get_prefix_exact in Hg as [Hin Ep]; try assumption.
      exists q. split; [apply elem_of_cons; now left|]. split; [assumption|].
      split; [assumption|].
      intros q' p' Hq' Hlt. apply elem_of_cons in Hq' as [->|Hq']; [lia|].
      rewrite Forall_forall in Hq. specialize (Hq q' Hq'). lia.
    + specialize (IH Hsorted Hrange).
      destruct (getitem_loop c n lens) as [r|e].
      * destruct IH as (q0 & Hq0 & Hr & Er & Hmax).
        exists q0. split; [apply elem_of_cons; now right|]. split; [assumption|].
        split; [assumption|].
        intros q' p' Hq' Hlt Hp' Ep'. apply elem_of_cons in Hq' as [->|Hq'].
        -- specialize (Hexact p' Hp' Ep'). discriminate.
        -- now apply (Hmax q' p').
      * destruct IH as [-> Hnone]. split; [reflexivity|].
        intros q' p' Hq' Hp' Ep'. apply elem_of_cons in Hq' as [->|Hq'].
        -- specialize (Hexact p' Hp' Ep'). discriminate.
        -- now apply (Hnone q' p').
Qed.

(** [__getitem__] on a collection is the longest-prefix match over the
    prefix lengths from the item's own down to 1. *)
Lemma getitem_longest_match (c : AWSIPPrefixes) (i : item) :
  collection c -> item_ok i = true ->
  match __getitem__ c i with
  | Ok r =>
      exists q, 1 <= q <= prefixlen (item_network i)
        /\ r ∈ sequence_of c (version (item_network i))
        /\ prefix r = supernet_at (item_network i) q
        /\ forall q' p, q < q' <= prefixlen (item_network i) ->
                        p ∈ sequence_of c (version (item_network i)) ->
                        prefix p <> supernet_at (item_network i) q'
  | Raise e =>
      e = KeyError
      /\ forall q p, 1 <= q <= prefixlen (item_network i) ->
                     p ∈ sequence_of c (version (item_network i)) ->
                     prefix p <> supernet_at (item_network i) q
  end.
Proof.
  intros Hc Hi. apply item_network_ok in Hi. unfold __getitem__.
  destruct (range_down_spec (prefixlen (item_network i))) as [Hs Hr].
  pose proof (getitem_loop_longest c (item_network i) _ Hc Hi Hs Hr) as H.
  unfold supernets.
  destruct (getitem_loop c (item_network i) _) as [r|e].
  - destruct H as (q & Hq & Hin & Er & Hmax).
    exists q. apply elem_of_range_down in Hq.
    split; [assumption|]. split; [assumption|]. split; [assumption|].
    intros q' p Hq'. apply Hmax; [|lia]. apply elem_of_range_down. lia.
  - destruct H as [-> Hnone]. split; [reflexivity|].
    intros q p Hq. apply Hnone. now apply elem_of_range_down.
Qed.

End walks.

(* ================================================================== *)
(** * Properties of the package *)
(* ================================================================== *)

Lemma example_collection_built :
  __init__ (Some "1604000000"%string) (Some 1604000000) (Some feed_v4) (Some feed_v6)
    (Some feed_md5)
  = Ok example_collection.
Proof. vm_compute. reflexivity. Qed.

(** C3: for every collection the constructor returns, whatever records
    it was given, each of the two stored sequences is strictly
    ascending in the records' order ([__lt__]: IPv4 before IPv6, then
    network address, prefix length, region, network border group,
    services) and holds at most one record per network key. *)
Theorem stored_sequences_sorted_and_unique
    (sync_token : option string) (create_date : option datetime)
    (v4 v6 : list AWSIPPrefix) (md5 : option string) (c : AWSIPPrefixes) :
  __init__ sync_token create_date (Some v4) (Some v6) md5 = Ok c ->
  (ascending __lt__ (ipv4_prefixes c)
   /\ NoDup (prefix_key <$> ipv4_prefixes c)
   /\ NoDup (prefix <$> ipv4_prefixes c))
  /\
  (ascending __lt__ (ipv6_prefixes c)
   /\ NoDup (prefix_key <$> ipv6_prefixes c)
   /\ NoDup (prefix <$> ipv6_prefixes c)).
Proof.
  rewrite !init_given. intros Hc.
  destruct (_process_prefixes v4) as [o4|e] eqn:E4; simpl in Hc; [|discriminate].
  destruct (_process_prefixes v6) as [o6|e] eqn:E6; simpl in Hc; [|discriminate].
  injection Hc as <-. simpl.
  apply process_prefixes_inv in E4 as [[A4 N4] _].
  apply process_prefixes_inv in E6 as [[A6 N6] _].
  assert (forall l : list AWSIPPrefix, NoDup (prefix_key <$> l) -> NoDup (prefix <$> l)) as Hk.
  { intros l Hl. apply (NoDup_fmap_1 network_key).
    now rewrite <- list_fmap_compose. }
  repeat split; auto.
Qed.

Lemma stored_sequences_sorted_and_unique_witness :
  (ascending __lt__ (ipv4_prefixes example_collection)
   /\ NoDup (prefix_key <$> ipv4_prefixes example_collection)
   /\ NoDup (prefix <$> ipv4_prefixes example_collection))
  /\
  (ascending __lt__ (ipv6_prefixes example_collection)
   /\ NoDup (prefix_key <$> ipv6_prefixes example_collection)
   /\ NoDup (prefix <$> ipv6_prefixes example_collection)).
Proof.
  apply (stored_sequences_sorted_and_unique
           (Some "1604000000"%string) (Some 1604000000) feed_v4 feed_v6 (Some feed_md5)).
  vm_compute. reflexivity.
Defined.

Lemma init_fields (st : option string) (cd : option datetime)
    (v4 v6 : list AWSIPPrefix) (h : option string) (c : AWSIPPrefixes) :
  __init__ st cd (Some v4) (Some v6) h = Ok c ->
  sync_token c = st /\ create_date c = cd /\ md5 c = h
  /\ _process_prefixes v4 = Ok (ipv4_prefixes c)
  /\ _process_prefixes v6 = Ok (ipv6_prefixes c).
Proof.
  rewrite !init_given.
  destruct (_process_prefixes v4) as [o4|?]; simpl; [|discriminate].
  destruct (_process_prefixes v6) as [o6|?]; simpl; [|discriminate].
  intros [= <-]. simpl. auto.
Qed.

Lemma filter_unfold (c : AWSIPPrefixes) (r n s : arg string) (v : arg Z) :
  filter c r n s v =
  if bool_decide (requested r (regions c) ⊆ regions c) then
    if bool_decide (requested n (network_border_groups c) ⊆ network_border_groups c) then
      if bool_decide (requested s (services c) ⊆ services c) then
        if bool_decide (requested v {[ 4; 6 ]} ⊆ ({[ 4; 6 ]} : gset Z)) then
          __init__ (sync_token c) (create_date c)
            (Some (if bool_decide (4 ∉ requested v {[ 4; 6 ]}) then []
                   else List.filter
                          (selected (requested r (regions c))
                             (requested n (network_border_groups c))
                             (requested s (services c)))
                          (ipv4_prefixes c)))
            (Some (if bool_decide (6 ∉ requested v {[ 4; 6 ]}) then []
                   else List.filter
                          (selected (requested r (regions c))
                             (requested n (network_border_groups c))
                             (requested s (services c)))
                          (ipv6_prefixes c)))
            None
        else Raise ValueError
      else Raise ValueError
    else Raise ValueError
  else Raise ValueError.
Proof.
  unfold filter, validate_values, requested.
  repeat case_bool_decide; reflexivity.
Qed.

(** C2 (as the code has it): a successful [filter] hands the source's
    sync token and create date to the new collection unchanged; the
    content hash is not handed over, the new collection's [md5] is
    [None]. *)
Theorem filter_carries_token_and_date
    (c : AWSIPPrefixes) (r n s : arg string) (v : arg Z) (c' : AWSIPPrefixes) :
  filter c r n s v = Ok c' ->
  sync_token c' = sync_token c /\ create_date c' = create_date c /\ md5 c' = None.
Proof.
  rewrite filter_unfold.
  repeat (case_bool_decide; [|discriminate]).
  intros Hc. apply init_fields in Hc. tauto.
Qed.

Lemma filter_carries_token_and_date_witness :
  sync_token example_filtered = sync_token example_collection
  /\ create_date example_filtered = create_date example_collection
  /\ md5 example_filtered = None.
Proof.
  apply (filter_carries_token_and_date example_collection
           ArgNone ArgNone ArgNone ArgNone example_filtered).
  vm_compute. reflexivity.
Defined.

(** C2, as stated, fails: the collection built from the small feed
    carries a content hash, and the collection its [filter()] returns
    carries none. *)
Lemma filter_keeps_md5_counterexample :
  __init__ (Some "1604000000"%string) (Some 1604000000) (Some feed_v4) (Some feed_v6)
    (Some feed_md5)
    = Ok example_collection
  /\ filter example_collection ArgNone ArgNone ArgNone ArgNone = Ok example_filtered
  /\ md5 example_collection = Some feed_md5
  /\ md5 example_filtered = None
  /\ md5 example_filtered <> md5 example_collection.
Proof. repeat split; try (vm_compute; reflexivity). discriminate. Qed.

(** C5 (as the code has it): a record built with a single string for
    [services] stores the one-element tuple of that string; built with
    a tuple, it stores the tuple sorted ascending, every duplicate
    kept; every other kind of collection is refused with [TypeError]. *)
Theorem constructor_services
    (cls : IPVersion) (n : IPNetwork) (r g : string) :
  version n = cls ->
  (forall s, new_prefix cls n r g (ServicesStr s) = Ok (mkPrefix n r g [s]))
  /\
  (forall t, exists p,
      new_prefix cls n r g (ServicesTuple t) = Ok p
      /\ prefix p = n /\ region p = r /\ network_border_group p = g
      /\ awsipprefix.services p = builtins.sorted builtins.str_lt t
      /\ Sorted (not_gt builtins.str_lt) (awsipprefix.services p)
      /\ awsipprefix.services p ≡ₚ t)
  /\
  (forall l, new_prefix cls n r g (ServicesOther l) = Raise TypeError).
Proof.
  intros Hv. unfold new_prefix, AWSIPPrefix_init, mbind, result_bind.
  rewrite bool_decide_eq_true_2 by assumption.
  split; [reflexivity|]. split; [|reflexivity].
  intros t. eexists. split; [reflexivity|]. simpl.
  repeat split.
  - apply sorted_Sorted. apply _.
  - apply sorted_Permutation.
Qed.

Lemma constructor_services_witness :
  (forall s, new_prefix IPv4 net_10_8 "R1" "G1" (ServicesStr s)
             = Ok (mkPrefix net_10_8 "R1" "G1" [s]))
  /\
  (forall t, exists p,
      new_prefix IPv4 net_10_8 "R1" "G1" (ServicesTuple t) = Ok p
      /\ prefix p = net_10_8 /\ region p = "R1"%string
      /\ network_border_group p = "G1"%string
      /\ awsipprefix.services p = builtins.sorted builtins.str_lt t
      /\ Sorted (not_gt builtins.str_lt) (awsipprefix.services p)
      /\ awsipprefix.services p ≡ₚ t)
  /\
  (forall l, new_prefix IPv4 net_10_8 "R1" "G1" (ServicesOther l) = Raise TypeError).
Proof. apply (constructor_services IPv4 net_10_8). reflexivity. Defined.

(** C5, as stated, fails: a tuple that names a service twice is stored
    with the service twice. *)
Lemma constructor_deduplicates_counterexample :
  AWSIPv4Prefix net_10_8 "R1" "G1" (ServicesTuple ["S3"; "EC2"; "S3"])
    = Ok (mkPrefix net_10_8 "R1" "G1" ["EC2"; "S3"; "S3"])
  /\ ~ NoDup ["EC2"; "S3"; "S3"]%string.
Proof.
  split; [vm_compute; reflexivity|].
  intros H. apply NoDup_cons in H as [_ H]. apply NoDup_cons in H as [H _].
  apply H. apply elem_of_cons. now left.
Qed.

Lemma combined_services_ascending (ps : list AWSIPPrefix) :
  ascending builtins.str_lt
    (builtins.sorted builtins.str_lt
       (elements (list_to_set (concat (awsipprefix.services <$> ps)) : gset string))).
Proof.
  apply Sorted_NoDup_ascending; try apply _.
  - apply sorted_Sorted. apply _.
  - rewrite sorted_Permutation. apply NoDup_elements.
Qed.

Lemma combined_services_elem_of (ps : list AWSIPPrefix) (s : string) :
  s ∈ builtins.sorted builtins.str_lt
        (elements (list_to_set (concat (awsipprefix.services <$> ps)) : gset string))
  <-> exists p, p ∈ ps /\ s ∈ awsipprefix.services p.
Proof.
  rewrite sorted_Permutation, elem_of_elements, elem_of_list_to_set.
  rewrite list_elem_of_In, in_concat. split.
  - intros (ss & Hss & Hs). apply in_map_iff in Hss as (p & <- & Hp).
    exists p. now rewrite !list_elem_of_In.
  - intros (p & Hp & Hs). exists (awsipprefix.services p).
    rewrite <- !list_elem_of_In. split; [|assumption].
    apply list_elem_of_In, in_map. now apply list_elem_of_In.
Qed.

(** C4 (as the code has it): given a first record and at least one
    more, all with well-formed networks, [combine_prefixes]
    - raises [TypeError] when some record has another IP version than
      the first;
    - otherwise raises [ValueError] when some record differs from the
      first in network, region or network border group;
    - otherwise returns one record with the shared network (hence the
      same IP version), region and border group, whose services are
      strictly ascending (sorted, no duplicate) and are exactly the
      services of the given records. *)
Theorem combine_prefixes_contract (first : AWSIPPrefix) (rest : list AWSIPPrefix) :
  rest <> [] ->
  Forall (fun p => network_ok (prefix p) = true) (first :: rest) ->
  ((exists p, p ∈ rest /\ version (prefix p) <> version (prefix first)) ->
   combine_prefixes (first :: rest) = Raise TypeError)
  /\
  (Forall (fun p => version (prefix p) = version (prefix first)) rest ->
   (exists p, p ∈ rest /\
      (prefix p, region p, network_border_group p)
      <> (prefix first, region first, network_border_group first)) ->
   combine_prefixes (first :: rest) = Raise ValueError)
  /\
  (Forall (fun p => (prefix p, region p, network_border_group p)
                    = (prefix first, region first, network_border_group first)) rest ->
   exists r,
     combine_prefixes (first :: rest) = Ok r
     /\ prefix r = prefix first
     /\ region r = region first
     /\ network_border_group r = network_border_group first
     /\ ascending builtins.str_lt (awsipprefix.services r)
     /\ forall s, s ∈ awsipprefix.services r <->
                  exists p, p ∈ first :: rest /\ s ∈ awsipprefix.services p).
Proof.
  intros Hne Hok.
  apply Forall_cons in Hok as [Hok1 Hok].
  assert (forall p, p ∈ rest ->
            (same_block p first = true <->
             (prefix p, region p, network_border_group p)
             = (prefix first, region first, network_border_group first))) as Hblock.
  { intros p Hp. rewrite Forall_forall in Hok. specialize (Hok p Hp).
    unfold same_block. rewrite !andb_true_iff, !bool_decide_eq_true.
    split.
    - intros [[E1 E2] E3]. apply network_eq_eq in E1; try assumption. congruence.
    - intros [= E1 E2 E3]. rewrite E1. split; [split|]; try assumption.
      apply network_eq_refl. }
  assert ((1 < length (first :: rest))%nat) as Hlen
    by (destruct rest; [contradiction|simpl; lia]).
  unfold combine_prefixes. rewrite (bool_decide_eq_true_2 _ Hlen).
  split; [|split].
  - intros (p & Hp & Hv).
    destruct (forallb _ rest) eqn:E; [|reflexivity].
    rewrite forallb_forall in E. apply list_elem_of_In in Hp.
    specialize (E p Hp). apply bool_decide_eq_true in E. contradiction.
  - intros Hv (p & Hp & Hd).
    destruct (forallb (fun p => bool_decide _) rest) eqn:E.
    2:{ apply not_true_iff_false in E. destruct E. apply forallb_forall.
        intros q Hq. apply bool_decide_eq_true. rewrite Forall_forall in Hv.
        apply Hv. now apply list_elem_of_In. }
    destruct (forallb (fun p => same_block p first) rest) eqn:E'; [|reflexivity].
    rewrite forallb_forall in E'. destruct Hd. apply Hblock; [assumption|].
    apply E'. now apply list_elem_of_In.
  - intros Hall.
    assert (forallb (fun p => bool_decide (version (prefix p) = version (prefix first)))
              rest = true) as E.
    { apply forallb_forall. intros q Hq. apply bool_decide_eq_true.
      apply list_elem_of_In in Hq. rewrite Forall_forall in Hall.
      specialize (Hall q Hq). congruence. }
    assert (forallb (fun p => same_block p first) rest = true) as E'.
    { apply forallb_forall. intros q Hq. apply list_elem_of_In in Hq.
      apply Hblock; [assumption|]. rewrite Forall_forall in Hall. now apply Hall. }
    rewrite E, E'.
    unfold new_prefix, AWSIPPrefix_init, mbind, result_bind.
    rewrite bool_decide_eq_true_2 by reflexivity.
    eexists. split; [reflexivity|]. simpl.
    rewrite (sorted_idem builtins.str_lt).
    split; [reflexivity|]. split; [reflexivity|]. split; [reflexivity|].
    split.
    + apply (combined_services_ascending (first :: rest)).
    + apply (combined_services_elem_of (first :: rest)).
Qed.

Lemma combine_prefixes_contract_witness :
  exists r,
    combine_prefixes [rec_3_5_ec2; rec_3_5_s3] = Ok r
    /\ prefix r = prefix rec_3_5_ec2
    /\ region r = region rec_3_5_ec2
    /\ network_border_group r = network_border_group rec_3_5_ec2
    /\ ascending builtins.str_lt (awsipprefix.services r)
    /\ forall s, s ∈ awsipprefix.services r <->
                 exists p, p ∈ [rec_3_5_ec2; rec_3_5_s3] /\ s ∈ awsipprefix.services p.
Proof.
  destruct (combine_prefixes_contract rec_3_5_ec2 [rec_3_5_s3]) as (_ & _ & H).
  - discriminate.
  - repeat constructor.
  - apply H. repeat constructor.
Defined.

(** C4, as stated, fails: an IPv4 record followed by an IPv6 record is
    refused with [TypeError], not with [ValueError]. *)
Lemma combine_mixed_versions_counterexample :
  prefix rec_10_8 <> prefix rec6_2a05
  /\ combine_prefixes [rec_10_8; rec6_2a05] = Raise TypeError
  /\ combine_prefixes [rec_10_8; rec6_2a05] <> Raise ValueError.
Proof.
  split; [discriminate|]. split; [vm_compute; reflexivity|].
  intros H. vm_compute in H. discriminate.
Qed.

Lemma selected_spec (R N S : gset string) (p : AWSIPPrefix) :
  selected R N S p = true <->
  region p ∈ R /\ network_border_group p ∈ N
  /\ exists x, x ∈ awsipprefix.services p /\ x ∈ S.
Proof.
  unfold selected. rewrite !andb_true_iff, !bool_decide_eq_true.
  assert ((list_to_set (awsipprefix.services p) : gset string) ∩ S <> ∅
          <-> exists x, x ∈ awsipprefix.services p /\ x ∈ S) as ->.
  { split.
    - intros Hne. apply set_choose_L in Hne as [x Hx].
      apply elem_of_intersection in Hx as [Hx1 Hx2].
      apply elem_of_list_to_set in Hx1. eauto.
    - intros (x & Hx1 & Hx2) E.
      assert (x ∈ (list_to_set (awsipprefix.services p) : gset string) ∩ S) as Hx.
      { apply elem_of_intersection. split; [now apply elem_of_list_to_set|assumption]. }
      rewrite E in Hx. now apply not_elem_of_empty in Hx. }
  tauto.
Qed.

Lemma sequence_inv_nil : sequence_inv [].
Proof. split; constructor. Qed.

(** C6 (as the code has it): on a collection, [filter] raises
    [ValueError] when a requested region, border group or service is not
    among those of the collection, or a requested version is not 4 or 6
    (a parameter left out or empty stands for all observed values, the
    versions for 4 and 6).  Otherwise it returns a new collection that
    holds exactly the records of the source whose region and border
    group are requested, that have a requested service, and whose IP
    version is requested. *)
Theorem filter_contract (c : AWSIPPrefixes) (r n s : arg string) (v : arg Z) :
  collection c ->
  (~ (requested r (regions c) ⊆ regions c
      /\ requested n (network_border_groups c) ⊆ network_border_groups c
      /\ requested s (services c) ⊆ services c
      /\ requested v {[ 4; 6 ]} ⊆ ({[ 4; 6 ]} : gset Z)) ->
   filter c r n s v = Raise ValueError)
  /\
  (requested r (regions c) ⊆ regions c
   /\ requested n (network_border_groups c) ⊆ network_border_groups c
   /\ requested s (services c) ⊆ services c
   /\ requested v {[ 4; 6 ]} ⊆ ({[ 4; 6 ]} : gset Z) ->
   exists c',
     filter c r n s v = Ok c'
     /\ collection c'
     /\ ipv4_prefixes c' =
        (if bool_decide (4 ∈ requested v {[ 4; 6 ]})
         then List.filter (selected (requested r (regions c))
                             (requested n (network_border_groups c))
                             (requested s (services c))) (ipv4_prefixes c)
         else [])
     /\ ipv6_prefixes c' =
        (if bool_decide (6 ∈ requested v {[ 4; 6 ]})
         then List.filter (selected (requested r (regions c))
                             (requested n (network_border_groups c))
                             (requested s (services c))) (ipv6_prefixes c)
         else [])
     /\ forall p,
          p ∈ __iter__ c' <->
          (p ∈ __iter__ c
           /\ region p ∈ requested r (regions c)
           /\ network_border_group p ∈ requested n (network_border_groups c)
           /\ (exists x, x ∈ awsipprefix.services p /\ x ∈ requested s (services c))
           /\ version_number (version (prefix p)) ∈ requested v {[ 4; 6 ]})).
Proof.
  intros Hc. rewrite filter_unfold. split.
  - intros Hnot. repeat case_bool_decide; try reflexivity; tauto.
  - intros (HR & HN & HS & HV).
    rewrite !bool_decide_eq_true_2 by assumption.
    destruct (collection_inv c Hc) as (I4 & I6 & T4 & T6).
    set (sel := selected _ _ _).
    set (l4 := if bool_decide (4 ∉ _) then [] else List.filter sel (ipv4_prefixes c)).
    set (l6 := if bool_decide (6 ∉ _) then [] else List.filter sel (ipv6_prefixes c)).
    assert (sequence_inv l4) as J4
      by (subst l4; case_bool_decide;
          [apply sequence_inv_nil|now apply sequence_inv_filter]).
    assert (sequence_inv l6) as J6
      by (subst l6; case_bool_decide;
          [apply sequence_inv_nil|now apply sequence_inv_filter]).
    assert (forall p, p ∈ l4 <->
              4 ∈ requested v ({[ 4; 6 ]} : gset Z) /\ p ∈ ipv4_prefixes c /\ sel p = true)
      as M4.
    { intros p. subst l4. case_bool_decide as E.
      - rewrite elem_of_nil. tauto.
      - rewrite filter_elem_of.
        destruct (decide (4 ∈ requested v ({[ 4; 6 ]} : gset Z))); tauto. }
    assert (forall p, p ∈ l6 <->
              6 ∈ requested v ({[ 4; 6 ]} : gset Z) /\ p ∈ ipv6_prefixes c /\ sel p = true)
      as M6.
    { intros p. subst l6. case_bool_decide as E.
      - rewrite elem_of_nil. tauto.
      - rewrite filter_elem_of.
        destruct (decide (6 ∈ requested v ({[ 4; 6 ]} : gset Z))); tauto. }
    assert (forall p, p ∈ ipv4_prefixes c -> version (prefix p) = IPv4) as V4.
    { intros p Hp. rewrite Forall_forall in T4. specialize (T4 p Hp).
      unfold record_ok in T4. apply andb_true_iff in T4 as [T4 _].
      now apply bool_decide_eq_true in T4. }
    assert (forall p, p ∈ ipv6_prefixes c -> version (prefix p) = IPv6) as V6.
    { intros p Hp. rewrite Forall_forall in T6. specialize (T6 p Hp).
      unfold record_ok in T6. apply andb_true_iff in T6 as [T6 _].
      now apply bool_decide_eq_true in T6. }
    exists (mkPrefixes (sync_token c) (create_date c) l4 l6 None).
    assert (__init__ (sync_token c) (create_date c) (Some l4) (Some l6) None
            = Ok (mkPrefixes (sync_token c) (create_date c) l4 l6 None)) as Hinit.
    { rewrite !init_given. rewrite !process_prefixes_id by assumption. reflexivity. }
    split; [exact Hinit|]. split; [|split; [|split]].
    + exists (sync_token c), (create_date c), l4, l6, None.
      split; [|split; [|exact Hinit]].
      * apply forallb_forall. intros p Hp. apply list_elem_of_In, M4 in Hp.
        rewrite Forall_forall in T4. now apply T4.
      * apply forallb_forall. intros p Hp. apply list_elem_of_In, M6 in Hp.
        rewrite Forall_forall in T6. now apply T6.
    + simpl. subst l4. repeat case_bool_decide; try reflexivity; tauto.
    + simpl. subst l6. repeat case_bool_decide; try reflexivity; tauto.
    + intros p. unfold __iter__. simpl. rewrite !elem_of_app, M4, M6.
      subst sel. rewrite selected_spec. split.
      * intros [(Hv & Hp & Hsel)|(Hv & Hp & Hsel)].
        -- rewrite (V4 p Hp). simpl. tauto.
        -- rewrite (V6 p Hp). simpl. tauto.
      * intros ([Hp|Hp] & HR' & HN' & HS' & Hv).
        -- left. rewrite (V4 p Hp) in Hv. simpl in Hv. tauto.
        -- right. rewrite (V6 p Hp) in Hv. simpl in Hv. tauto.
Qed.

(** C7: when the ancestors lookup on a collection returns a tuple, the
    tuple is strictly ascending in the records' order, its prefix
    lengths strictly increase (shortest prefix first), and its last
    element is the record the longest-prefix-match lookup returns for
    the same item. *)
Theorem ancestors_ascending_and_end_with_match {D : Type}
    (c : AWSIPPrefixes) (key : item) (default : option D) (l : list AWSIPPrefix) :
  collection c -> item_ok key = true ->
  get_prefix_and_supernets c key default = Ok (inl l) ->
  ascending __lt__ l
  /\ StronglySorted (fun a b => prefixlen (prefix a) < prefixlen (prefix b)) l
  /\ exists r, last l = Some r /\ __getitem__ c key = Ok r.
Proof.
  intros Hc Hkey. apply item_network_ok in Hkey.
  unfold get_prefix_and_supernets, __getitem__.
  rewrite collect_loop_hits.
  destruct (walk_hits c (item_network key) (supernets (item_network key)))
    as [hits|e] eqn:Eh; simpl; [|discriminate].
  case_bool_decide as Hne; [|discriminate]. intros [= <-].
  destruct (range_down_spec (prefixlen (item_network key))) as [Hs Hr].
  destruct (collection_records_ok c (version (item_network key)) Hc) as [Hok _].
  destruct (walk_hits_descending c _ _ hits Hkey Hok Hs Hr Eh) as [Hdesc _].
  rewrite sorted_descending_reverse
    by (eapply StronglySorted_impl; [|exact Hdesc]; now intros a b [H _]).
  apply StronglySorted_reverse in Hdesc.
  split; [|split].
  - eapply StronglySorted_impl; [|exact Hdesc]. now intros a b [H _].
  - eapply StronglySorted_impl; [|exact Hdesc]. now intros a b [_ H].
  - rewrite last_reverse, (getitem_loop_hits c _ _ hits Eh).
    destruct hits as [|p hits]; [contradiction|]. now exists p.
Qed.

(** C8: when the longest-prefix-match lookup on a collection returns a
    record, looking up that record, or its network, in the same
    collection returns the same record. *)
Theorem getitem_idempotent (c : AWSIPPrefixes) (i : item) (r : AWSIPPrefix) :
  collection c -> item_ok i = true ->
  __getitem__ c i = Ok r ->
  __getitem__ c (ItemPrefix r) = Ok r
  /\ __getitem__ c (ItemNetwork (prefix r)) = Ok r.
Proof.
  intros Hc Hi. apply item_network_ok in Hi.
  unfold __getitem__ at 1. intros Hr.
  apply getitem_loop_Ok in Hr as (q & m & Hq & Hm & Hg).
  destruct (range_down_spec (prefixlen (item_network i))) as [_ Hrange].
  rewrite Forall_forall in Hrange. specialize (Hrange q Hq).
  rewrite (supernet_ok _ q Hi Hrange) in Hm. injection Hm as <-.
  pose proof (supernet_at_ok _ q Hi ltac:(lia)) as Hmok.
  destruct (get_prefix_sound _ _ _ Hg) as [Hin Heq].
  destruct (collection_records_ok c (version (supernet_at (item_network i) q)) Hc)
    as [Hok _].
  rewrite Forall_forall in Hok. specialize (Hok r Hin).
  apply network_eq_eq in Heq; try assumption.
  assert (getitem_loop c (prefix r) (supernets (prefix r)) = Ok r) as Hloop.
  { unfold supernets. rewrite Heq. simpl prefixlen.
    destruct (range_down_head q ltac:(lia)) as [rest ->].
    simpl. rewrite <- Heq at 1.
    rewrite (supernet_ok (prefix r) q Hok) by (rewrite Heq; simpl; lia).
    replace q with (prefixlen (prefix r)) at 1 by (rewrite Heq; reflexivity).
    rewrite (supernet_at_self _ Hok). simpl.
    rewrite Heq, Hg. reflexivity. }
  split; exact Hloop.
Qed.

Lemma walk_all_none (c : AWSIPPrefixes) (n : IPNetwork) (lens : list Z) :
  Forall (fun q => exists m, supernet n q = Ok m /\ _get_prefix c m = Ok None) lens ->
  walk_hits c n lens = Ok [].
Proof.
  induction 1 as [|q lens (m & Hm & Hg) _ IH]; simpl; [reflexivity|].
  rewrite Hm. simpl. rewrite Hg. simpl. rewrite IH. reflexivity.
Qed.

(** C10: on a collection, for an item none of whose supernets (of any
    prefix length from its own down to 0) is the network of a stored
    record, the ancestors lookup raises nothing and returns the default
    the caller gave ([None] when the caller gave none), where the
    longest-prefix-match lookup raises [KeyError]. *)
Theorem ancestors_default_when_nothing_matches {D : Type}
    (c : AWSIPPrefixes) (key : item) (default : option D) :
  collection c -> item_ok key = true ->
  (forall p q, p ∈ __iter__ c -> 0 <= q <= prefixlen (item_network key) ->
               prefix p <> supernet_at (item_network key) q) ->
  get_prefix_and_supernets c key default = Ok (inr default)
  /\ get_prefix_and_supernets c key (@None D) = Ok (inr None)
  /\ __getitem__ c key = Raise KeyError.
Proof.
  intros Hc Hkey Hnone. apply item_network_ok in Hkey.
  set (n := item_network key) in *.
  assert (walk_hits c n (supernets n) = Ok []) as Hw.
  { apply walk_all_none.
    destruct (range_down_spec (prefixlen n)) as [_ Hrange].
    eapply Forall_impl; [exact Hrange|]. simpl. intros q Hq.
    exists (supernet_at n q). split; [now apply supernet_ok|].
    destruct (collection_records_ok c (version (supernet_at n q)) Hc) as [Hok Hty].
    destruct (get_prefix_total c (supernet_at n q) Hty) as [[p|] Hg]; [|assumption].
    exfalso. destruct (get_prefix_sound _ _ _ Hg) as [Hin Heq].
    apply (Hnone p q); [|lia|].
    - unfold __iter__. apply elem_of_app. simpl in Hin.
      destruct (version n); [now left|now right].
    - apply network_eq_eq; try assumption.
      + rewrite Forall_forall in Hok. now apply Hok.
      + apply supernet_at_ok; [assumption|lia]. }
  unfold get_prefix_and_supernets, __getitem__. fold n.
  rewrite !collect_loop_hits, Hw, (getitem_loop_hits c n _ [] Hw).
  repeat split.
Qed.

Lemma filter_contract_witness :
  exists c',
    filter example_collection (ArgOne "R1"%string) ArgNone (ArgMany ["EC2"%string])
      (ArgOne 4) = Ok c'
    /\ ipv4_prefixes c' = [rec_10_16]
    /\ ipv6_prefixes c' = [].
Proof.
  destruct (filter_contract example_collection (ArgOne "R1"%string) ArgNone
              (ArgMany ["EC2"%string]) (ArgOne 4)) as [_ H].
  - built_from (Some "1604000000"%string) (Some 1604000000) feed_v4 feed_v6
      (Some feed_md5).
  - destruct H as (c' & Hf & _ & H4 & H6 & _).
    + repeat split; by_evaluation.
    + exists c'. split; [exact Hf|]. rewrite H4, H6.
      split; vm_compute; reflexivity.
Defined.

(** C6, as stated, fails: the collection below stores IPv4 records
    only, so version 6 is not among the values present in it, and its
    [filter(versions=6)] returns an (empty) collection where the claim
    has it raise. *)
Lemma filter_unobserved_version_counterexample :
  __init__ (Some "1604000000"%string) (Some 1604000000) (Some [rec_10_16; rec_10_8])
    (Some []) None
    = Ok ipv4_only_collection
  /\ Forall (fun p => version_number (version (prefix p)) <> 6)
       (__iter__ ipv4_only_collection)
  /\ filter ipv4_only_collection ArgNone ArgNone ArgNone (ArgOne 6)
     = Ok ipv4_only_filtered
  /\ filter ipv4_only_collection ArgNone ArgNone ArgNone (ArgOne 6)
     <> Raise ValueError.
Proof.
  split; [vm_compute; reflexivity|].
  split; [repeat constructor; discriminate|].
  split; [vm_compute; reflexivity|].
  intros H. vm_compute in H. discriminate.
Qed.

Lemma ancestors_ascending_and_end_with_match_witness :
  ascending __lt__ [rec_10_8; rec_10_16]
  /\ StronglySorted (fun a b => prefixlen (prefix a) < prefixlen (prefix b))
       [rec_10_8; rec_10_16]
  /\ exists r, last [rec_10_8; rec_10_16] = Some r
               /\ __getitem__ example_collection (ItemAddress IPv4 (ip4 10 0 1 5)) = Ok r.
Proof.
  apply (ancestors_ascending_and_end_with_match (D := unit) example_collection
           (ItemAddress IPv4 (ip4 10 0 1 5)) None [rec_10_8; rec_10_16]).
  - built_from (Some "1604000000"%string) (Some 1604000000) feed_v4 feed_v6
      (Some feed_md5).
  - reflexivity.
  - vm_compute. reflexivity.
Defined.

Lemma getitem_idempotent_witness :
  __getitem__ example_collection (ItemPrefix rec_10_16) = Ok rec_10_16
  /\ __getitem__ example_collection (ItemNetwork (prefix rec_10_16)) = Ok rec_10_16.
Proof.
  apply (getitem_idempotent example_collection (ItemAddress IPv4 (ip4 10 0 1 5))).
  - built_from (Some "1604000000"%string) (Some 1604000000) feed_v4 feed_v6
      (Some feed_md5).
  - reflexivity.
  - vm_compute. reflexivity.
Defined.

Lemma ancestors_default_when_nothing_matches_witness :
  get_prefix_and_supernets example_collection (ItemAddress IPv4 (ip4 192 0 2 1))
    (Some "no match"%string) = Ok (inr (Some "no match"%string))
  /\ get_prefix_and_supernets example_collection (ItemAddress IPv4 (ip4 192 0 2 1))
       (@None string) = Ok (inr None)
  /\ __getitem__ example_collection (ItemAddress IPv4 (ip4 192 0 2 1)) = Raise KeyError.
Proof.
  apply (ancestors_default_when_nothing_matches example_collection
           (ItemAddress IPv4 (ip4 192 0 2 1)) (Some "no match"%string)).
  - built_from (Some "1604000000"%string) (Some 1604000000) feed_v4 feed_v6
      (Some feed_md5).
  - reflexivity.
  - intros p q Hp Hq E.
    unfold __iter__, example_collection in Hp. simpl in Hp.
    repeat (apply elem_of_cons in Hp as [->|Hp]);
      [| | | |now apply elem_of_nil in Hp];
      pose proof (f_equal version E) as Ev;
      pose proof (f_equal prefixlen E) as El;
      simpl in Ev, El; try discriminate; subst q;
      vm_compute in E; discriminate.
Defined.

(** C1, where the code departs from it: the walk of [__getitem__] stops
    at prefix length 1.  On a collection that stores 0.0.0.0/0, the
    address 192.0.2.1 has that network as its supernet of length 0, the
    exact lookup of that supernet returns the stored record, the record
    contains the address, and still [__getitem__] raises [KeyError],
    for the address and for the stored record itself. *)
Theorem getitem_never_tries_prefix_length_0 :
  __init__ None None (Some [rec_10_8; rec_default]) (Some []) None
  = Ok default_route_collection
  /\ supernets (item_network (ItemAddress IPv4 (ip4 192 0 2 1)))
     = [32; 31; 30; 29; 28; 27; 26; 25; 24; 23; 22; 21; 20; 19; 18; 17;
        16; 15; 14; 13; 12; 11; 10; 9; 8; 7; 6; 5; 4; 3; 2; 1]
  /\ supernet (item_network (ItemAddress IPv4 (ip4 192 0 2 1))) 0 = Ok net_default
  /\ _get_prefix default_route_collection net_default = Ok (Some rec_default)
  /\ awsipprefix.__contains__ rec_default
       (item_network (ItemAddress IPv4 (ip4 192 0 2 1))) = Ok true
  /\ __getitem__ default_route_collection (ItemAddress IPv4 (ip4 192 0 2 1))
     = Raise KeyError
  /\ supernets (item_network (ItemPrefix rec_default)) = []
  /\ __getitem__ default_route_collection (ItemPrefix rec_default) = Raise KeyError
  /\ awsipprefixes.__contains__ default_route_collection (ItemPrefix rec_default)
     = Ok false.
Proof. repeat split; vm_compute; reflexivity. Qed.

(* ================================================================== *)
(** * Further properties: networks that contain networks *)
(* ================================================================== *)

Lemma testbit_ones (k i : Z) : 0 <= k -> 0 <= i -> Z.testbit (Z.ones k) i = (i <? k).
Proof.
  intros Hk Hi. destruct (Z.ltb_spec i k).
  - apply Z.ones_spec_low. lia.
  - apply Z.ones_spec_high. lia.
Qed.

Lemma hostmask_ones (n : IPNetwork) :
  0 <= prefixlen n <= max_prefixlen (version n) ->
  hostmask n = Z.ones (max_prefixlen (version n) - prefixlen n).
Proof.
  intros Hp. unfold hostmask, netmask. apply Z.bits_inj'. intros i Hi.
  rewrite Z.lxor_spec, testbit_mask, testbit_ALL_ONES, testbit_ones by lia.
  destruct (Z.leb_spec (max_prefixlen (version n) - prefixlen n) i),
    (Z.ltb_spec i (max_prefixlen (version n))),
    (Z.ltb_spec i (max_prefixlen (version n) - prefixlen n));
    simpl; try reflexivity; lia.
Qed.

Lemma canonical_low_bits (n : IPNetwork) :
  network_ok n = true ->
  Z.land (network_address n) (Z.ones (max_prefixlen (version n) - prefixlen n)) = 0.
Proof.
  intros Hn. apply network_ok_spec in Hn as (Hp & Ha & Hc).
  rewrite <- Hc. unfold netmask. apply Z.bits_inj'. intros i Hi.
  rewrite !Z.land_spec, testbit_mask, testbit_ones, Z.bits_0 by lia.
  destruct (Z.testbit (network_address n) i),
    (Z.leb_spec (max_prefixlen (version n) - prefixlen n) i),
    (Z.ltb_spec i (max_prefixlen (version n))),
    (Z.ltb_spec i (max_prefixlen (version n) - prefixlen n));
    simpl; try reflexivity; lia.
Qed.

(** The last address of a well-formed network. *)
Lemma broadcast_closed (n : IPNetwork) :
  network_ok n = true ->
  broadcast_address n
  = network_address n + 2 ^ (max_prefixlen (version n) - prefixlen n) - 1.
Proof.
  intros Hn. pose proof (canonical_low_bits n Hn) as Hlow.
  apply network_ok_spec in Hn as (Hp & _).
  unfold broadcast_address. rewrite hostmask_ones by assumption.
  rewrite <- Z.lxor_lor, <- Z.add_nocarry_lxor by assumption.
  rewrite Z.ones_equiv. lia.
Qed.

Lemma canonical_mod (n : IPNetwork) :
  network_ok n = true ->
  network_address n mod 2 ^ (max_prefixlen (version n) - prefixlen n) = 0.
Proof.
  intros Hn. pose proof (canonical_low_bits n Hn) as Hlow.
  apply network_ok_spec in Hn as (Hp & _).
  rewrite Z.land_ones in Hlow by lia. exact Hlow.
Qed.

(** Masking with the netmask of [q] clears the low bits. *)
Lemma land_mask_arith (v : IPVersion) (a q : Z) :
  0 <= a <= ALL_ONES v -> 0 <= q <= max_prefixlen v ->
  Z.land a (ip_int_from_prefix v q) = a - a mod 2 ^ (max_prefixlen v - q).
Proof.
  intros Ha Hq.
  assert (Z.land (Z.land a (ip_int_from_prefix v q))
            (Z.land a (Z.ones (max_prefixlen v - q))) = 0) as Hdis.
  { apply Z.bits_inj'. intros i Hi.
    rewrite !Z.land_spec, testbit_mask, testbit_ones, Z.bits_0 by lia.
    destruct (Z.testbit a i), (Z.leb_spec (max_prefixlen v - q) i),
      (Z.ltb_spec i (max_prefixlen v)), (Z.ltb_spec i (max_prefixlen v - q));
      simpl; try reflexivity; lia. }
  assert (Z.lor (Z.land a (ip_int_from_prefix v q))
            (Z.land a (Z.ones (max_prefixlen v - q))) = a) as Hall.
  { apply Z.bits_inj'. intros i Hi.
    rewrite Z.lor_spec, !Z.land_spec, testbit_mask, testbit_ones by lia.
    destruct (Z.ltb_spec i (max_prefixlen v)).
    - destruct (Z.testbit a i), (Z.leb_spec (max_prefixlen v - q) i),
        (Z.ltb_spec i (max_prefixlen v - q)); simpl; try reflexivity; lia.
    - rewrite (testbit_address_high v a i) by lia. reflexivity. }
  rewrite <- Z.lxor_lor, <- Z.add_nocarry_lxor in Hall by assumption.
  rewrite Z.land_ones in Hall by lia. lia.
Qed.

(** One aligned block lies inside another exactly when the other has
    the shorter prefix and starts where the first, cut to that prefix,
    starts. *)
Lemma block_containment (W pa pb A B : Z) :
  0 <= pa <= W -> 0 <= pb <= W -> 0 <= A -> 0 <= B ->
  A mod 2 ^ (W - pa) = 0 -> B mod 2 ^ (W - pb) = 0 ->
  (B <= A /\ A + 2 ^ (W - pa) - 1 <= B + 2 ^ (W - pb) - 1)
  <-> (pb <= pa /\ A - A mod 2 ^ (W - pb) = B).
Proof.
  intros Hpa Hpb HA HB HmA HmB.
  assert (0 < 2 ^ (W - pa)) as Hka by (apply Z.pow_pos_nonneg; lia).
  assert (0 < 2 ^ (W - pb)) as Hkb by (apply Z.pow_pos_nonneg; lia).
  split.
  - intros [Hle Hhi].
    assert (W - pa <= W - pb) as Hexp.
    { apply (Z.pow_le_mono_r_iff 2); lia. }
    split; [lia|].
    apply Z_div_exact_full_2 in HmB; [|lia].
    assert (A = (A - B) + (B / 2 ^ (W - pb)) * 2 ^ (W - pb)) as EA by lia.
    rewrite EA at 2. rewrite Z_mod_plus_full, Z.mod_small by lia. lia.
  - intros [Hp E].
    pose proof (Z.mod_pos_bound A (2 ^ (W - pb)) Hkb) as Hmod.
    split; [lia|].
    assert (2 ^ (W - pb) = 2 ^ (W - pa) * 2 ^ (pa - pb)) as Ek.
    { rewrite <- Z.pow_add_r by lia. f_equal. lia. }
    assert (0 < 2 ^ (pa - pb)) as Hm by (apply Z.pow_pos_nonneg; lia).
    apply Z_div_exact_full_2 in HmA; [|lia].
    assert (A mod 2 ^ (W - pb)
            = 2 ^ (W - pa) * ((A / 2 ^ (W - pa)) mod 2 ^ (pa - pb))) as Emod.
    { rewrite HmA at 1. rewrite Ek. apply Z.mul_mod_distr_l; lia. }
    pose proof (Z.mod_pos_bound (A / 2 ^ (W - pa)) (2 ^ (pa - pb)) Hm) as Hx.
    rewrite <- E. rewrite Emod, Ek. nia.
Qed.

(** [subnet_of] on well-formed networks of one version. *)
Lemma subnet_of_spec (a b : IPNetwork) :
  network_ok a = true -> network_ok b = true -> version a = version b ->
  subnet_of a b
  = Ok (bool_decide (prefixlen b <= prefixlen a /\ supernet_at a (prefixlen b) = b)).
Proof.
  intros Ha Hb Hv. unfold subnet_of.
  rewrite bool_decide_eq_false_2 by (intros Hne; now apply Hne).
  f_equal.
  rewrite (broadcast_closed a Ha), (broadcast_closed b Hb).
  pose proof (canonical_mod a Ha) as HmA. pose proof (canonical_mod b Hb) as HmB.
  apply network_ok_spec in Ha as (Hpa & HA & _).
  apply network_ok_spec in Hb as (Hpb & HB & _).
  rewrite <- Hv in *.
  pose proof (block_containment (max_prefixlen (version a)) (prefixlen a) (prefixlen b)
                (network_address a) (network_address b)
                Hpa Hpb ltac:(lia) ltac:(lia) HmA HmB) as Hblock.
  assert (supernet_at a (prefixlen b) = b
          <-> network_address a
              - network_address a mod 2 ^ (max_prefixlen (version a) - prefixlen b)
              = network_address b) as Hsup.
  { unfold supernet_at. rewrite land_mask_arith by lia.
    destruct b as [vb ab pb]. simpl in *. subst vb.
    split; [intros [= E]; exact E|intros ->; reflexivity]. }
  destruct (bool_decide _) eqn:E.
  - apply bool_decide_eq_true in E as [E1 E2].
    apply andb_true_iff. rewrite !Z.leb_le. apply Hblock. tauto.
  - apply bool_decide_eq_false in E.
    apply not_true_iff_false. intros H.
    apply andb_true_iff in H. rewrite !Z.leb_le in H.
    apply E. apply Hblock in H. tauto.
Qed.

(** X1: for a record and a query network, both well formed, the
    record's membership test never raises: it answers [True] exactly
    when the query has the record's IP version, a prefix at least as
    long as the record's, and the record's network is the query's
    supernet of the record's prefix length. *)
Theorem record_contains_iff_supernet (r : AWSIPPrefix) (n : IPNetwork) :
  network_ok (prefix r) = true -> network_ok n = true ->
  awsipprefix.__contains__ r n
  = Ok (bool_decide (version n = version (prefix r)
                     /\ prefixlen (prefix r) <= prefixlen n
                     /\ supernet_at n (prefixlen (prefix r)) = prefix r)).
Proof.
  intros Hr Hn. unfold awsipprefix.__contains__.
  case_bool_decide as Hv.
  - rewrite bool_decide_eq_false_2 by tauto. reflexivity.
  - assert (version n = version (prefix r)) as Ev
      by (destruct (decide (version n = version (prefix r))); tauto).
    rewrite (subnet_of_spec n (prefix r) Hn Hr Ev). f_equal.
    apply bool_decide_ext. tauto.
Qed.

Lemma record_contains_iff_supernet_witness :
  awsipprefix.__contains__ rec_10_8 (ip_network_of_address IPv4 (ip4 10 0 1 5))
  = Ok (bool_decide
          (version (ip_network_of_address IPv4 (ip4 10 0 1 5)) = version (prefix rec_10_8)
           /\ prefixlen (prefix rec_10_8)
              <= prefixlen (ip_network_of_address IPv4 (ip4 10 0 1 5))
           /\ supernet_at (ip_network_of_address IPv4 (ip4 10 0 1 5))
                (prefixlen (prefix rec_10_8)) = prefix rec_10_8)).
Proof.
  apply (record_contains_iff_supernet rec_10_8 (ip_network_of_address IPv4 (ip4 10 0 1 5)));
    vm_compute; reflexivity.
Defined.

(** X2: [supernets] of a well-formed network visits the prefix lengths
    from the network's own down to 1, one each, in decreasing order
    (none for a /0).  At each of them [supernet] succeeds with a
    well-formed network of that length and of the same version that
    contains the subnet, and at the subnet's own length it is the
    subnet itself. *)
Theorem supernets_chain (subnet : IPNetwork) :
  network_ok subnet = true ->
  length (supernets subnet) = Z.to_nat (prefixlen subnet)
  /\ StronglySorted Z.gt (supernets subnet)
  /\ (forall q, q ∈ supernets subnet <-> 1 <= q <= prefixlen subnet)
  /\ (forall q, q ∈ supernets subnet ->
        exists s, supernet subnet q = Ok s
          /\ network_ok s = true /\ version s = version subnet /\ prefixlen s = q
          /\ subnet_of subnet s = Ok true
          /\ (q = prefixlen subnet -> s = subnet)).
Proof.
  intros Hn. unfold supernets.
  split; [unfold builtins.range_down_to_1; now rewrite length_fmap, length_seq|].
  split; [apply range_down_spec|].
  split; [intros q; apply elem_of_range_down|].
  intros q Hq. apply elem_of_range_down in Hq.
  exists (supernet_at subnet q).
  pose proof (supernet_at_ok subnet q Hn ltac:(lia)) as Hs.
  split; [now apply supernet_ok|]. split; [assumption|].
  split; [reflexivity|]. split; [reflexivity|]. split.
  - rewrite (subnet_of_spec subnet (supernet_at subnet q) Hn Hs eq_refl).
    f_equal. apply bool_decide_eq_true. simpl. split; [lia|reflexivity].
  - intros ->. now apply supernet_at_self.
Qed.

Lemma supernets_chain_witness :
  length (supernets net_10_16) = Z.to_nat (prefixlen net_10_16)
  /\ StronglySorted Z.gt (supernets net_10_16)
  /\ (forall q, q ∈ supernets net_10_16 <-> 1 <= q <= prefixlen net_10_16)
  /\ (forall q, q ∈ supernets net_10_16 ->
        exists s, supernet net_10_16 q = Ok s
          /\ network_ok s = true /\ version s = version net_10_16 /\ prefixlen s = q
          /\ subnet_of net_10_16 s = Ok true
          /\ (q = prefixlen net_10_16 -> s = net_10_16)).
Proof. apply (supernets_chain net_10_16). vm_compute. reflexivity. Defined.

(* ================================================================== *)
(** * Further properties: comparing records *)
(* ================================================================== *)

Lemma record_eq_spec (a b : AWSIPPrefix) :
  network_ok (prefix a) = true -> network_ok (prefix b) = true ->
  (__eq__ a b = true <-> a = b).
Proof.
  intros Ha Hb. unfold __eq__. rewrite !andb_true_iff, !bool_decide_eq_true.
  split.
  - intros [[[E1 E2] E3] E4]. apply network_eq_eq in E1; try assumption.
    destruct a, b. simpl in *. congruence.
  - intros ->. rewrite network_eq_refl. tauto.
Qed.

Lemma lt_is_network_before (a b : AWSIPPrefix) :
  version (prefix a) = version (prefix b) -> prefix a <> prefix b ->
  __lt__ a b = network_before (prefix a) (prefix b).
Proof.
  intros Hv Hne. unfold __lt__, network_before. rewrite Hv.
  rewrite bool_decide_eq_false_2 by (intros H; now apply H).
  destruct (prefix a) as [va aa la], (prefix b) as [vb ab lb]. simpl in *. subst vb.
  case_bool_decide as Ea.
  - destruct (Z.eqb_spec aa ab); [contradiction|]. now rewrite orb_false_r.
  - assert (aa = ab) as -> by (destruct (Z.eq_dec aa ab); tauto).
    rewrite Z.ltb_irrefl, Z.eqb_refl. simpl.
    rewrite bool_decide_eq_true_2; [reflexivity|]. intros ->. now apply Hne.
Qed.

(** X3: on well-formed records the six comparison operators agree with
    one another: [==] holds exactly between equal records, exactly one
    of [a < b], [a == b], [b < a] holds, and the derived [>], [<=], [>=]
    are the mirror image and the negations of [<]. *)
Theorem comparisons_consistent (a b : AWSIPPrefix) :
  network_ok (prefix a) = true -> network_ok (prefix b) = true ->
  (__eq__ a b = true <-> a = b)
  /\ __eq__ a b = negb (__lt__ a b) && negb (__lt__ b a)
  /\ __lt__ a b && __lt__ b a = false
  /\ __gt__ a b = __lt__ b a
  /\ __le__ a b = negb (__lt__ b a)
  /\ __ge__ a b = __le__ b a.
Proof.
  intros Ha Hb. pose proof (record_eq_spec a b Ha Hb) as Heq.
  pose proof (record_eq_spec b a Hb Ha) as Heq'.
  split; [exact Heq|].
  unfold __gt__, __le__, __ge__.
  destruct (decide (a = b)) as [->|Hne].
  - rewrite (proj2 Heq eq_refl), (ltb_irrefl (lt := __lt__)). repeat split.
  - assert (__eq__ a b = false) as E1
      by (apply not_true_iff_false; intros H; now apply Heq in H).
    assert (__eq__ b a = false) as E2
      by (apply not_true_iff_false; intros H; apply Heq' in H; congruence).
    rewrite E1, E2.
    destruct (__lt__ a b) eqn:L1.
    + rewrite (ltb_asym __lt__ a b L1). repeat split.
    + destruct (__lt__ b a) eqn:L2; [repeat split|].
      destruct Hne. now apply (ltb_total (lt := __lt__)).
Qed.

Lemma comparisons_consistent_witness :
  (__eq__ rec_10_8 rec_10_16 = true <-> rec_10_8 = rec_10_16)
  /\ __eq__ rec_10_8 rec_10_16
     = negb (__lt__ rec_10_8 rec_10_16) && negb (__lt__ rec_10_16 rec_10_8)
  /\ __lt__ rec_10_8 rec_10_16 && __lt__ rec_10_16 rec_10_8 = false
  /\ __gt__ rec_10_8 rec_10_16 = __lt__ rec_10_16 rec_10_8
  /\ __le__ rec_10_8 rec_10_16 = negb (__lt__ rec_10_16 rec_10_8)
  /\ __ge__ rec_10_8 rec_10_16 = __le__ rec_10_16 rec_10_8.
Proof. apply (comparisons_consistent rec_10_8 rec_10_16); vm_compute; reflexivity. Defined.

(** X4: comparing a well-formed record with a bare network of the same
    version raises nothing and gives what comparing it with any record
    that carries that network gives, as long as the two networks
    differ; with its own network it gives [False].  With a network of
    the other version it raises [TypeError], where two records of
    different versions compare without error, IPv4 first. *)
Theorem lt_network_agrees_with_lt (a b : AWSIPPrefix) :
  network_ok (prefix a) = true -> network_ok (prefix b) = true ->
  (version (prefix a) = version (prefix b) ->
   lt_network a (prefix b)
   = Ok (if bool_decide (prefix a = prefix b) then false else __lt__ a b))
  /\
  (version (prefix a) <> version (prefix b) ->
   lt_network a (prefix b) = Raise TypeError
   /\ __lt__ a b = bool_decide (version (prefix a) = IPv4)).
Proof.
  intros Ha Hb. split.
  - intros Hv. rewrite (lt_network_spec a (prefix b) Hv Ha Hb). f_equal.
    case_bool_decide as E.
    + rewrite E. apply network_before_irrefl.
    + symmetry. now apply lt_is_network_before.
  - intros Hv. split.
    + unfold lt_network, network_eq, network_lt.
      rewrite (bool_decide_eq_false_2 (version (prefix a) = version (prefix b)))
        by assumption.
      simpl. now rewrite bool_decide_eq_true_2.
    + unfold __lt__.
      destruct (version (prefix a)), (version (prefix b)); try contradiction;
        reflexivity.
Qed.

Lemma lt_network_agrees_with_lt_witness :
  (version (prefix rec_10_8) = version (prefix rec_10_16) ->
   lt_network rec_10_8 (prefix rec_10_16)
   = Ok (if bool_decide (prefix rec_10_8 = prefix rec_10_16) then false
         else __lt__ rec_10_8 rec_10_16))
  /\
  (version (prefix rec_10_8) <> version (prefix rec_10_16) ->
   lt_network rec_10_8 (prefix rec_10_16) = Raise TypeError
   /\ __lt__ rec_10_8 rec_10_16 = bool_decide (version (prefix rec_10_8) = IPv4)).
Proof. apply (lt_network_agrees_with_lt rec_10_8 rec_10_16); vm_compute; reflexivity. Defined.

(* ================================================================== *)
(** * Further properties: what the constructor builds *)
(* ================================================================== *)

Lemma collect_snoc (l : list AWSIPPrefix) (p : AWSIPPrefix) :
  collect_duplicates (l ++ [p]) = dict_append (prefix p) p (collect_duplicates l).
Proof. unfold collect_duplicates. now rewrite fold_left_app. Qed.

Lemma dict_append_keys_incl (key : IPNetwork) (p : AWSIPPrefix)
    (d : list (IPNetwork * list AWSIPPrefix)) (x : IPVersion * Z * Z) :
  x ∈ dict_keys d \/ x = network_key key -> x ∈ dict_keys (dict_append key p d).
Proof.
  unfold dict_keys. induction d as [|[k ps] d IH]; simpl.
  - intros [H| ->]; [now apply elem_of_nil in H|]. apply elem_of_cons. now left.
  - destruct (network_eq k key) eqn:E; simpl.
    + intros [H| ->]; [assumption|]. apply network_eq_key in E. rewrite <- E.
      apply elem_of_cons. now left.
    + intros [H| ->].
      * apply elem_of_cons in H as [->|H]; apply elem_of_cons; [now left|].
        right. apply IH. now left.
      * apply elem_of_cons. right. apply IH. now right.
Qed.

Lemma collect_keys_cover (l : list AWSIPPrefix) (q : AWSIPPrefix) :
  q ∈ l -> prefix_key q ∈ dict_keys (collect_duplicates l).
Proof.
  induction l as [|p l IH] using rev_ind; [intros H; now apply elem_of_nil in H|].
  rewrite collect_snoc. intros Hq. apply dict_append_keys_incl.
  apply elem_of_app in Hq as [Hq|Hq]; [left; now apply IH|].
  apply list_elem_of_singleton in Hq as ->. now right.
Qed.

Lemma group_of_snoc (l : list AWSIPPrefix) (p : AWSIPPrefix) (k : IPNetwork) :
  group_of (l ++ [p]) k
  = group_of l k ++ (if network_eq k (prefix p) then [p] else []).
Proof. unfold group_of. rewrite List.filter_app. reflexivity. Qed.

Lemma group_of_elem_of (l : list AWSIPPrefix) (k : IPNetwork) (p : AWSIPPrefix) :
  p ∈ group_of l k <-> p ∈ l /\ prefix_key p = network_key k.
Proof.
  unfold group_of. rewrite filter_elem_of, network_eq_key. unfold prefix_key.
  split; intros [H1 H2]; split; congruence.
Qed.

Lemma dict_append_groups_exact (l : list AWSIPPrefix) (p : AWSIPPrefix)
    (d : list (IPNetwork * list AWSIPPrefix)) :
  NoDup (dict_keys d) ->
  (prefix_key p ∉ dict_keys d -> group_of l (prefix p) = []) ->
  Forall (fun kps => snd kps = group_of l (fst kps)) d ->
  Forall (fun kps => snd kps = group_of (l ++ [p]) (fst kps))
    (dict_append (prefix p) p d).
Proof.
  induction d as [|[k ps] d IH]; simpl; intros Hnd Hfresh Hd.
  - constructor; [|constructor]. simpl.
    rewrite group_of_snoc, network_eq_refl, Hfresh; [reflexivity|].
    unfold dict_keys. simpl. apply not_elem_of_nil.
  - apply Forall_cons in Hd as [Hps Hd]. simpl in Hps.
    unfold dict_keys in Hnd. simpl in Hnd. apply NoDup_cons in Hnd as [Hk Hnd].
    destruct (network_eq k (prefix p)) eqn:E.
    + constructor.
      * simpl. now rewrite group_of_snoc, E, Hps.
      * apply Forall_forall. intros [k' ps'] Hin.
        rewrite Forall_forall in Hd. pose proof (Hd _ Hin) as Hg. simpl in *.
        rewrite group_of_snoc, Hg.
        destruct (network_eq k' (prefix p)) eqn:E'; [|now rewrite app_nil_r].
        exfalso. apply Hk. apply network_eq_key in E, E'.
        rewrite E, <- E'. apply list_elem_of_fmap. now exists (k', ps').
    + constructor.
      * simpl. now rewrite group_of_snoc, E, app_nil_r.
      * apply IH; try assumption.
        intros Hnot. apply Hfresh. unfold dict_keys. simpl.
        apply not_elem_of_cons. split; [|exact Hnot].
        intros Heq. unfold prefix_key in Heq. symmetry in Heq.
        apply network_eq_key in Heq. congruence.
Qed.

(** The dictionary of [_process_prefixes] holds, under each key, the
    records of the feed with that key, in the order of the feed. *)
Lemma collect_groups (l : list AWSIPPrefix) :
  Forall (fun kps => snd kps = group_of l (fst kps)) (collect_duplicates l).
Proof.
  induction l as [|p l IH] using rev_ind; [constructor|].
  rewrite collect_snoc. apply dict_append_groups_exact.
  - apply collect_duplicates_inv.
  - intros Hfresh. destruct (group_of l (prefix p)) as [|q g] eqn:Eg; [reflexivity|].
    exfalso. apply Hfresh.
    assert (q ∈ group_of l (prefix p)) as Hq by (rewrite Eg; apply elem_of_cons; now left).
    apply group_of_elem_of in Hq as [Hq Hk]. unfold prefix_key at 1. rewrite <- Hk.
    now apply collect_keys_cover.
  - exact IH.
Qed.

Lemma forallb_ext_Forall {A : Type} (f g : A -> bool) (l : list A) :
  Forall (fun x => f x = g x) l -> forallb f l = forallb g l.
Proof. induction 1 as [|x l Hx _ IH]; simpl; [reflexivity|]. now rewrite Hx, IH. Qed.

(** [deduplicate] on a group of records with one network key. *)
Lemma deduplicate_cases (first : AWSIPPrefix) (rest : list AWSIPPrefix) :
  Forall (fun p => prefix_key p = prefix_key first) rest ->
  deduplicate (first :: rest)
  = if forallb (same_origin first) rest then Ok (merged first rest)
    else Raise ValueError.
Proof.
  intros Hkey. destruct rest as [|q rest]; [reflexivity|].
  unfold deduplicate, combine_prefixes.
  rewrite bool_decide_eq_true_2 by (simpl; lia).
  assert (forallb (fun p => bool_decide (version (prefix p) = version (prefix first)))
            (q :: rest) = true) as ->.
  { apply forallb_forall. intros p Hp. apply bool_decide_eq_true.
    rewrite Forall_forall in Hkey. apply list_elem_of_In in Hp.
    specialize (Hkey p Hp). unfold prefix_key, network_key in Hkey. congruence. }
  rewrite (forallb_ext_Forall (fun p => same_block p first) (same_origin first)).
  2:{ eapply Forall_impl; [exact Hkey|]. simpl. intros p Hp.
      unfold same_block, same_origin.
      apply network_eq_key in Hp. now rewrite Hp. }
  destruct (forallb (same_origin first) (q :: rest)); [|reflexivity].
  unfold new_prefix, AWSIPPrefix_init, mbind, result_bind.
  rewrite bool_decide_eq_true_2 by reflexivity.
  unfold merged. now rewrite (sorted_idem builtins.str_lt).
Qed.

Lemma mapM_Raise {A B : Type} (f : A -> result B) (l : list A) (e : exn) :
  mapM f l = Raise e -> exists x, x ∈ l /\ f x = Raise e.
Proof.
  induction l as [|x l IH]; simpl; [discriminate|].
  destruct (f x) as [y|e'] eqn:Ex; simpl.
  - destruct (mapM f l) as [k|e'] eqn:El; simpl; [discriminate|].
    intros [= ->]. destruct (IH eq_refl) as (x' & Hx' & E).
    exists x'. split; [apply elem_of_cons; now right|assumption].
  - intros [= ->]. exists x. split; [apply elem_of_cons; now left|assumption].
Qed.

Lemma mapM_all_Ok {A B : Type} (f : A -> result B) (l : list A) :
  Forall (fun x => exists y, f x = Ok y) l -> exists out, mapM f l = Ok out.
Proof.
  induction 1 as [|x l [y Hy] _ [out IH]]; simpl; [now exists []|].
  rewrite Hy. simpl. rewrite IH. simpl. now exists (y :: out).
Qed.

(** Every group of the dictionary is [first :: rest] with the key of
    [first] throughout. *)
Lemma collected_group_shape (l : list AWSIPPrefix) (kps : IPNetwork * list AWSIPPrefix) :
  kps ∈ collect_duplicates l ->
  exists first rest,
    snd kps = first :: rest /\ snd kps = group_of l (fst kps)
    /\ prefix_key first = network_key (fst kps)
    /\ Forall (fun p => prefix_key p = prefix_key first) rest.
Proof.
  intros Hin.
  destruct (collect_duplicates_inv l) as [_ Hg].
  pose proof (collect_groups l) as Hgr.
  rewrite Forall_forall in Hg, Hgr.
  destruct (Hg kps Hin) as [Hne Hkeys]. specialize (Hgr kps Hin).
  destruct (snd kps) as [|first rest] eqn:E; [contradiction|].
  apply Forall_cons in Hkeys as [[Hf _] Hrest].
  exists first, rest. split; [reflexivity|]. split; [assumption|].
  split; [assumption|].
  eapply Forall_impl; [exact Hrest|]. simpl. intros p [Hp _]. congruence.
Qed.

(** [_process_prefixes] raises nothing but [ValueError]. *)
Lemma process_prefixes_Raise (l : list AWSIPPrefix) (e : exn) :
  _process_prefixes l = Raise e ->
  e = ValueError /\ conflicting l.
Proof.
  unfold _process_prefixes.
  destruct (mapM deduplicate _) as [dd|e'] eqn:Hm; simpl; [discriminate|].
  intros [= ->]. apply mapM_Raise in Hm as (g & Hg & Hraise).
  apply list_elem_of_fmap in Hg as (kps & -> & Hin).
  destruct (collected_group_shape l kps Hin) as (first & rest & E & Egr & Hk & Hkeys).
  rewrite E, (deduplicate_cases first rest Hkeys) in Hraise.
  destruct (forallb (same_origin first) rest) eqn:Ef; [discriminate|].
  injection Hraise as <-. split; [reflexivity|].
  assert (exists p, p ∈ rest /\ same_origin first p = false) as (p & Hp & Hso).
  { clear -Ef. induction rest as [|x rest IH]; simpl in Ef; [discriminate|].
    destruct (same_origin first x) eqn:Ex.
    - destruct (IH Ef) as (p & Hp & Hso). exists p.
      split; [apply elem_of_cons; now right|assumption].
    - exists x. split; [apply elem_of_cons; now left|assumption]. }
  assert (forall x, x ∈ first :: rest -> x ∈ l) as Hsub.
  { intros x Hx. rewrite <- E, Egr in Hx. now apply group_of_elem_of in Hx. }
  exists p, first.
  split; [apply Hsub, elem_of_cons; now right|].
  split; [apply Hsub, elem_of_cons; now left|].
  split; [rewrite Forall_forall in Hkeys; now apply Hkeys|].
  unfold same_origin in Hso. apply andb_false_iff in Hso as [Hso|Hso];
    apply bool_decide_eq_false in Hso; [now left|now right].
Qed.

(** Without conflicting records [_process_prefixes] succeeds. *)
Lemma process_prefixes_Ok (l : list AWSIPPrefix) :
  ~ conflicting l -> exists out, _process_prefixes l = Ok out.
Proof.
  intros Hno. unfold _process_prefixes.
  destruct (mapM_all_Ok deduplicate (snd <$> collect_duplicates l)) as [dd Hdd].
  - apply Forall_forall. intros g Hg.
    apply list_elem_of_fmap in Hg as (kps & -> & Hin).
    destruct (collected_group_shape l kps Hin) as (first & rest & E & Egr & Hk & Hkeys).
    rewrite E, (deduplicate_cases first rest Hkeys).
    destruct (forallb (same_origin first) rest) eqn:Ef; [eauto|].
    exfalso. apply Hno.
    assert (deduplicate (first :: rest) = Raise ValueError) as Hr
      by (rewrite (deduplicate_cases first rest Hkeys), Ef; reflexivity).
    assert (exists p, p ∈ rest /\ same_origin first p = false) as (p & Hp & Hso).
    { clear -Ef. induction rest as [|x rest IH]; simpl in Ef; [discriminate|].
      destruct (same_origin first x) eqn:Ex.
      - destruct (IH Ef) as (p & Hp & Hso). exists p.
        split; [apply elem_of_cons; now right|assumption].
      - exists x. split; [apply elem_of_cons; now left|assumption]. }
    assert (forall x, x ∈ first :: rest -> x ∈ l) as Hsub.
    { intros x Hx. rewrite <- E, Egr in Hx. now apply group_of_elem_of in Hx. }
    exists p, first.
    split; [apply Hsub, elem_of_cons; now right|].
    split; [apply Hsub, elem_of_cons; now left|].
    split; [rewrite Forall_forall in Hkeys; now apply Hkeys|].
    unfold same_origin in Hso. apply andb_false_iff in Hso as [Hso|Hso];
      apply bool_decide_eq_false in Hso; [now left|now right].
  - rewrite Hdd. simpl. eauto.
Qed.

Lemma Forall2_elem_of_l {A B : Type} (P : A -> B -> Prop) (l : list A) (k : list B)
    (x : A) :
  Forall2 P l k -> x ∈ l -> exists y, y ∈ k /\ P x y.
Proof.
  induction 1 as [|a b l k Hab _ IH]; intros Hx; [now apply elem_of_nil in Hx|].
  apply elem_of_cons in Hx as [->|Hx].
  - exists b. split; [apply elem_of_cons; now left|assumption].
  - destruct (IH Hx) as (y & Hy & HP). exists y.
    split; [apply elem_of_cons; now right|assumption].
Qed.

Lemma Forall2_elem_of_r {A B : Type} (P : A -> B -> Prop) (l : list A) (k : list B)
    (y : B) :
  Forall2 P l k -> y ∈ k -> exists x, x ∈ l /\ P x y.
Proof.
  induction 1 as [|a b l k Hab _ IH]; intros Hy; [now apply elem_of_nil in Hy|].
  apply elem_of_cons in Hy as [->|Hy].
  - exists a. split; [apply elem_of_cons; now left|assumption].
  - destruct (IH Hy) as (x & Hx & HP). exists x.
    split; [apply elem_of_cons; now right|assumption].
Qed.

Lemma merged_fields (first : AWSIPPrefix) (rest : list AWSIPPrefix) :
  prefix (merged first rest) = prefix first
  /\ region (merged first rest) = region first
  /\ network_border_group (merged first rest) = network_border_group first
  /\ forall s, s ∈ awsipprefix.services (merged first rest) <->
               exists p, p ∈ first :: rest /\ s ∈ awsipprefix.services p.
Proof.
  destruct rest as [|q rest]; simpl.
  - repeat split; try reflexivity.
    + intros Hs. exists first. split; [apply elem_of_cons; now left|assumption].
    + intros (p & Hp & Hs). apply list_elem_of_singleton in Hp as ->. assumption.
  - repeat split; try reflexivity;
      apply (combined_services_elem_of (first :: q :: rest)).
Qed.

(** What [deduplicate] makes of a group of the dictionary. *)
Lemma deduplicate_Ok_group (l : list AWSIPPrefix) (kps : IPNetwork * list AWSIPPrefix)
    (r : AWSIPPrefix) :
  kps ∈ collect_duplicates l -> deduplicate (snd kps) = Ok r ->
  prefix_key r = network_key (fst kps)
  /\ (exists first rest, snd kps = first :: rest /\ r = merged first rest)
  /\ (exists p, p ∈ l /\ prefix r = prefix p)
  /\ (forall p, p ∈ l -> prefix_key p = prefix_key r ->
        region p = region r /\ network_border_group p = network_border_group r)
  /\ (forall s, s ∈ awsipprefix.services r <->
        exists p, p ∈ l /\ prefix_key p = prefix_key r /\ s ∈ awsipprefix.services p).
Proof.
  intros Hin Hr.
  destruct (collected_group_shape l kps Hin) as (first & rest & E & Egr & Hk & Hkeys).
  rewrite E, (deduplicate_cases first rest Hkeys) in Hr.
  destruct (forallb (same_origin first) rest) eqn:Ef; [|discriminate].
  injection Hr as <-.
  destruct (merged_fields first rest) as (Ep & Er & Eg & Es).
  assert (prefix_key (merged first rest) = network_key (fst kps)) as Ekey
    by (unfold prefix_key in *; now rewrite Ep).
  assert (forall p, p ∈ first :: rest <->
            p ∈ l /\ prefix_key p = prefix_key (merged first rest)) as Hmem.
  { intros p. rewrite <- E, Egr, group_of_elem_of, Ekey. reflexivity. }
  split; [exact Ekey|]. split; [now exists first, rest|].
  split; [|split].
  - exists first. split; [|exact Ep]. apply Hmem. apply elem_of_cons. now left.
  - intros p Hp Hkp. rewrite Er, Eg.
    assert (p ∈ first :: rest) as Hg by (apply Hmem; now split).
    apply elem_of_cons in Hg as [->|Hg]; [now split|].
    rewrite forallb_forall in Ef. apply list_elem_of_In in Hg.
    specialize (Ef p Hg). unfold same_origin in Ef.
    apply andb_true_iff in Ef as [E1 E2].
    now apply bool_decide_eq_true in E1, E2.
  - intros s. rewrite Es. split.
    + intros (p & Hp & Hs). apply Hmem in Hp as [Hp Hkp]. now exists p.
    + intros (p & Hp & Hkp & Hs). exists p. split; [|assumption]. apply Hmem. now split.
Qed.

(** A successful [_process_prefixes] merges the records by network. *)
Lemma process_prefixes_merges (l out : list AWSIPPrefix) :
  _process_prefixes l = Ok out -> merges l out.
Proof.
  unfold _process_prefixes.
  destruct (mapM deduplicate _) as [dd|e] eqn:Hm; simpl; [|discriminate].
  intros [= <-]. apply mapM_Ok_Forall2 in Hm. split.
  - intros p Hp.
    pose proof (collect_keys_cover l p Hp) as Hk.
    apply list_elem_of_fmap in Hk as (kps & Ek & Hin).
    assert (snd kps ∈ snd <$> collect_duplicates l) as Hg
      by (apply list_elem_of_fmap; now exists kps).
    destruct (Forall2_elem_of_l _ _ _ _ Hm Hg) as (r & Hr & Hd).
    destruct (deduplicate_Ok_group l kps r Hin Hd) as (Hkey & _ & _ & Hsame & _).
    exists r. split; [now rewrite sorted_Permutation|].
    assert (prefix_key r = prefix_key p) as Erp by congruence.
    split; [exact Erp|]. destruct (Hsame p Hp (eq_sym Erp)) as [E1 E2]. now split.
  - intros r Hr. rewrite sorted_Permutation in Hr.
    destruct (Forall2_elem_of_r _ _ _ _ Hm Hr) as (g & Hg & Hd).
    apply list_elem_of_fmap in Hg as (kps & -> & Hin).
    destruct (deduplicate_Ok_group l kps r Hin Hd) as (_ & _ & Hp & _ & Hs).
    now split.
Qed.

Lemma NoDup_fmap_elem_eq {A B : Type} (f : A -> B) (l : list A) (x y : A) :
  NoDup (f <$> l) -> x ∈ l -> y ∈ l -> f x = f y -> x = y.
Proof.
  intros Hnd Hx Hy E.
  apply list_elem_of_lookup in Hx as [i Hi]. apply list_elem_of_lookup in Hy as [j Hj].
  assert (i = j) as ->.
  { apply (proj1 (NoDup_alt _) Hnd i j (f x)); rewrite list_lookup_fmap.
    - now rewrite Hi.
    - rewrite Hj. simpl. now rewrite E. }
  congruence.
Qed.

(** With conflicting records [_process_prefixes] raises [ValueError]. *)
Lemma process_prefixes_conflict (l : list AWSIPPrefix) :
  conflicting l -> _process_prefixes l = Raise ValueError.
Proof.
  intros (p & q & Hp & Hq & Hk & Hdiff).
  destruct (_process_prefixes l) as [out|e] eqn:E.
  - exfalso.
    destruct (process_prefixes_inv l out E) as [[_ Hnd] _].
    destruct (process_prefixes_merges l out E) as [Hcover _].
    destruct (Hcover p Hp) as (r & Hr & Ek & Er & Eg).
    destruct (Hcover q Hq) as (r' & Hr' & Ek' & Er' & Eg').
    assert (r = r') as <-
      by (apply (NoDup_fmap_elem_eq prefix_key out); congruence).
    destruct Hdiff; congruence.
  - apply process_prefixes_Raise in E as [-> _]. reflexivity.
Qed.

Lemma init_omitted (st : option string) (cd : option datetime)
    (a4 a6 : option (list AWSIPPrefix)) (h : option string) :
  a4 = None \/ a6 = None -> __init__ st cd a4 a6 h = Raise TypeError.
Proof.
  intros [-> | ->]; destruct st, cd, h; try destruct a4; try destruct a6;
    reflexivity.
Qed.

(** X5: called with each of [ipv4_prefixes] and [ipv6_prefixes] left out
    ([None]) or an iterable of records, the constructor raises
    [TypeError] exactly when one of the two is left out.  Given both, it
    raises exactly when, among the IPv4 records or among the IPv6
    records, two records share a network key and differ in region or in
    network border group; the exception is then [ValueError].  It
    raises no other exception, and returns a collection otherwise. *)
Theorem constructor_raises_on_omission_or_conflict
    (sync_token : option string) (create_date : option datetime)
    (a4 a6 : option (list AWSIPPrefix)) (md5 : option string) :
  (__init__ sync_token create_date a4 a6 md5 = Raise TypeError
   <-> a4 = None \/ a6 = None)
  /\ (__init__ sync_token create_date a4 a6 md5 = Raise ValueError
      <-> exists v4 v6, a4 = Some v4 /\ a6 = Some v6
                        /\ (conflicting v4 \/ conflicting v6))
  /\ ((exists c, __init__ sync_token create_date a4 a6 md5 = Ok c)
      <-> exists v4 v6, a4 = Some v4 /\ a6 = Some v6
                        /\ ~ (conflicting v4 \/ conflicting v6))
  /\ (forall e, __init__ sync_token create_date a4 a6 md5 = Raise e ->
                e = TypeError \/ e = ValueError).
Proof.
  destruct a4 as [v4|]; [destruct a6 as [v6|]|].
  - rewrite !init_given.
    assert (forall P : list AWSIPPrefix -> list AWSIPPrefix -> Prop,
              (exists x4 x6, Some v4 = Some x4 /\ Some v6 = Some x6 /\ P x4 x6)
              <-> P v4 v6) as Hex.
    { intros P. split.
      - now intros (x4 & x6 & [= <-] & [= <-] & H).
      - intros H. now exists v4, v6. }
    rewrite (Hex (fun x4 x6 => conflicting x4 \/ conflicting x6)).
    rewrite (Hex (fun x4 x6 => ~ (conflicting x4 \/ conflicting x6))).
    destruct (_process_prefixes v4) as [o4|e4] eqn:E4; simpl.
    + destruct (_process_prefixes v6) as [o6|e6] eqn:E6; simpl.
      * assert (~ conflicting v4) as N4
          by (intros H; rewrite (process_prefixes_conflict v4 H) in E4; discriminate).
        assert (~ conflicting v6) as N6
          by (intros H; rewrite (process_prefixes_conflict v6 H) in E6; discriminate).
        split; [split; [discriminate|intros [H|H]; discriminate]|].
        split; [split; [discriminate|tauto]|].
        split; [split; [tauto|eauto]|discriminate].
      * apply process_prefixes_Raise in E6 as [-> H6].
        split; [split; [discriminate|intros [H|H]; discriminate]|].
        split; [split; [tauto|reflexivity]|].
        split; [split; [intros [c Hc]; discriminate|tauto]|].
        intros e [= <-]. now right.
    + apply process_prefixes_Raise in E4 as [-> H4].
      split; [split; [discriminate|intros [H|H]; discriminate]|].
      split; [split; [tauto|reflexivity]|].
      split; [split; [intros [c Hc]; discriminate|tauto]|].
      intros e [= <-]. now right.
  - rewrite (init_omitted sync_token create_date (Some v4) None md5) by now right.
    split; [split; [now right|reflexivity]|].
    split; [split; [discriminate|now intros (x4 & x6 & _ & H & _)]|].
    split; [split; [intros [c Hc]; discriminate|now intros (x4 & x6 & _ & H & _)]|].
    intros e [= <-]. now left.
  - rewrite (init_omitted sync_token create_date None a6 md5) by now left.
    split; [split; [now left|reflexivity]|].
    split; [split; [discriminate|now intros (x4 & x6 & H & _)]|].
    split; [split; [intros [c Hc]; discriminate|now intros (x4 & x6 & H & _)]|].
    intros e [= <-]. now left.
Qed.

(** X6: a collection holds the given records merged by network: every
    network key of the given IPv4 (IPv6) records has its record in the
    IPv4 (IPv6) sequence, with their region and border group, and every
    stored record carries the network of a given record and exactly the
    services of the given records with its network key. *)
Theorem constructor_merges_by_network
    (sync_token : option string) (create_date : option datetime)
    (v4 v6 : list AWSIPPrefix) (md5 : option string) (c : AWSIPPrefixes) :
  __init__ sync_token create_date (Some v4) (Some v6) md5 = Ok c ->
  merges v4 (ipv4_prefixes c) /\ merges v6 (ipv6_prefixes c).
Proof.
  intros Hc. apply init_fields in Hc as (_ & _ & _ & E4 & E6).
  split; now apply process_prefixes_merges.
Qed.

Lemma constructor_merges_by_network_witness :
  merges feed_v4 (ipv4_prefixes example_collection)
  /\ merges feed_v6 (ipv6_prefixes example_collection).
Proof.
  apply (constructor_merges_by_network (Some "1604000000"%string) (Some 1604000000)
           feed_v4 feed_v6 (Some feed_md5)).
  vm_compute. reflexivity.
Defined.

Lemma process_prefixes_origin (l out : list AWSIPPrefix) (r : AWSIPPrefix) :
  _process_prefixes l = Ok out -> r ∈ out ->
  exists p, p ∈ l /\ prefix r = prefix p /\ region r = region p
            /\ network_border_group r = network_border_group p.
Proof.
  intros E Hr.
  destruct (process_prefixes_inv l out E) as [[_ Hnd] _].
  destruct (process_prefixes_merges l out E) as [Hcover Hout].
  destruct (Hout r Hr) as [(p & Hp & Ep) _].
  destruct (Hcover p Hp) as (r' & Hr' & Ek & Er & Eg).
  assert (r = r') as <-.
  { apply (NoDup_fmap_elem_eq prefix_key out); try assumption.
    unfold prefix_key in *. congruence. }
  now exists p.
Qed.

(** X7: the regions, network border groups and services of a collection
    are those of the records it was built from. *)
Theorem observed_sets_are_those_of_the_feed
    (sync_token : option string) (create_date : option datetime)
    (v4 v6 : list AWSIPPrefix) (md5 : option string) (c : AWSIPPrefixes) :
  __init__ sync_token create_date (Some v4) (Some v6) md5 = Ok c ->
  regions c = list_to_set (region <$> v4 ++ v6)
  /\ network_border_groups c = list_to_set (network_border_group <$> v4 ++ v6)
  /\ services c = list_to_set (concat (awsipprefix.services <$> v4 ++ v6)).
Proof.
  intros Hc. apply init_fields in Hc as (_ & _ & _ & E4 & E6).
  assert (forall (l out : list AWSIPPrefix) (f : AWSIPPrefix -> string),
            (f = region \/ f = network_border_group) ->
            _process_prefixes l = Ok out ->
            forall x, x ∈ f <$> out <-> x ∈ f <$> l) as Hfield.
  { intros l out f Hf E x. rewrite !list_elem_of_fmap. split.
    - intros (r & -> & Hr).
      destruct (process_prefixes_origin l out r E Hr) as (p & Hp & _ & Er & Eg).
      exists p. split; [|assumption]. destruct Hf as [-> | ->]; assumption.
    - intros (p & -> & Hp).
      destruct (process_prefixes_merges l out E) as [Hcover _].
      destruct (Hcover p Hp) as (r & Hr & _ & Er & Eg).
      exists r. split; [|assumption]. destruct Hf as [-> | ->]; congruence. }
  assert (forall (l out : list AWSIPPrefix),
            _process_prefixes l = Ok out ->
            forall s, s ∈ concat (awsipprefix.services <$> out)
                      <-> s ∈ concat (awsipprefix.services <$> l)) as Hserv.
  { intros l out E s.
    destruct (process_prefixes_merges l out E) as [Hcover Hout].
    rewrite !list_elem_of_In, !in_concat. split.
    - intros (ss & Hss & Hs). apply in_map_iff in Hss as (r & <- & Hr).
      apply list_elem_of_In in Hr, Hs.
      destruct (Hout r Hr) as [_ Hsv]. apply Hsv in Hs as (p & Hp & _ & Hs).
      exists (awsipprefix.services p). split; [|now apply list_elem_of_In].
      apply in_map. now apply list_elem_of_In.
    - intros (ss & Hss & Hs). apply in_map_iff in Hss as (p & <- & Hp).
      apply list_elem_of_In in Hp, Hs.
      destruct (Hcover p Hp) as (r & Hr & Ek & _).
      destruct (Hout r Hr) as [_ Hsv].
      exists (awsipprefix.services r). split.
      + apply in_map. now apply list_elem_of_In.
      + apply list_elem_of_In, Hsv. exists p. split; [assumption|]. now split. }
  unfold regions, network_border_groups, services, __iter__.
  split; [|split]; apply set_eq; intros x; rewrite !elem_of_list_to_set.
  - rewrite !fmap_app, !elem_of_app.
    rewrite (Hfield v4 _ region (or_introl eq_refl) E4 x),
      (Hfield v6 _ region (or_introl eq_refl) E6 x). reflexivity.
  - rewrite !fmap_app, !elem_of_app.
    rewrite (Hfield v4 _ network_border_group (or_intror eq_refl) E4 x),
      (Hfield v6 _ network_border_group (or_intror eq_refl) E6 x). reflexivity.
  - rewrite !fmap_app, !concat_app, !elem_of_app.
    rewrite (Hserv v4 _ E4 x), (Hserv v6 _ E6 x). reflexivity.
Qed.

Lemma observed_sets_are_those_of_the_feed_witness :
  regions example_collection = list_to_set (region <$> feed_v4 ++ feed_v6)
  /\ network_border_groups example_collection
     = list_to_set (network_border_group <$> feed_v4 ++ feed_v6)
  /\ services example_collection
     = list_to_set (concat (awsipprefix.services <$> feed_v4 ++ feed_v6)).
Proof.
  apply (observed_sets_are_those_of_the_feed (Some "1604000000"%string)
           (Some 1604000000) feed_v4 feed_v6 (Some feed_md5)).
  vm_compute. reflexivity.
Defined.

(** X8: building a collection again from its own two sequences gives
    the same collection. *)
Theorem constructor_idempotent
    (sync_token : option string) (create_date : option datetime)
    (v4 v6 : list AWSIPPrefix) (md5 : option string) (c : AWSIPPrefixes) :
  __init__ sync_token create_date (Some v4) (Some v6) md5 = Ok c ->
  __init__ sync_token create_date (Some (ipv4_prefixes c)) (Some (ipv6_prefixes c)) md5
  = Ok c.
Proof.
  intros Hc. apply init_fields in Hc as (E1 & E2 & E3 & E4 & E6).
  apply process_prefixes_inv in E4 as [I4 _].
  apply process_prefixes_inv in E6 as [I6 _].
  rewrite !init_given. rewrite !process_prefixes_id by assumption. simpl.
  destruct c. simpl in *. congruence.
Qed.

Lemma constructor_idempotent_witness :
  __init__ (Some "1604000000"%string) (Some 1604000000)
    (Some (ipv4_prefixes example_collection)) (Some (ipv6_prefixes example_collection))
    (Some feed_md5) = Ok example_collection.
Proof.
  apply (constructor_idempotent (Some "1604000000"%string) (Some 1604000000)
           feed_v4 feed_v6 (Some feed_md5)).
  vm_compute. reflexivity.
Defined.

(** X9: iterating over a collection yields [len] records, none of them
    twice, strictly ascending in the records' order from the first IPv4
    record to the last IPv6 record. *)
Theorem iteration_ascending (c : AWSIPPrefixes) :
  collection c ->
  length (__iter__ c) = __len__ c
  /\ ascending __lt__ (__iter__ c)
  /\ NoDup (__iter__ c).
Proof.
  intros Hc. destruct (collection_inv c Hc) as ([A4 N4] & [A6 N6] & T4 & T6).
  unfold __iter__, __len__. split; [apply length_app|].
  assert (forall x y, x ∈ ipv4_prefixes c -> y ∈ ipv6_prefixes c -> __lt__ x y = true)
    as Hcross.
  { intros x y Hx Hy. rewrite Forall_forall in T4, T6.
    specialize (T4 x Hx). specialize (T6 y Hy). unfold record_ok in T4, T6.
    apply andb_true_iff in T4 as [T4 _]. apply andb_true_iff in T6 as [T6 _].
    apply bool_decide_eq_true in T4, T6. unfold __lt__. now rewrite T4, T6. }
  split.
  - apply StronglySorted_app_2; assumption.
  - apply NoDup_app. split; [now apply NoDup_fmap_1 in N4|].
    split; [|now apply NoDup_fmap_1 in N6].
    intros x Hx Hy. specialize (Hcross x x Hx Hy).
    rewrite (ltb_irrefl (lt := __lt__)) in Hcross. discriminate.
Qed.

Lemma iteration_ascending_witness :
  length (__iter__ example_collection) = __len__ example_collection
  /\ ascending __lt__ (__iter__ example_collection)
  /\ NoDup (__iter__ example_collection).
Proof.
  apply (iteration_ascending example_collection).
  built_from (Some "1604000000"%string) (Some 1604000000) feed_v4 feed_v6
    (Some feed_md5).
Defined.

Lemma List_filter_Permutation {A : Type} (f : A -> bool) (l1 l2 : list A) :
  l1 ≡ₚ l2 -> List.filter f l1 ≡ₚ List.filter f l2.
Proof.
  induction 1 as [|x l1 l2 _ IH|x y l|l1 l2 l3 _ IH1 _ IH2]; simpl.
  - reflexivity.
  - destruct (f x); [now constructor|assumption].
  - destruct (f x), (f y); try reflexivity. apply perm_swap.
  - now transitivity (List.filter f l2).
Qed.

Lemma conflicting_Permutation (l1 l2 : list AWSIPPrefix) :
  l1 ≡ₚ l2 -> conflicting l1 -> conflicting l2.
Proof.
  intros Hperm (p & q & Hp & Hq & H). exists p, q.
  rewrite <- Hperm. now repeat split.
Qed.

(** The record built from a group does not depend on the order of the
    group. *)
Lemma merged_Permutation (first first' : AWSIPPrefix) (rest rest' : list AWSIPPrefix) :
  first :: rest ≡ₚ first' :: rest' ->
  Forall (fun p => network_ok (prefix p) = true) (first :: rest) ->
  Forall (fun p => prefix_key p = prefix_key first) rest ->
  forallb (same_origin first) rest = true ->
  merged first rest = merged first' rest'.
Proof.
  intros Hperm Hok Hkey Horigin.
  assert (first' ∈ first :: rest) as Hf'
    by (rewrite Hperm; apply elem_of_cons; now left).
  destruct rest as [|q rest].
  - apply Permutation_singleton_l in Hperm. now injection Hperm as <- <-.
  - destruct rest' as [|q' rest'].
    + symmetry in Hperm. apply Permutation_singleton_l in Hperm. discriminate.
    + unfold merged.
      assert (prefix first' = prefix first /\ region first' = region first
              /\ network_border_group first' = network_border_group first)
        as (-> & -> & ->).
      { apply elem_of_cons in Hf' as [->|Hf']; [now repeat split|].
        rewrite Forall_forall in Hok, Hkey.
        rewrite forallb_forall in Horigin.
        pose proof (Horigin first' (proj1 (list_elem_of_In _ _) Hf')) as Ho.
        unfold same_origin in Ho. apply andb_true_iff in Ho as [O1 O2].
        apply bool_decide_eq_true in O1, O2.
        split; [|now split].
        apply network_key_inj.
        - apply Hok. apply elem_of_cons. now right.
        - apply Hok. apply elem_of_cons. now left.
        - now apply Hkey. }
      f_equal. f_equal. f_equal. apply set_eq. intros s.
      rewrite !elem_of_list_to_set, !list_elem_of_In, !in_concat.
      split; intros (ss & Hss & Hs); exists ss; (split; [|assumption]);
        apply in_map_iff in Hss as (p & <- & Hp); apply in_map;
        apply list_elem_of_In; apply list_elem_of_In in Hp;
        [now rewrite <- Hperm|now rewrite Hperm].
Qed.

Lemma process_prefixes_elem (l out : list AWSIPPrefix) (r : AWSIPPrefix) :
  _process_prefixes l = Ok out ->
  (r ∈ out <-> exists kps, kps ∈ collect_duplicates l /\ deduplicate (snd kps) = Ok r).
Proof.
  unfold _process_prefixes.
  destruct (mapM deduplicate _) as [dd|e] eqn:Hm; simpl; [|discriminate].
  intros [= <-]. apply mapM_Ok_Forall2 in Hm. rewrite sorted_Permutation. split.
  - intros Hr. destruct (Forall2_elem_of_r _ _ _ _ Hm Hr) as (g & Hg & Hd).
    apply list_elem_of_fmap in Hg as (kps & -> & Hin). now exists kps.
  - intros (kps & Hin & Hd).
    assert (snd kps ∈ snd <$> collect_duplicates l) as Hg
      by (apply list_elem_of_fmap; now exists kps).
    destruct (Forall2_elem_of_l _ _ _ _ Hm Hg) as (r' & Hr' & Hd').
    congruence.
Qed.

Lemma process_prefixes_group_Ok (l out : list AWSIPPrefix)
    (kps : IPNetwork * list AWSIPPrefix) :
  _process_prefixes l = Ok out -> kps ∈ collect_duplicates l ->
  exists r, deduplicate (snd kps) = Ok r /\ r ∈ out.
Proof.
  unfold _process_prefixes.
  destruct (mapM deduplicate _) as [dd|e] eqn:Hm; simpl; [|discriminate].
  intros [= <-] Hin. apply mapM_Ok_Forall2 in Hm.
  assert (snd kps ∈ snd <$> collect_duplicates l) as Hg
    by (apply list_elem_of_fmap; now exists kps).
  destruct (Forall2_elem_of_l _ _ _ _ Hm Hg) as (r & Hr & Hd).
  exists r. split; [assumption|now rewrite sorted_Permutation].
Qed.

Lemma process_prefixes_incl (l1 l2 out1 out2 : list AWSIPPrefix) :
  l1 ≡ₚ l2 -> Forall (fun p => network_ok (prefix p) = true) l1 ->
  _process_prefixes l1 = Ok out1 -> _process_prefixes l2 = Ok out2 ->
  forall r, r ∈ out1 -> r ∈ out2.
Proof.
  intros Hperm Hok E1 E2 r Hr.
  apply (process_prefixes_elem l1 out1 r E1) in Hr as (kps & Hin & Hd).
  destruct (collected_group_shape l1 kps Hin) as (first & rest & E & Egr & Hk & Hkeys).
  pose proof Hd as Hd0.
  rewrite E, (deduplicate_cases first rest Hkeys) in Hd.
  destruct (forallb (same_origin first) rest) eqn:Ef; [|discriminate].
  injection Hd as <-.
  assert (first ∈ l1) as Hf1.
  { assert (first ∈ group_of l1 (fst kps)) as H
      by (rewrite <- Egr, E; apply elem_of_cons; now left).
    now apply group_of_elem_of in H. }
  assert (first ∈ l2) as Hf2 by now rewrite <- Hperm.
  pose proof (collect_keys_cover l2 first Hf2) as Hc.
  apply list_elem_of_fmap in Hc as (kps2 & Ek2 & Hin2).
  destruct (collected_group_shape l2 kps2 Hin2)
    as (first2 & rest2 & E' & Egr' & Hk' & Hkeys').
  destruct (process_prefixes_group_Ok l2 out2 kps2 E2 Hin2) as (r2 & Hd2 & Hr2).
  rewrite E', (deduplicate_cases first2 rest2 Hkeys') in Hd2.
  destruct (forallb (same_origin first2) rest2); [|discriminate].
  injection Hd2 as <-.
  assert (first :: rest ≡ₚ first2 :: rest2) as Hg.
  { rewrite <- E, <- E', Egr, Egr'. unfold group_of.
    rewrite (List.filter_ext (fun p => network_eq (fst kps2) (prefix p))
               (fun p => network_eq (fst kps) (prefix p))).
    - now apply List_filter_Permutation.
    - intros p. unfold network_eq.
      assert (network_key (fst kps2) = network_key (fst kps)) as Ek by congruence.
      unfold network_key in Ek. injection Ek as -> -> ->. reflexivity. }
  rewrite (merged_Permutation first first2 rest rest2 Hg); try assumption.
  apply Forall_forall. intros p Hp. rewrite Forall_forall in Hok. apply Hok.
  rewrite <- E, Egr in Hp. now apply group_of_elem_of in Hp.
Qed.

(** Two strictly ascending lists with the same members are the same list. *)
Lemma ascending_unique {A : Type} (lt : A -> A -> bool) `{!StrictB lt}
    (l1 l2 : list A) :
  ascending lt l1 -> ascending lt l2 -> (forall x, x ∈ l1 <-> x ∈ l2) -> l1 = l2.
Proof.
  intros H1 H2 Hmem.
  assert (Transitive (fun a b : A => lt a b = true)) as Htrans
    by (intros a b c; apply ltb_trans).
  assert (forall l, ascending lt l -> NoDup l) as Hnd.
  { induction 1 as [|x l _ IH Hx]; constructor; [|assumption].
    intros Hin. rewrite Forall_forall in Hx. specialize (Hx x Hin).
    rewrite ltb_irrefl in Hx. discriminate. }
  apply (StronglySorted_unique_strong (fun a b : A => lt a b = true));
    try assumption.
  - intros x1 x2 _ _ H12 H21.
    pose proof (ltb_trans x1 x2 x1 H12 H21) as H. rewrite ltb_irrefl in H.
    discriminate.
  - apply NoDup_Permutation; auto.
Qed.

Lemma process_prefixes_Permutation (l1 l2 : list AWSIPPrefix) :
  l1 ≡ₚ l2 -> Forall (fun p => network_ok (prefix p) = true) l1 ->
  _process_prefixes l1 = _process_prefixes l2.
Proof.
  intros Hperm Hok.
  assert (Forall (fun p => network_ok (prefix p) = true) l2) as Hok2
    by now rewrite <- Hperm.
  destruct (_process_prefixes l1) as [out1|e1] eqn:E1.
  - destruct (_process_prefixes l2) as [out2|e2] eqn:E2.
    + f_equal.
      destruct (process_prefixes_inv l1 out1 E1) as [[A1 _] _].
      destruct (process_prefixes_inv l2 out2 E2) as [[A2 _] _].
      apply (ascending_unique __lt__); try assumption.
      intros r. split.
      * now apply (process_prefixes_incl l1 l2 out1 out2).
      * now apply (process_prefixes_incl l2 l1 out2 out1).
    + exfalso. apply process_prefixes_Raise in E2 as [_ Hc].
      symmetry in Hperm.
      rewrite (process_prefixes_conflict l1 (conflicting_Permutation _ _ Hperm Hc)) in E1.
      discriminate.
  - apply process_prefixes_Raise in E1 as [-> Hc]. symmetry.
    apply process_prefixes_conflict. now apply (conflicting_Permutation l1).
Qed.

(** X10: the collection does not depend on the order in which the feed
    lists its records: two feeds that are rearrangements of each other,
    with well-formed networks, give the same collection, or both are
    refused. *)
Theorem constructor_ignores_feed_order
    (sync_token : option string) (create_date : option datetime)
    (v4 v4' v6 v6' : list AWSIPPrefix) (md5 : option string) :
  v4 ≡ₚ v4' -> v6 ≡ₚ v6' ->
  Forall (fun p => network_ok (prefix p) = true) (v4 ++ v6) ->
  __init__ sync_token create_date (Some v4) (Some v6) md5
  = __init__ sync_token create_date (Some v4') (Some v6') md5.
Proof.
  intros H4 H6 Hok. apply Forall_app in Hok as [Hok4 Hok6].
  rewrite !init_given.
  rewrite (process_prefixes_Permutation v4 v4' H4 Hok4).
  rewrite (process_prefixes_Permutation v6 v6' H6 Hok6).
  reflexivity.
Qed.

Lemma constructor_ignores_feed_order_witness :
  __init__ (Some "1") (Some 0) (Some feed_v4) (Some feed_v6) (Some feed_md5)
  = __init__ (Some "1") (Some 0) (Some (reverse feed_v4)) (Some (reverse feed_v6))
      (Some feed_md5).
Proof.
  apply (constructor_ignores_feed_order (Some "1") (Some 0)
           feed_v4 (reverse feed_v4) feed_v6 (reverse feed_v6) (Some feed_md5)).
  - symmetry. apply reverse_Permutation.
  - symmetry. apply reverse_Permutation.
  - vm_compute. repeat constructor.
Defined.

(* ================================================================== *)
(** * Further properties: the lookups *)
(* ================================================================== *)

Lemma contains_true_iff (r : AWSIPPrefix) (n : IPNetwork) :
  network_ok (prefix r) = true -> network_ok n = true ->
  (awsipprefix.__contains__ r n = Ok true
   <-> version n = version (prefix r)
       /\ prefixlen (prefix r) <= prefixlen n
       /\ supernet_at n (prefixlen (prefix r)) = prefix r).
Proof.
  intros Hr Hn. unfold awsipprefix.__contains__.
  case_bool_decide as Hv.
  - split; [discriminate|]. intros [E _]. contradiction.
  - assert (version n = version (prefix r)) as Ev
      by (destruct (decide (version n = version (prefix r))); tauto).
    rewrite (subnet_of_spec n (prefix r) Hn Hr Ev). split.
    + intros [= H]. apply bool_decide_eq_true in H. tauto.
    + intros (_ & H1 & H2). f_equal. apply bool_decide_eq_true. tauto.
Qed.

Lemma iter_sequence (c : AWSIPPrefixes) (p : AWSIPPrefix) :
  collection c ->
  (p ∈ __iter__ c <-> p ∈ sequence_of c (version (prefix p))).
Proof.
  intros Hc.
  destruct (collection_records_ok c IPv4 Hc) as [_ H4].
  destruct (collection_records_ok c IPv6 Hc) as [_ H6].
  rewrite Forall_forall in H4, H6. simpl in H4, H6.
  unfold __iter__. rewrite elem_of_app. split.
  - intros [H|H]; [rewrite (H4 p H)|rewrite (H6 p H)]; exact H.
  - destruct (version (prefix p)); simpl; tauto.
Qed.

(** The records the walks can meet are the stored records that carry a
    supernet of the query of a prefix length from 1 to the query's. *)
Lemma reachable_iff (c : AWSIPPrefixes) (n : IPNetwork) (p : AWSIPPrefix) :
  collection c -> network_ok n = true ->
  (reachable c n p
   <-> exists q, 1 <= q <= prefixlen n
                 /\ p ∈ sequence_of c (version n) /\ prefix p = supernet_at n q).
Proof.
  intros Hc Hn. unfold reachable. split.
  - intros (Hin & Hlen & Hcont).
    apply (iter_sequence c p Hc) in Hin.
    destruct (collection_records_ok c (version (prefix p)) Hc) as [Hok _].
    rewrite Forall_forall in Hok. pose proof (Hok p Hin) as Hp.
    apply (contains_true_iff p n Hp Hn) in Hcont as (Ev & Hle & Es).
    exists (prefixlen (prefix p)). rewrite Ev. split; [lia|]. now split.
  - intros (q & Hq & Hin & Ep).
    destruct (collection_records_ok c (version n) Hc) as [Hok Hv].
    rewrite Forall_forall in Hok, Hv.
    pose proof (Hok p Hin) as Hp. pose proof (Hv p Hin) as Ev.
    split; [|split].
    + apply (iter_sequence c p Hc). now rewrite Ev.
    + rewrite Ep. simpl. lia.
    + apply (contains_true_iff p n Hp Hn). rewrite Ep. simpl.
      split; [reflexivity|]. split; [lia|reflexivity].
Qed.

Lemma sequence_unique (c : AWSIPPrefixes) (v : IPVersion) (a b : AWSIPPrefix) :
  collection c -> a ∈ sequence_of c v -> b ∈ sequence_of c v ->
  prefix a = prefix b -> a = b.
Proof.
  intros Hc Ha Hb E.
  destruct (collection_sequence c v Hc) as [[_ Hnd] _].
  apply (NoDup_fmap_elem_eq prefix_key (sequence_of c v)); try assumption.
  unfold prefix_key. now rewrite E.
Qed.

(** What [_get_prefix] returns on a collection. *)
Lemma get_prefix_cases (c : AWSIPPrefixes) (x : IPNetwork) :
  collection c -> network_ok x = true ->
  (exists p, _get_prefix c x = Ok (Some p) /\ p ∈ __iter__ c /\ prefix p = x)
  \/ (_get_prefix c x = Ok None /\ forall p, p ∈ __iter__ c -> prefix p <> x).
Proof.
  intros Hc Hx.
  destruct (collection_records_ok c (version x) Hc) as [_ Hty].
  destruct (get_prefix_total c x Hty) as [[p|] Hg].
  - left. exists p. split; [assumption|].
    apply (get_prefix_exact c x p Hc Hx) in Hg as [Hin Ep].
    split; [|assumption]. apply (iter_sequence c p Hc). now rewrite Ep.
  - right. split; [assumption|]. intros p Hin Ep.
    apply (iter_sequence c p Hc) in Hin. rewrite Ep in Hin.
    assert (_get_prefix c x = Ok (Some p)) as Hg'
      by (apply (get_prefix_exact c x p Hc Hx); now split).
    congruence.
Qed.

(** X11: on a collection, the binary search of [_get_prefix] raises
    nothing on a well-formed network; it returns a record exactly when
    that record is stored and carries the network, and [None] exactly
    when no stored record carries it. *)
Theorem exact_lookup_finds_the_stored_record (c : AWSIPPrefixes) (x : IPNetwork) :
  collection c -> network_ok x = true ->
  (exists o, _get_prefix c x = Ok o)
  /\ (forall p, _get_prefix c x = Ok (Some p) <-> p ∈ __iter__ c /\ prefix p = x)
  /\ (_get_prefix c x = Ok None <-> forall p, p ∈ __iter__ c -> prefix p <> x).
Proof.
  intros Hc Hx.
  destruct (get_prefix_cases c x Hc Hx) as [(p & Hg & Hin & Ep)|[Hg Hnone]].
  - split; [eauto|]. split.
    + intros p'. split.
      * intros Hg'. rewrite Hg in Hg'. injection Hg' as <-. now split.
      * intros [Hin' Ep']. rewrite Hg. do 2 f_equal.
        apply (iter_sequence c p Hc) in Hin. apply (iter_sequence c p' Hc) in Hin'.
        rewrite Ep in Hin. rewrite Ep' in Hin'.
        apply (sequence_unique c (version x)); congruence.
    + split; [rewrite Hg; discriminate|].
      intros Hnone. exfalso. now apply (Hnone p).
  - split; [eauto|]. split.
    + intros p. split.
      * rewrite Hg. discriminate.
      * intros [Hin Ep]. exfalso. now apply (Hnone p).
    + split; [now intros _|now intros _].
Qed.

Lemma exact_lookup_finds_the_stored_record_witness :
  (exists o, _get_prefix example_collection net_10_16 = Ok o)
  /\ (forall p, _get_prefix example_collection net_10_16 = Ok (Some p)
                <-> p ∈ __iter__ example_collection /\ prefix p = net_10_16)
  /\ (_get_prefix example_collection net_10_16 = Ok None
      <-> forall p, p ∈ __iter__ example_collection -> prefix p <> net_10_16).
Proof.
  apply (exact_lookup_finds_the_stored_record example_collection net_10_16).
  - built_from (Some "1604000000"%string) (Some 1604000000) feed_v4 feed_v6
      (Some feed_md5).
  - vm_compute. reflexivity.
Defined.

(** What [__getitem__] returns on a collection. *)
Lemma getitem_cases (c : AWSIPPrefixes) (i : item) :
  collection c -> item_ok i = true ->
  (exists r, __getitem__ c i = Ok r /\ reachable c (item_network i) r
             /\ forall p, reachable c (item_network i) p ->
                          prefixlen (prefix p) <= prefixlen (prefix r))
  \/ (__getitem__ c i = Raise KeyError
      /\ forall p, ~ reachable c (item_network i) p).
Proof.
  intros Hc Hi. pose proof (getitem_longest_match c i Hc Hi) as H.
  apply item_network_ok in Hi. set (n := item_network i) in *.
  destruct (__getitem__ c i) as [r|e].
  - left. destruct H as (q & Hq & Hin & Er & Hmax). exists r.
    split; [reflexivity|]. split.
    + apply (reachable_iff c n r Hc Hi). exists q. now split.
    + intros p Hp. apply (reachable_iff c n p Hc Hi) in Hp as (q' & Hq' & Hin' & Ep).
      rewrite Ep, Er. simpl.
      destruct (Z.le_gt_cases q' q) as [Hle|Hgt]; [assumption|].
      exfalso. apply (Hmax q' p); [lia|assumption|assumption].
  - right. destruct H as [-> Hnone]. split; [reflexivity|].
    intros p Hp. apply (reachable_iff c n p Hc Hi) in Hp as (q & Hq & Hin & Ep).
    now apply (Hnone q p).
Qed.

(** Two reachable records with one prefix length are one record. *)
Lemma reachable_unique (c : AWSIPPrefixes) (n : IPNetwork) (a b : AWSIPPrefix) :
  collection c -> network_ok n = true ->
  reachable c n a -> reachable c n b ->
  prefixlen (prefix a) = prefixlen (prefix b) -> a = b.
Proof.
  intros Hc Hn Ha Hb E.
  apply (reachable_iff c n a Hc Hn) in Ha as (qa & _ & Hina & Ea).
  apply (reachable_iff c n b Hc Hn) in Hb as (qb & _ & Hinb & Eb).
  apply (sequence_unique c (version n)); try assumption.
  rewrite Ea, Eb in E. simpl in E. rewrite Ea, Eb. now rewrite E.
Qed.

(** X12: on a collection, [__getitem__] returns a record exactly when it
    is the stored record of the longest prefix among those of prefix
    length at least 1 that contain the item; it raises [KeyError]
    exactly when no stored record of prefix length at least 1 contains
    the item, and it raises nothing else. *)
Theorem getitem_returns_longest_containing_record (c : AWSIPPrefixes) (i : item) :
  collection c -> item_ok i = true ->
  (forall r, __getitem__ c i = Ok r
             <-> reachable c (item_network i) r
                 /\ forall p, reachable c (item_network i) p ->
                              prefixlen (prefix p) <= prefixlen (prefix r))
  /\ (__getitem__ c i = Raise KeyError
      <-> forall p, ~ reachable c (item_network i) p)
  /\ (forall e, __getitem__ c i = Raise e -> e = KeyError).
Proof.
  intros Hc Hi. pose proof (item_network_ok i Hi) as Hn.
  destruct (getitem_cases c i Hc Hi) as [(r & Hg & Hr & Hmax)|[Hg Hnone]];
    rewrite Hg.
  - split; [|split].
    + intros r'. split.
      * intros [= <-]. now split.
      * intros [Hr' Hmax']. f_equal.
        apply (reachable_unique c (item_network i)); try assumption.
        pose proof (Hmax r' Hr'). pose proof (Hmax' r Hr). lia.
    + split; [discriminate|]. intros Hnone. exfalso. now apply (Hnone r).
    + discriminate.
  - split; [|split].
    + intros r. split; [discriminate|]. intros [Hr _]. exfalso. now apply (Hnone r).
    + split; [now intros _|now intros _].
    + now intros e [= <-].
Qed.

Lemma getitem_returns_longest_containing_record_witness :
  (forall r, __getitem__ example_collection (ItemAddress IPv4 (ip4 10 0 0 1)) = Ok r
             <-> reachable example_collection
                   (item_network (ItemAddress IPv4 (ip4 10 0 0 1))) r
                 /\ forall p, reachable example_collection
                                (item_network (ItemAddress IPv4 (ip4 10 0 0 1))) p ->
                              prefixlen (prefix p) <= prefixlen (prefix r))
  /\ (__getitem__ example_collection (ItemAddress IPv4 (ip4 10 0 0 1)) = Raise KeyError
      <-> forall p, ~ reachable example_collection
                        (item_network (ItemAddress IPv4 (ip4 10 0 0 1))) p)
  /\ (forall e, __getitem__ example_collection (ItemAddress IPv4 (ip4 10 0 0 1))
                = Raise e -> e = KeyError).
Proof.
  apply (getitem_returns_longest_containing_record example_collection
           (ItemAddress IPv4 (ip4 10 0 0 1))).
  - built_from (Some "1604000000"%string) (Some 1604000000) feed_v4 feed_v6
      (Some feed_md5).
  - vm_compute. reflexivity.
Defined.

(** X13: on a collection, [in] and [get] raise nothing; [in] is true
    exactly when some stored record of prefix length at least 1 contains
    the item; [get] returns the record [__getitem__] returns when there
    is one, and the default the caller gave otherwise. *)
Theorem membership_and_get_follow_getitem {D : Type}
    (c : AWSIPPrefixes) (i : item) (default : option D) :
  collection c -> item_ok i = true ->
  (exists b, awsipprefixes.__contains__ c i = Ok b
             /\ (b = true <-> exists p, reachable c (item_network i) p))
  /\ ((exists p, reachable c (item_network i) p) ->
      exists r, __getitem__ c i = Ok r /\ get c i default = Ok (inl r))
  /\ ((forall p, ~ reachable c (item_network i) p) ->
      get c i default = Ok (inr default)).
Proof.
  intros Hc Hi.
  destruct (getitem_cases c i Hc Hi) as [(r & Hg & Hr & _)|[Hg Hnone]];
    unfold awsipprefixes.__contains__, get; rewrite Hg.
  - split; [|split].
    + exists true. split; [reflexivity|]. split; [eauto|reflexivity].
    + intros _. now exists r.
    + intros Hnone. exfalso. now apply (Hnone r).
  - split; [|split].
    + exists false. split; [reflexivity|]. split; [discriminate|].
      intros [p Hp]. exfalso. now apply (Hnone p).
    + intros [p Hp]. exfalso. now apply (Hnone p).
    + reflexivity.
Qed.

Lemma membership_and_get_follow_getitem_witness :
  (exists b, awsipprefixes.__contains__ example_collection (ItemNetwork net_10_16) = Ok b
             /\ (b = true
                 <-> exists p, reachable example_collection
                                 (item_network (ItemNetwork net_10_16)) p))
  /\ ((exists p, reachable example_collection (item_network (ItemNetwork net_10_16)) p) ->
      exists r, __getitem__ example_collection (ItemNetwork net_10_16) = Ok r
                /\ get example_collection (ItemNetwork net_10_16) (Some 0%nat)
                   = Ok (inl r))
  /\ ((forall p, ~ reachable example_collection
                     (item_network (ItemNetwork net_10_16)) p) ->
      get example_collection (ItemNetwork net_10_16) (Some 0%nat)
      = Ok (inr (Some 0%nat))).
Proof.
  apply (membership_and_get_follow_getitem example_collection (ItemNetwork net_10_16)
           (Some 0%nat)).
  - built_from (Some "1604000000"%string) (Some 1604000000) feed_v4 feed_v6
      (Some feed_md5).
  - vm_compute. reflexivity.
Defined.

(** The walk of [get_prefix_and_supernets] meets every stored record
    that carries a supernet of one of the prefix lengths it visits, and
    raises nothing. *)
Lemma walk_hits_complete (c : AWSIPPrefixes) (n : IPNetwork) (lens : list Z) :
  collection c -> network_ok n = true ->
  Forall (fun q => 1 <= q <= prefixlen n) lens ->
  exists hits,
    walk_hits c n lens = Ok hits
    /\ forall p, p ∈ hits
                 <-> exists q, q ∈ lens /\ p ∈ sequence_of c (version n)
                               /\ prefix p = supernet_at n q.
Proof.
  intros Hc Hn. induction 1 as [|q lens Hq _ (hits & Hw & Hmem)]; simpl.
  - exists []. split; [reflexivity|]. intros p. split.
    + intros Hp. now apply elem_of_nil in Hp.
    + intros (q & Hq & _). now apply elem_of_nil in Hq.
  - rewrite (supernet_ok n q Hn Hq). simpl. rewrite Hw.
    pose proof (supernet_at_ok n q Hn ltac:(lia)) as Hm.
    destruct (collection_records_ok c (version (supernet_at n q)) Hc) as [_ Hty].
    destruct (get_prefix_total c (supernet_at n q) Hty) as [[p0|] Hg];
      rewrite Hg; simpl.
    + pose proof (proj1 (get_prefix_exact c _ p0 Hc Hm) Hg) as [Hin0 Ep0].
      simpl in Hin0.
      exists (p0 :: hits). split; [reflexivity|]. intros p.
      rewrite elem_of_cons, Hmem. split.
      * intros [->|(q' & Hq' & Hin & Ep)].
        -- exists q. split; [apply elem_of_cons; now left|now split].
        -- exists q'. split; [apply elem_of_cons; now right|now split].
      * intros (q' & Hq' & Hin & Ep). apply elem_of_cons in Hq' as [->|Hq'].
        -- left. apply (sequence_unique c (version n)); try assumption. congruence.
        -- right. exists q'. now split.
    + exists hits. split; [reflexivity|]. intros p. rewrite Hmem. split.
      * intros (q' & Hq' & Hin & Ep).
        exists q'. split; [apply elem_of_cons; now right|now split].
      * intros (q' & Hq' & Hin & Ep). apply elem_of_cons in Hq' as [->|Hq'].
        -- exfalso.
           assert (_get_prefix c (supernet_at n q) = Ok (Some p)) as Hg'
             by (apply (get_prefix_exact c _ p Hc Hm); now split).
           congruence.
        -- exists q'. now split.
Qed.

(** X14: on a collection, [get_prefix_and_supernets] raises nothing; the
    tuple it returns holds exactly the stored records of prefix length
    at least 1 that contain the item, in ascending order, and it returns
    the default the caller gave exactly when there is no such record. *)
Theorem ancestors_are_all_containing_records {D : Type}
    (c : AWSIPPrefixes) (key : item) (default : option D) :
  collection c -> item_ok key = true ->
  exists l,
    (forall p, p ∈ l <-> reachable c (item_network key) p)
    /\ ascending __lt__ l
    /\ get_prefix_and_supernets c key default
       = Ok (match l with [] => inr default | _ :: _ => inl l end).
Proof.
  intros Hc Hkey. apply item_network_ok in Hkey.
  set (n := item_network key) in *.
  destruct (range_down_spec (prefixlen n)) as [Hs Hr].
  destruct (walk_hits_complete c n (supernets n) Hc Hkey Hr) as (hits & Hw & Hmem).
  destruct (collection_records_ok c (version n) Hc) as [Hok _].
  destruct (walk_hits_descending c n _ hits Hkey Hok Hs Hr Hw) as [Hdesc _].
  assert (builtins.sorted __lt__ hits = reverse hits) as Hsorted
    by (apply sorted_descending_reverse;
        eapply StronglySorted_impl; [|exact Hdesc]; now intros a b [H _]).
  exists (reverse hits). split; [|split].
  - intros p. rewrite elem_of_reverse, Hmem, (reachable_iff c n p Hc Hkey).
    split; intros (q & Hq & H); exists q; (split; [|assumption]);
      now apply elem_of_range_down.
  - apply StronglySorted_reverse in Hdesc.
    eapply StronglySorted_impl; [|exact Hdesc]. now intros a b [H _].
  - unfold get_prefix_and_supernets. fold n.
    rewrite collect_loop_hits, Hw. simpl. rewrite Hsorted.
    destruct hits as [|p hits]; [reflexivity|].
    rewrite bool_decide_eq_true_2 by discriminate.
    destruct (reverse (p :: hits)) as [|x l] eqn:E; [|reflexivity].
    apply (f_equal length) in E. rewrite length_reverse in E. discriminate.
Qed.

Lemma ancestors_are_all_containing_records_witness :
  exists l,
    (forall p, p ∈ l
               <-> reachable example_collection (item_network (ItemNetwork net_10_16)) p)
    /\ ascending __lt__ l
    /\ get_prefix_and_supernets example_collection (ItemNetwork net_10_16) (@None nat)
       = Ok (match l with [] => inr None | _ :: _ => inl l end).
Proof.
  apply (ancestors_are_all_containing_records example_collection
           (ItemNetwork net_10_16) (@None nat)).
  - built_from (Some "1604000000"%string) (Some 1604000000) feed_v4 feed_v6
      (Some feed_md5).
  - vm_compute. reflexivity.
Defined.

(* ================================================================== *)
(** * Further properties: filters *)
(* ================================================================== *)

Lemma requested_none {K : Type} `{Countable K} (X : gset K) :
  requested ArgNone X = X.
Proof. unfold requested, set_or. simpl. now rewrite bool_decide_eq_true_2. Qed.

(** A value requested among [X] that is also in [X'] is requested among
    [X']. *)
Lemma requested_transfer {K : Type} `{Countable K} (a : arg K) (X X' : gset K) (k : K) :
  k ∈ requested a X -> k ∈ X' -> k ∈ requested a X'.
Proof. unfold requested, set_or. case_bool_decide; tauto. Qed.

Lemma requested_subseteq {K : Type} `{Countable K} (a : arg K) (X X' : gset K) :
  requested a X' ⊆ X' -> X' ⊆ X -> requested a X ⊆ X.
Proof.
  unfold requested, set_or. case_bool_decide; [reflexivity|].
  intros H1 H2. now transitivity X'.
Qed.

Lemma elem_of_regions (c : AWSIPPrefixes) (p : AWSIPPrefix) :
  p ∈ __iter__ c -> region p ∈ regions c.
Proof.
  intros Hp. unfold regions. apply elem_of_list_to_set, list_elem_of_fmap. now exists p.
Qed.

Lemma elem_of_network_border_groups (c : AWSIPPrefixes) (p : AWSIPPrefix) :
  p ∈ __iter__ c -> network_border_group p ∈ network_border_groups c.
Proof.
  intros Hp. unfold network_border_groups.
  apply elem_of_list_to_set, list_elem_of_fmap. now exists p.
Qed.

Lemma elem_of_services (c : AWSIPPrefixes) (p : AWSIPPrefix) (x : string) :
  p ∈ __iter__ c -> x ∈ awsipprefix.services p -> x ∈ services c.
Proof.
  intros Hp Hx. unfold services.
  apply elem_of_list_to_set, list_elem_of_In, in_concat.
  exists (awsipprefix.services p). split; [|now apply list_elem_of_In].
  apply in_map. now apply list_elem_of_In.
Qed.

Lemma filtered_sequences_inv (c : AWSIPPrefixes) (r n s : arg string) (v : arg Z) :
  collection c ->
  sequence_inv (ipv4_prefixes (filtered c r n s v))
  /\ sequence_inv (ipv6_prefixes (filtered c r n s v)).
Proof.
  intros Hc. destruct (collection_inv c Hc) as (I4 & I6 & _ & _).
  unfold filtered. simpl.
  split; case_bool_decide;
    first [apply sequence_inv_nil|now apply sequence_inv_filter].
Qed.

Lemma init_filtered (c : AWSIPPrefixes) (r n s : arg string) (v : arg Z) :
  collection c ->
  __init__ (sync_token c) (create_date c)
    (Some (ipv4_prefixes (filtered c r n s v))) (Some (ipv6_prefixes (filtered c r n s v)))
    None
  = Ok (filtered c r n s v).
Proof.
  intros Hc. destruct (filtered_sequences_inv c r n s v Hc) as [J4 J6].
  rewrite !init_given. rewrite !process_prefixes_id by assumption. reflexivity.
Qed.

(** [filter] on a collection, in one equation. *)
Lemma filter_outcome (c : AWSIPPrefixes) (r n s : arg string) (v : arg Z) :
  collection c ->
  (filter_accepts c r n s v /\ filter c r n s v = Ok (filtered c r n s v))
  \/ (~ filter_accepts c r n s v /\ filter c r n s v = Raise ValueError).
Proof.
  intros Hc. rewrite filter_unfold. unfold filter_accepts.
  destruct (decide (requested r (regions c) ⊆ regions c
                    /\ requested n (network_border_groups c) ⊆ network_border_groups c
                    /\ requested s (services c) ⊆ services c
                    /\ requested v {[ 4; 6 ]} ⊆ ({[ 4; 6 ]} : gset Z)))
    as [Ha|Hno].
  - left. split; [assumption|]. destruct Ha as (H1 & H2 & H3 & H4).
    rewrite !bool_decide_eq_true_2 by assumption.
    exact (init_filtered c r n s v Hc).
  - right. split; [assumption|].
    repeat case_bool_decide; try reflexivity; tauto.
Qed.

Lemma filtered_elem_of (c : AWSIPPrefixes) (r n s : arg string) (v : arg Z)
    (p : AWSIPPrefix) :
  p ∈ __iter__ (filtered c r n s v) ->
  p ∈ __iter__ c
  /\ selected (requested r (regions c)) (requested n (network_border_groups c))
       (requested s (services c)) p = true.
Proof.
  unfold __iter__, filtered. simpl. rewrite !elem_of_app.
  intros [Hp|Hp]; case_bool_decide; try (now apply elem_of_nil in Hp);
    apply filter_elem_of in Hp as [Hp Hsel]; tauto.
Qed.

Lemma filtered_collection (c : AWSIPPrefixes) (r n s : arg string) (v : arg Z) :
  collection c -> collection (filtered c r n s v).
Proof.
  intros Hc. destruct (collection_inv c Hc) as (_ & _ & T4 & T6).
  exists (sync_token c), (create_date c),
    (ipv4_prefixes (filtered c r n s v)), (ipv6_prefixes (filtered c r n s v)), None.
  split; [|split; [|apply (init_filtered c r n s v Hc)]].
  - apply forallb_forall. intros p Hp. apply list_elem_of_In in Hp.
    rewrite Forall_forall in T4. apply T4.
    unfold filtered in Hp. simpl in Hp. case_bool_decide;
      [now apply elem_of_nil in Hp|now apply filter_elem_of in Hp as [Hp _]].
  - apply forallb_forall. intros p Hp. apply list_elem_of_In in Hp.
    rewrite Forall_forall in T6. apply T6.
    unfold filtered in Hp. simpl in Hp. case_bool_decide;
      [now apply elem_of_nil in Hp|now apply filter_elem_of in Hp as [Hp _]].
Qed.

Lemma List_filter_all {A : Type} (f : A -> bool) (l : list A) :
  (forall x, x ∈ l -> f x = true) -> List.filter f l = l.
Proof.
  induction l as [|x l IH]; intros H; simpl; [reflexivity|].
  rewrite (H x) by (apply elem_of_cons; now left).
  f_equal. apply IH. intros y Hy. apply H. apply elem_of_cons. now right.
Qed.

Lemma List_filter_filter {A : Type} (f g : A -> bool) (l : list A) :
  List.filter f (List.filter g l) = List.filter (fun x => g x && f x) l.
Proof.
  induction l as [|x l IH]; simpl; [reflexivity|].
  destruct (g x); simpl; [destruct (f x); now rewrite IH|exact IH].
Qed.

Lemma List_filter_ext_elem {A : Type} (f g : A -> bool) (l : list A) :
  (forall x, x ∈ l -> f x = g x) -> List.filter f l = List.filter g l.
Proof.
  intros H. apply List.filter_ext_in. intros x Hx. apply H. now apply list_elem_of_In.
Qed.

(** X15: [filter()] without arguments is not the identity: on a
    collection it raises nothing and returns the records that have at
    least one service, with the source's sync token and create date and
    no content hash. *)
Theorem filter_without_arguments (c : AWSIPPrefixes) :
  collection c ->
  filter c ArgNone ArgNone ArgNone ArgNone
  = Ok (mkPrefixes (sync_token c) (create_date c)
          (List.filter (fun p => bool_decide (awsipprefix.services p <> []))
             (ipv4_prefixes c))
          (List.filter (fun p => bool_decide (awsipprefix.services p <> []))
             (ipv6_prefixes c))
          None).
Proof.
  intros Hc.
  assert (forall p, p ∈ __iter__ c ->
            selected (regions c) (network_border_groups c) (services c) p
            = bool_decide (awsipprefix.services p <> [])) as Hsel.
  { intros p Hp. apply eq_iff_eq_true.
    rewrite selected_spec, bool_decide_eq_true. split.
    - intros (_ & _ & x & Hx & _) E. rewrite E in Hx. now apply elem_of_nil in Hx.
    - intros Hne. split; [now apply elem_of_regions|].
      split; [now apply elem_of_network_border_groups|].
      destruct (awsipprefix.services p) as [|x l] eqn:E; [contradiction|].
      exists x. split; [apply elem_of_cons; now left|].
      apply (elem_of_services c p); [assumption|]. rewrite E.
      apply elem_of_cons. now left. }
  destruct (filter_outcome c ArgNone ArgNone ArgNone ArgNone Hc) as [[_ ->]|[Hno _]].
  - unfold filtered. rewrite !requested_none.
    rewrite !bool_decide_eq_false_2 by set_solver.
    f_equal. f_equal; apply List_filter_ext_elem; intros p Hp; apply Hsel;
      unfold __iter__; apply elem_of_app; tauto.
  - exfalso. apply Hno. unfold filter_accepts. rewrite !requested_none.
    repeat split; reflexivity.
Qed.

Lemma filter_without_arguments_witness :
  filter example_collection ArgNone ArgNone ArgNone ArgNone
  = Ok (mkPrefixes (sync_token example_collection) (create_date example_collection)
          (List.filter (fun p => bool_decide (awsipprefix.services p <> []))
             (ipv4_prefixes example_collection))
          (List.filter (fun p => bool_decide (awsipprefix.services p <> []))
             (ipv6_prefixes example_collection))
          None).
Proof.
  apply (filter_without_arguments example_collection).
  built_from (Some "1604000000"%string) (Some 1604000000) feed_v4 feed_v6
    (Some feed_md5).
Defined.

(** X16: the same [filter] call on its own result changes nothing: on
    the collection a filter returned, the call with the same arguments
    returns that collection again, or raises [ValueError] (a requested
    value need not be among those of the smaller collection). *)
Theorem filter_again_changes_nothing
    (c : AWSIPPrefixes) (r n s : arg string) (v : arg Z) (c' : AWSIPPrefixes) :
  collection c -> filter c r n s v = Ok c' ->
  (filter_accepts c' r n s v /\ filter c' r n s v = Ok c')
  \/ (~ filter_accepts c' r n s v /\ filter c' r n s v = Raise ValueError).
Proof.
  intros Hc Hf.
  destruct (filter_outcome c r n s v Hc) as [[_ E]|[_ E]]; rewrite E in Hf;
    [|discriminate].
  injection Hf as <-.
  pose proof (filtered_collection c r n s v Hc) as Hc'.
  destruct (filter_outcome (filtered c r n s v) r n s v Hc') as [[Ha E']|[Hno E']];
    [left|right; now split].
  split; [assumption|]. rewrite E'. f_equal.
  assert (forall p, p ∈ __iter__ (filtered c r n s v) ->
            selected (requested r (regions (filtered c r n s v)))
              (requested n (network_border_groups (filtered c r n s v)))
              (requested s (services (filtered c r n s v))) p = true) as Hsel.
  { intros p Hp. destruct (filtered_elem_of c r n s v p Hp) as [_ Hs].
    apply selected_spec in Hs as (HR & HN & x & Hx & HS).
    apply selected_spec. split; [|split].
    - apply (requested_transfer r (regions c)); [assumption|].
      now apply elem_of_regions.
    - apply (requested_transfer n (network_border_groups c)); [assumption|].
      now apply elem_of_network_border_groups.
    - exists x. split; [assumption|].
      apply (requested_transfer s (services c)); [assumption|].
      now apply (elem_of_services _ p). }
  set (c' := filtered c r n s v) in *.
  unfold filtered at 1.
  assert (sync_token c' = sync_token c /\ create_date c' = create_date c
          /\ md5 c' = None) as (Et & Ed & Em) by (subst c'; now unfold filtered).
  assert ((if bool_decide (4 ∉ requested v ({[ 4; 6 ]} : gset Z)) then []
           else List.filter
                  (selected (requested r (regions c'))
                     (requested n (network_border_groups c'))
                     (requested s (services c'))) (ipv4_prefixes c'))
          = ipv4_prefixes c') as ->.
  { case_bool_decide as E4.
    - subst c'. unfold filtered. simpl. now rewrite bool_decide_eq_true_2.
    - apply List_filter_all. intros p Hp. apply Hsel.
      unfold __iter__. apply elem_of_app. now left. }
  assert ((if bool_decide (6 ∉ requested v ({[ 4; 6 ]} : gset Z)) then []
           else List.filter
                  (selected (requested r (regions c'))
                     (requested n (network_border_groups c'))
                     (requested s (services c'))) (ipv6_prefixes c'))
          = ipv6_prefixes c') as ->.
  { case_bool_decide as E6.
    - subst c'. unfold filtered. simpl. now rewrite bool_decide_eq_true_2.
    - apply List_filter_all. intros p Hp. apply Hsel.
      unfold __iter__. apply elem_of_app. now right. }
  destruct c' as [t d l4 l6 h]. simpl in *. now subst.
Qed.

Lemma filter_again_changes_nothing_witness :
  (filter_accepts (filtered example_collection ArgNone ArgNone (ArgOne "EC2"%string) ArgNone)
     ArgNone ArgNone (ArgOne "EC2"%string) ArgNone
   /\ filter (filtered example_collection ArgNone ArgNone (ArgOne "EC2"%string) ArgNone)
        ArgNone ArgNone (ArgOne "EC2"%string) ArgNone
      = Ok (filtered example_collection ArgNone ArgNone (ArgOne "EC2"%string) ArgNone))
  \/ (~ filter_accepts
          (filtered example_collection ArgNone ArgNone (ArgOne "EC2"%string) ArgNone)
          ArgNone ArgNone (ArgOne "EC2"%string) ArgNone
      /\ filter (filtered example_collection ArgNone ArgNone (ArgOne "EC2"%string) ArgNone)
           ArgNone ArgNone (ArgOne "EC2"%string) ArgNone
         = Raise ValueError).
Proof.
  apply (filter_again_changes_nothing example_collection
           ArgNone ArgNone (ArgOne "EC2"%string) ArgNone
           (filtered example_collection ArgNone ArgNone (ArgOne "EC2"%string) ArgNone)).
  - built_from (Some "1604000000"%string) (Some 1604000000) feed_v4 feed_v6
      (Some feed_md5).
  - vm_compute. reflexivity.
Defined.

(** The second case occurs: the first call below keeps one record of
    region R1, so the second call finds the other region it is asked
    for missing. *)
Example filter_again_may_raise :
  filter example_collection (ArgMany ["R1"; "ap-northeast-2"]%string) ArgNone
    (ArgOne "AMAZON"%string) ArgNone
  = Ok (mkPrefixes (Some "1604000000"%string) (Some 1604000000) [rec_10_8] [] None)
  /\ filter (mkPrefixes (Some "1604000000"%string) (Some 1604000000) [rec_10_8] [] None)
       (ArgMany ["R1"; "ap-northeast-2"]%string) ArgNone (ArgOne "AMAZON"%string) ArgNone
     = Raise ValueError.
Proof. split; vm_compute; reflexivity. Qed.

Lemma filtered_iter_incl (c : AWSIPPrefixes) (r n s : arg string) (v : arg Z) :
  regions (filtered c r n s v) ⊆ regions c
  /\ network_border_groups (filtered c r n s v) ⊆ network_border_groups c
  /\ services (filtered c r n s v) ⊆ services c.
Proof.
  split; [|split]; intros x Hx.
  - apply elem_of_list_to_set, list_elem_of_fmap in Hx as (p & -> & Hp).
    apply filtered_elem_of in Hp as [Hp _]. now apply elem_of_regions.
  - apply elem_of_list_to_set, list_elem_of_fmap in Hx as (p & -> & Hp).
    apply filtered_elem_of in Hp as [Hp _]. now apply elem_of_network_border_groups.
  - apply elem_of_list_to_set, list_elem_of_In, in_concat in Hx as (ss & Hss & Hx).
    apply in_map_iff in Hss as (p & <- & Hp). apply list_elem_of_In in Hp.
    apply filtered_elem_of in Hp as [Hp _].
    apply (elem_of_services c p); [assumption|now apply list_elem_of_In].
Qed.

(** X17: filtering by services after filtering by regions, border groups
    and versions gives what one call with all four parameters gives. *)
Theorem filter_services_after_the_rest
    (c : AWSIPPrefixes) (r n s : arg string) (v : arg Z) (c1 c2 : AWSIPPrefixes) :
  collection c ->
  filter c r n ArgNone v = Ok c1 ->
  filter c1 ArgNone ArgNone s ArgNone = Ok c2 ->
  filter c r n s v = Ok c2.
Proof.
  intros Hc H1 H2.
  destruct (filter_outcome c r n ArgNone v Hc) as [[A1 E1]|[_ E1]]; rewrite E1 in H1;
    [|discriminate].
  injection H1 as <-.
  pose proof (filtered_collection c r n ArgNone v Hc) as Hc1.
  set (c1 := filtered c r n ArgNone v) in *.
  destruct (filter_outcome c1 ArgNone ArgNone s ArgNone Hc1) as [[A2 E2]|[_ E2]];
    rewrite E2 in H2; [|discriminate].
  injection H2 as <-.
  destruct A1 as (AR & AN & _ & AV). destruct A2 as (_ & _ & AS & _).
  destruct (filtered_iter_incl c r n ArgNone v) as (_ & _ & IS). fold c1 in IS.
  destruct (filter_outcome c r n s v Hc) as [[_ ->]|[Hno _]].
  2:{ exfalso. apply Hno. repeat split; try assumption.
      now apply (requested_subseteq s (services c) (services c1)). }
  apply (f_equal Ok). symmetry.
  assert (forall p, p ∈ __iter__ c1 ->
            selected (requested ArgNone (regions c1))
              (requested ArgNone (network_border_groups c1))
              (requested s (services c1)) p
            = selected (requested r (regions c)) (requested n (network_border_groups c))
                (requested s (services c)) p) as Hsel.
  { intros p Hp. pose proof Hp as Hp1.
    apply filtered_elem_of in Hp as [Hp Hs1].
    apply selected_spec in Hs1 as (HR & HN & _).
    apply eq_iff_eq_true. rewrite !selected_spec, !requested_none. split.
    - intros (_ & _ & x & Hx & HS). split; [assumption|]. split; [assumption|].
      exists x. split; [assumption|].
      apply (requested_transfer s (services c1)); [assumption|].
      now apply (elem_of_services c p).
    - intros (_ & _ & x & Hx & HS).
      split; [now apply elem_of_regions|].
      split; [now apply elem_of_network_border_groups|].
      exists x. split; [assumption|].
      apply (requested_transfer s (services c)); [assumption|].
      now apply (elem_of_services c1 p). }
  assert (forall p, p ∈ __iter__ c ->
            selected (requested r (regions c)) (requested n (network_border_groups c))
              (requested s (services c)) p = true ->
            selected (requested r (regions c)) (requested n (network_border_groups c))
              (requested ArgNone (services c)) p = true) as Hweak.
  { intros p Hp Hs. apply selected_spec in Hs as (HR & HN & x & Hx & _).
    apply selected_spec. split; [assumption|]. split; [assumption|].
    exists x. split; [assumption|]. rewrite requested_none.
    now apply (elem_of_services c p). }
  assert (forall (l : list AWSIPPrefix) (b : bool),
            (forall p, p ∈ l -> p ∈ __iter__ c) ->
            (forall p, p ∈ (if b then [] else
                              List.filter
                                (selected (requested r (regions c))
                                   (requested n (network_border_groups c))
                                   (requested ArgNone (services c))) l) ->
                       p ∈ __iter__ c1) ->
            List.filter
              (selected (requested ArgNone (regions c1))
                 (requested ArgNone (network_border_groups c1))
                 (requested s (services c1)))
              (if b then [] else
                 List.filter
                   (selected (requested r (regions c))
                      (requested n (network_border_groups c))
                      (requested ArgNone (services c))) l)
            = (if b then [] else
                 List.filter
                   (selected (requested r (regions c))
                      (requested n (network_border_groups c))
                      (requested s (services c))) l)) as Hseq.
  { intros l b Hl Hl1. destruct b; [reflexivity|].
    rewrite (List_filter_ext_elem _ _ _ (fun p Hp => Hsel p (Hl1 p Hp))).
    rewrite List_filter_filter. apply List_filter_ext_elem. intros p Hp.
    destruct (selected _ _ (requested s (services c)) p) eqn:Es.
    - now rewrite (Hweak p (Hl p Hp) Es).
    - apply andb_false_r. }
  unfold filtered at 1. rewrite requested_none.
  rewrite !(bool_decide_eq_false_2 (_ ∉ ({[ 4; 6 ]} : gset Z))) by set_solver.
  unfold filtered at 1.
  assert (sync_token c1 = sync_token c /\ create_date c1 = create_date c)
    as [-> ->] by (subst c1; now unfold filtered).
  f_equal.
  - change (ipv4_prefixes c1)
      with (if bool_decide (4 ∉ requested v ({[ 4; 6 ]} : gset Z)) then []
            else List.filter
                   (selected (requested r (regions c))
                      (requested n (network_border_groups c))
                      (requested ArgNone (services c))) (ipv4_prefixes c)).
    apply Hseq.
    + intros p Hp. unfold __iter__. apply elem_of_app. now left.
    + intros p Hp. unfold __iter__. apply elem_of_app. now left.
  - change (ipv6_prefixes c1)
      with (if bool_decide (6 ∉ requested v ({[ 4; 6 ]} : gset Z)) then []
            else List.filter
                   (selected (requested r (regions c))
                      (requested n (network_border_groups c))
                      (requested ArgNone (services c))) (ipv6_prefixes c)).
    apply Hseq.
    + intros p Hp. unfold __iter__. apply elem_of_app. now right.
    + intros p Hp. unfold __iter__. apply elem_of_app. now right.
Qed.

Lemma filter_services_after_the_rest_witness :
  filter example_collection (ArgOne "R1"%string) ArgNone (ArgOne "EC2"%string) (ArgOne 4)
  = Ok (mkPrefixes (Some "1604000000"%string) (Some 1604000000) [rec_10_16] [] None).
Proof.
  apply (filter_services_after_the_rest example_collection
           (ArgOne "R1"%string) ArgNone (ArgOne "EC2"%string) (ArgOne 4)
           (mkPrefixes (Some "1604000000"%string) (Some 1604000000)
              [rec_10_8; rec_10_16] [] None)
           (mkPrefixes (Some "1604000000"%string) (Some 1604000000)
              [rec_10_16] [] None)).
  - built_from (Some "1604000000"%string) (Some 1604000000) feed_v4 feed_v6
      (Some feed_md5).
  - vm_compute. reflexivity.
  - vm_compute. reflexivity.
Defined.

(** The records of the collection [filter] builds. *)
Lemma filtered_iter (c : AWSIPPrefixes) (r n s : arg string) (v : arg Z)
    (p : AWSIPPrefix) :
  collection c ->
  (p ∈ __iter__ (filtered c r n s v)
   <-> p ∈ __iter__ c
       /\ region p ∈ requested r (regions c)
       /\ network_border_group p ∈ requested n (network_border_groups c)
       /\ (exists x, x ∈ awsipprefix.services p /\ x ∈ requested s (services c))
       /\ version_number (version (prefix p)) ∈ requested v ({[ 4; 6 ]} : gset Z)).
Proof.
  intros Hc.
  destruct (collection_records_ok c IPv4 Hc) as [_ V4].
  destruct (collection_records_ok c IPv6 Hc) as [_ V6].
  rewrite Forall_forall in V4, V6. simpl in V4, V6.
  pose proof (selected_spec (requested r (regions c))
                (requested n (network_border_groups c))
                (requested s (services c)) p) as Hs.
  unfold __iter__, filtered. simpl. rewrite !elem_of_app. split.
  - intros [Hp|Hp]; case_bool_decide as E; try (now apply elem_of_nil in Hp);
      apply filter_elem_of in Hp as [Hp Hsel]; apply Hs in Hsel.
    + rewrite (V4 p Hp). simpl.
      destruct (decide (4 ∈ requested v ({[ 4; 6 ]} : gset Z))); tauto.
    + rewrite (V6 p Hp). simpl.
      destruct (decide (6 ∈ requested v ({[ 4; 6 ]} : gset Z))); tauto.
  - intros ([Hp|Hp] & HR & HN & HS & Hv).
    + left. rewrite (V4 p Hp) in Hv. simpl in Hv.
      rewrite bool_decide_eq_false_2 by tauto. apply filter_elem_of. tauto.
    + right. rewrite (V6 p Hp) in Hv. simpl in Hv.
      rewrite bool_decide_eq_false_2 by tauto. apply filter_elem_of. tauto.
Qed.

(** An accepted [filter] call returns the records that meet its four
    criteria. *)
Lemma filter_accepted (c : AWSIPPrefixes) (r n s : arg string) (v : arg Z) :
  collection c -> filter_accepts c r n s v ->
  exists c',
    filter c r n s v = Ok c'
    /\ forall p,
         p ∈ __iter__ c'
         <-> p ∈ __iter__ c
             /\ region p ∈ requested r (regions c)
             /\ network_border_group p ∈ requested n (network_border_groups c)
             /\ (exists x, x ∈ awsipprefix.services p /\ x ∈ requested s (services c))
             /\ version_number (version (prefix p))
                ∈ requested v ({[ 4; 6 ]} : gset Z).
Proof.
  intros Hc Ha.
  destruct (filter_outcome c r n s v Hc) as [[_ E]|[Hno _]]; [|contradiction].
  exists (filtered c r n s v). split; [exact E|].
  intros p. now apply filtered_iter.
Qed.

Lemma requested_empty {K : Type} `{Countable K} (X : gset K) :
  requested (ArgMany []) X = X.
Proof. unfold requested, set_or. simpl. now rewrite bool_decide_eq_true_2. Qed.

(** C9: on a collection, an explicitly empty collection of values for a
    parameter of [filter] is the same call as leaving the parameter
    out.  The call then succeeds whenever the other three parameters
    pass their validation, so the empty parameter causes no validation
    failure; and the parameter stands for all observed values, so it
    excludes no record: the new collection holds exactly the records of
    the source that meet the criteria of the other three parameters
    (for [services], the records that have a service at all). *)
Theorem filter_empty_argument_as_omitted
    (c : AWSIPPrefixes) (r n s : arg string) (v : arg Z) :
  collection c ->
  (filter c (ArgMany []) n s v = filter c ArgNone n s v
   /\ (requested n (network_border_groups c) ⊆ network_border_groups c ->
       requested s (services c) ⊆ services c ->
       requested v {[ 4; 6 ]} ⊆ ({[ 4; 6 ]} : gset Z) ->
       exists c',
         filter c (ArgMany []) n s v = Ok c'
         /\ forall p,
              p ∈ __iter__ c'
              <-> p ∈ __iter__ c
                  /\ network_border_group p ∈ requested n (network_border_groups c)
                  /\ (exists x, x ∈ awsipprefix.services p
                                /\ x ∈ requested s (services c))
                  /\ version_number (version (prefix p))
                     ∈ requested v ({[ 4; 6 ]} : gset Z)))
  /\
  (filter c r (ArgMany []) s v = filter c r ArgNone s v
   /\ (requested r (regions c) ⊆ regions c ->
       requested s (services c) ⊆ services c ->
       requested v {[ 4; 6 ]} ⊆ ({[ 4; 6 ]} : gset Z) ->
       exists c',
         filter c r (ArgMany []) s v = Ok c'
         /\ forall p,
              p ∈ __iter__ c'
              <-> p ∈ __iter__ c
                  /\ region p ∈ requested r (regions c)
                  /\ (exists x, x ∈ awsipprefix.services p
                                /\ x ∈ requested s (services c))
                  /\ version_number (version (prefix p))
                     ∈ requested v ({[ 4; 6 ]} : gset Z)))
  /\
  (filter c r n (ArgMany []) v = filter c r n ArgNone v
   /\ (requested r (regions c) ⊆ regions c ->
       requested n (network_border_groups c) ⊆ network_border_groups c ->
       requested v {[ 4; 6 ]} ⊆ ({[ 4; 6 ]} : gset Z) ->
       exists c',
         filter c r n (ArgMany []) v = Ok c'
         /\ forall p,
              p ∈ __iter__ c'
              <-> p ∈ __iter__ c
                  /\ region p ∈ requested r (regions c)
                  /\ network_border_group p ∈ requested n (network_border_groups c)
                  /\ awsipprefix.services p <> []
                  /\ version_number (version (prefix p))
                     ∈ requested v ({[ 4; 6 ]} : gset Z)))
  /\
  (filter c r n s (ArgMany []) = filter c r n s ArgNone
   /\ (requested r (regions c) ⊆ regions c ->
       requested n (network_border_groups c) ⊆ network_border_groups c ->
       requested s (services c) ⊆ services c ->
       exists c',
         filter c r n s (ArgMany []) = Ok c'
         /\ forall p,
              p ∈ __iter__ c'
              <-> p ∈ __iter__ c
                  /\ region p ∈ requested r (regions c)
                  /\ network_border_group p ∈ requested n (network_border_groups c)
                  /\ (exists x, x ∈ awsipprefix.services p
                                /\ x ∈ requested s (services c)))).
Proof.
  intros Hc.
  split; [|split; [|split]]; (split; [reflexivity|]); intros H1 H2 H3.
  - destruct (filter_accepted c (ArgMany []) n s v Hc) as (c' & E & Hmem).
    { unfold filter_accepts. rewrite requested_empty. now repeat split. }
    exists c'. split; [exact E|]. intros p. rewrite Hmem, requested_empty.
    split; [tauto|]. intros (Hp & H). split; [assumption|].
    split; [now apply elem_of_regions|assumption].
  - destruct (filter_accepted c r (ArgMany []) s v Hc) as (c' & E & Hmem).
    { unfold filter_accepts. rewrite requested_empty. now repeat split. }
    exists c'. split; [exact E|]. intros p. rewrite Hmem, requested_empty.
    split; [tauto|]. intros (Hp & HR & H). split; [assumption|].
    split; [assumption|]. split; [now apply elem_of_network_border_groups|assumption].
  - destruct (filter_accepted c r n (ArgMany []) v Hc) as (c' & E & Hmem).
    { unfold filter_accepts. rewrite requested_empty. now repeat split. }
    exists c'. split; [exact E|]. intros p. rewrite Hmem, requested_empty.
    split.
    + intros (Hp & HR & HN & (x & Hx & _) & HV). repeat (split; [assumption|]).
      split; [|assumption]. intros E0. rewrite E0 in Hx. now apply elem_of_nil in Hx.
    + intros (Hp & HR & HN & Hne & HV). repeat (split; [assumption|]).
      split; [|assumption].
      destruct (awsipprefix.services p) as [|x l] eqn:E0; [contradiction|].
      exists x. split; [apply elem_of_cons; now left|].
      apply (elem_of_services c p); [assumption|]. rewrite E0.
      apply elem_of_cons. now left.
  - destruct (filter_accepted c r n s (ArgMany []) Hc) as (c' & E & Hmem).
    { unfold filter_accepts. rewrite requested_empty.
      repeat split; try assumption; reflexivity. }
    exists c'. split; [exact E|]. intros p. rewrite Hmem, requested_empty.
    split; [tauto|]. intros (Hp & HR & HN & HS). repeat (split; [assumption|]).
    destruct (version (prefix p)); simpl; set_solver.
Qed.

Lemma filter_empty_argument_as_omitted_witness :
  exists c',
    filter example_collection (ArgMany []) ArgNone (ArgOne "EC2"%string) (ArgOne 4)
    = Ok c'
    /\ forall p,
         p ∈ __iter__ c'
         <-> p ∈ __iter__ example_collection
             /\ network_border_group p
                ∈ requested ArgNone (network_border_groups example_collection)
             /\ (exists x, x ∈ awsipprefix.services p
                           /\ x ∈ requested (ArgOne "EC2"%string)
                                  (services example_collection))
             /\ version_number (version (prefix p))
                ∈ requested (ArgOne 4) ({[ 4; 6 ]} : gset Z).
Proof.
  destruct (filter_empty_argument_as_omitted example_collection
              (ArgOne "R1"%string) ArgNone (ArgOne "EC2"%string) (ArgOne 4))
    as [[_ H] _].
  - built_from (Some "1604000000"%string) (Some 1604000000) feed_v4 feed_v6
      (Some feed_md5).
  - apply H; by_evaluation.
Defined.
